(** * devstats [cmd/sqlitedb]: reconciling Grafana dashboards between SQLite and JSON

    A shallow embedding of [cmd/sqlitedb/sqlitedb.go]: the tag reconciler
    [updateTags], the two import strategies [importJsonsByUID] (matching by
    uid) and [importJsonsByTitle] (matching by title), and the export
    [exportJsons], together with the properties of the reconciliation engine.

    Conventions of the embedding:
    - Go strings are [string]s compared byte-wise, as Go's [==] and [<] do.
    - A Go [map[string]T] is a [gmap string T]; the order in which [range]
      walks a map is left open (see [range] below).
    - The process state is a [World]: the SQLite database reached through
      [database/sql], the other files on disk, and the clock.  The database
      file is only reached through SQL statements and [lib.ReadFile]: the
      files written by the program (sidecars, the backup) are kept apart
      from it.
    - The tag reconciler and the imports run in the monad [M]: they read
      and update the [World], emit the [Event]s they perform, in order, and
      either return or stop the process ([lib.Fatalf], [lib.FatalOnError]).
      The export, which has no check of its own, is a fold over the rows.
    - Failures of the SQL driver and of [ioutil.WriteFile] are not modelled:
      statements and file writes succeed.
    - When the process stops it prints a diagnostic: the last event of a
      run that stops is that line ([MsgFatal]).
    - The package [lib] and [encoding/json] are taken as they are used:
      [lib.ReadFile], [json.Unmarshal], [lib.PrettyPrintJSON] and
      [lib.Slugify] are variables of the development, and the examples run
      on the stand-ins of [Demo].
    - A table is the list of its rows, in the order in which a query
      without [order by] returns them; that [id] is the primary key of
      [dashboard] is said where it is used. *)

From Stdlib Require Import String Ascii List ZArith Lia.
From stdpp Require Import gmap strings list fin_maps sorting pretty.

Open Scope Z_scope.

Set Default Proof Using "Type".

(** ** Strings: [sort.Strings] and [strings.Join] *)

(** Go's [<=] on strings: byte-wise lexicographic order. *)
Definition string_le (s1 s2 : string) : Prop := String.leb s1 s2 = true.

#[global] Instance string_le_dec s1 s2 : Decision (string_le s1 s2).
Proof. unfold string_le. apply _. Defined.

(** [sort.Strings]: the slice in increasing order.  The sorted arrangement of
    a list of strings is unique ([sort_Strings_unique]), so the algorithm
    does not matter. *)
Definition sort_Strings (l : list string) : list string :=
  merge_sort string_le l.

(** [strings.Join(elems, sep)] *)
Definition Join (elems : list string) (sep : string) : string :=
  String.concat sep elems.

(** [strings.Split(s, sep)] for a one-byte separator: the pieces of [s]
    between the separators; an [s] without separator is the only piece. *)
Fixpoint Split (s : string) (sep : ascii) : list string :=
  match s with
  | EmptyString => [EmptyString]
  | String c s' =>
      if bool_decide (c = sep) then EmptyString :: Split s' sep
      else match Split s' sep with
           | piece :: pieces => String c piece :: pieces
           | [] => [String c EmptyString]
           end
  end.

(** [s] holds the character [c]. *)
Fixpoint has_char (c : ascii) (s : string) : bool :=
  match s with
  | EmptyString => false
  | String a s' => bool_decide (a = c) || has_char c s'
  end.

(** A plain tag: not empty, without a comma. *)
Definition plain_tag (t : string) : Prop :=
  t ≠ EmptyString /\ has_char ","%char t = false.

(** The length of the joined string of a non-empty list, plus one: every
    element counts for its length and one separator. *)
Definition joined_weight (l : list string) : nat :=
  sum_list ((fun t => S (String.length t)) <$> l).

(** Letter case: ASCII upper case letters folded to lower case. *)
Definition lower (c : ascii) : ascii :=
  let n := nat_of_ascii c in
  if bool_decide (65 <= n <= 90)%nat then ascii_of_nat (n + 32) else c.

Fixpoint ToLower (s : string) : string :=
  match s with
  | EmptyString => EmptyString
  | String c s' => String (lower c) (ToLower s')
  end.

(** Two tag lists equal as sets up to letter case. *)
Definition same_tags_ignoring_case (A B : list string) : Prop :=
  forall t, t ∈ (ToLower <$> A) <-> t ∈ (ToLower <$> B).

(** ** Dashboards *)

(** [dashboard] stores main dashboard keys title and uid (and the tags). *)
Record dashboard := mkDashboard {
  Title : string;
  UID : string;
  Tags : list string
}.

(** [dashboardData] keeps all dashboard data & metadata. *)
Record dashboardData := mkData {
  dash : dashboard;
  id : Z;
  title : string;
  slug : string;
  data : string;
  fn : string
}.

(** Go's zero values: what [var dd dashboardData] declares and what a map
    returns for a missing key. *)
Definition zero_dashboard : dashboard := mkDashboard EmptyString EmptyString [].
Definition zero_dashboardData : dashboardData :=
  mkData zero_dashboard 0 EmptyString EmptyString EmptyString EmptyString.

(** The variables that [importJsonsByTitle] declares before its loop and
    that live across iterations: [dash] and [dash2] (decoded into again and
    again), [backedUp], and the loop index [i].  ([data], [id] and [slug] are
    written by every iteration before it reads them.) *)
Record TitleState := mkTitleState {
  st_i : Z;
  st_dash : dashboard;
  st_dash2 : dashboard;
  st_backedUp : bool
}.

(** ** The database *)

(** A row of [dashboard(id, title, slug, data)]. *)
Record dashboard_row := mkRow {
  row_id : Z;
  row_title : string;
  row_slug : string;
  row_data : string
}.

(** A row of [dashboard_tag(dashboard_id, term)]. *)
Record tag_row := mkTag {
  dashboard_id : Z;
  term : string
}.

#[global] Instance dashboard_row_eq_dec : EqDecision dashboard_row.
Proof. solve_decision. Defined.

#[global] Instance tag_row_eq_dec : EqDecision tag_row.
Proof. solve_decision. Defined.

Record Database := mkDb {
  dashboard_tbl : list dashboard_row;
  dashboard_tag : list tag_row
}.

(** The statements the program runs through [db.Exec]. *)
Inductive Sql :=
| InsertTag (did : Z) (tag : string)
    (* insert into dashboard_tag(dashboard_id, term) values(?, ?) *)
| DeleteTag (did : Z) (tag : string)
    (* delete from dashboard_tag where dashboard_id = ? and term = ? *)
| UpdateDashboard (title slug data : string) (id : Z).
    (* update dashboard set title = ?, slug = ?, data = ? where id = ? *)

Definition is_tag (did : Z) (tag : string) (r : tag_row) : Prop :=
  dashboard_id r = did /\ term r = tag.

#[global] Instance is_tag_dec did tag r : Decision (is_tag did tag r).
Proof. unfold is_tag. apply _. Defined.

Definition set_row (title slug data : string) (id : Z) (r : dashboard_row)
  : dashboard_row :=
  if bool_decide (row_id r = id) then mkRow id title slug data else r.

Definition run_sql (q : Sql) (d : Database) : Database :=
  match q with
  | InsertTag did tag =>
      mkDb (dashboard_tbl d) (dashboard_tag d ++ [mkTag did tag])
  | DeleteTag did tag =>
      mkDb (dashboard_tbl d)
           (filter (fun r => ~ is_tag did tag r) (dashboard_tag d))
  | UpdateDashboard title slug data id =>
      mkDb (set_row title slug data id <$> dashboard_tbl d) (dashboard_tag d)
  end.

(** [select term from dashboard_tag where dashboard_id = ? order by term asc]
    (SQLite orders TEXT byte-wise, as Go does). *)
Definition select_terms (did : Z) (d : Database) : list string :=
  sort_Strings
    (term <$> filter (fun r => dashboard_id r = did) (dashboard_tag d)).

(** [select id, data, title, slug from dashboard] *)
Definition select_dashboards (d : Database) : list dashboard_row :=
  dashboard_tbl d.

(** [select id, data, slug from dashboard where title = ?] *)
Definition select_by_title (title : string) (d : Database)
  : list dashboard_row :=
  filter (fun r => row_title r = title) (dashboard_tbl d).

(** ** The process: world, events, and the monad [M] *)

Record World := mkWorld {
  db : Database;
  files : gmap string string;
  clock : Z
}.

(** The reasons for which the process stops, one constructor per call of
    [lib.Fatalf] or failing [lib.FatalOnError], carrying the values that its
    diagnostic formats. *)
Inductive Error :=
| ErrReadFile (path : string)
| ErrUnmarshal (bytes : string)
| ErrInconsistency (title dashTitle : string)
| ErrUIDNotFound (j uid title : string)
| ErrDuplicateUID (j : string) (dash collision : dashboard)
| ErrArity
| ErrTitleNotFound (dashTitle : string).

(** What the program prints: through [lib.Printf], one constructor per call
    site, carrying the values it formats; and, when it stops, the diagnostic
    of [lib.Fatalf] or [lib.FatalOnError]. *)
Inductive Msg :=
| MsgFatal (e : Error)
| MsgTagInserted (info : string) (did : Z) (sDBTags sJSONTags tag : string)
| MsgTagDeleted (info : string) (did : Z) (sDBTags sJSONTags tag : string)
| MsgTagsUpdated (info : string) (did : Z) (sDBTags sJSONTags : string)
                 (nI nD : Z)
| MsgBackedUp (bfn : string)
| MsgPair (dd ddWas : dashboardData)
| MsgUpdatedDebug (fn uid : string) (updated : bool) (dd ddWas : dashboardData)
| MsgUpdated (fn uid : string) (updated : bool) (dd ddWas : dashboardData)
| MsgSummary (nDbMap nJSONMap nImp : Z)
| MsgImporting (i : Z) (j : string) (ary : list string)
| MsgUIDMismatch (jsonUID dbUID : string)
| MsgUpdatedByTitleDebug (dashTitle title slug dashSlug : string)
                         (updated : bool) (tags : list string)
                         (data sBytes : string)
| MsgUpdatedByTitle (dashTitle title slug dashSlug : string)
                    (updated : bool) (tags : list string).

(** The two [ioutil.WriteFile] call sites. *)
Inductive Artifact := Backup | Sidecar.

Inductive Event :=
| Exec (q : Sql)
| WriteFile (a : Artifact) (path bytes : string)
| Printf (m : Msg).

Inductive Res (A : Type) :=
| Done (a : A)
| Fatal (e : Error).
Arguments Done {A} a.
Arguments Fatal {A} e.

Definition M (A : Type) : Type := World -> list Event * World * Res A.

#[global] Instance M_ret : MRet M := fun A a w => ([], w, Done a).

#[global] Instance M_bind : MBind M := fun A B f m w =>
  match m w with
  | (e1, w1, Done a) =>
      match f a w1 with
      | (e2, w2, r) => (e1 ++ e2, w2, r)
      end
  | (e1, w1, Fatal e) => (e1, w1, Fatal e)
  end.

(** Modelled from the spec: [lib.Fatalf] and [lib.FatalOnError], of the
    package [lib], are not among the sources; by the spec (section 7) a
    one-line diagnostic naming the offending item, identifier or title
    precedes termination.  The process prints the diagnostic and stops. *)
Definition Fatalf {A} (e : Error) : M A :=
  fun w => ([Printf (MsgFatal e)], w, Fatal e).

(** [db.Query]: reads, emits nothing. *)
Definition Query {A} (q : Database -> A) : M A :=
  fun w => ([], w, Done (q (db w))).

(** [db.Exec] *)
Definition exec (q : Sql) : M unit :=
  fun w => ([Exec q], mkWorld (run_sql q (db w)) (files w) (clock w), Done tt).

(** [ioutil.WriteFile] *)
Definition writeFile (a : Artifact) (path bytes : string) : M unit :=
  fun w => ([WriteFile a path bytes],
            mkWorld (db w) (<[path:=bytes]> (files w)) (clock w), Done tt).

(** [lib.Printf] *)
Definition printf (m : Msg) : M unit := fun w => ([Printf m], w, Done tt).

(** [time.Now().UnixNano()]: the clock is read and moves on. *)
Definition UnixNano : M Z :=
  fun w => ([], mkWorld (db w) (files w) (clock w + 1), Done (clock w)).

(** A [for] loop over a slice, threading the loop's variables. *)
Fixpoint forM {S X} (body : S -> X -> M S) (s : S) (l : list X) : M S :=
  match l with
  | [] => mret s
  | x :: l' => s' ← body s x; forM body s' l'
  end.

(** What a run that has done nothing else has emitted: nothing if it
    returned, the diagnostic if it stopped the process. *)
Definition last_words {A} (r : Res A) : list Event :=
  match r with
  | Done _ => []
  | Fatal e => [Printf (MsgFatal e)]
  end.

(** The events of a run, its final world, and its result. *)
Definition events {A} (x : list Event * World * Res A) : list Event := x.1.1.
Definition world {A} (x : list Event * World * Res A) : World := x.1.2.
Definition result {A} (x : list Event * World * Res A) : Res A := x.2.

(** The SQL statements among the events. *)
Definition statements (evs : list Event) : list Sql :=
  omap (fun e => match e with Exec q => Some q | _ => None end) evs.

(** The tag inserts and the tag deletes among them: dashboard and tag. *)
Definition inserts (evs : list Event) : list (Z * string) :=
  omap (fun e => match e with
                 | Exec (InsertTag d t) => Some (d, t)
                 | _ => None
                 end) evs.

Definition deletes (evs : list Event) : list (Z * string) :=
  omap (fun e => match e with
                 | Exec (DeleteTag d t) => Some (d, t)
                 | _ => None
                 end) evs.

(** The backup files written: path and contents. *)
Definition backups (evs : list Event) : list (string * string) :=
  omap (fun e => match e with
                 | WriteFile Backup path bytes => Some (path, bytes)
                 | _ => None
                 end) evs.

(** The sidecar files written: path and contents. *)
Definition sidecars (evs : list Event) : list (string * string) :=
  omap (fun e => match e with
                 | WriteFile Sidecar path bytes => Some (path, bytes)
                 | _ => None
                 end) evs.

(** The dashboard a statement writes to. *)
Definition target (q : Sql) : Z :=
  match q with
  | InsertTag did _ | DeleteTag did _ => did
  | UpdateDashboard _ _ _ id => id
  end.

(** An event that is no statement, or a statement on dashboard [did]. *)
Definition on_dashboard (did : Z) (e : Event) : Prop :=
  match e with
  | Exec q => target q = did
  | _ => True
  end.

(** The signs that a dashboard changed: a statement was run, or
    [updateTags] reported the tags as updated. *)
Definition is_change (e : Event) : bool :=
  match e with
  | Exec _ => true
  | Printf (MsgTagsUpdated _ _ _ _ _ _) => true
  | _ => false
  end.

Definition changed (evs : list Event) : bool := existsb is_change evs.

(** The events of an import run as far as the backup goes: either nothing
    changed and no backup was written; or exactly one backup was written,
    holding [contents], after a change, and the statements run before it all
    write to one dashboard. *)
Definition backed_up_once (contents : string) (evs : list Event) : Prop :=
  exists pre path post did,
    evs = pre ++ WriteFile Backup path contents :: post /\
    backups pre = [] /\ backups post = [] /\
    changed pre = true /\ Forall (on_dashboard did) pre.

Definition backup_shape (contents : string) (evs : list Event) : Prop :=
  (changed evs = false /\ backups evs = []) \/ backed_up_once contents evs.

(** One iteration of an import loop on dashboard [did], entered with the
    flag [b] and left with [b']: its statements write to [did]; if the
    backup is already taken it writes none; otherwise either nothing changes,
    or something changes and the iteration ends by writing the backup. *)
Definition item_shape (contents : string) (did : Z) (b : bool)
    (e : list Event) (b' : bool) : Prop :=
  Forall (on_dashboard did) e /\
  (if b then b' = true /\ backups e = []
   else (b' = false /\ changed e = false /\ backups e = []) \/
        (b' = true /\ exists pre path,
           e = pre ++ [WriteFile Backup path contents;
                       Printf (MsgBackedUp path)] /\
           backups pre = [] /\ changed pre = true)).

(** What an import loop keeps true of the events so far and [backedUp]. *)
Definition backup_inv (contents : string) (b : bool) (e : list Event)
  : Prop :=
  if b then backed_up_once contents e
  else changed e = false /\ backups e = [].

(** The dashboards that the [update dashboard] statements write to. *)
Definition updates (evs : list Event) : list Z :=
  omap (fun e => match e with
                 | Exec (UpdateDashboard _ _ _ id) => Some id
                 | _ => None
                 end) evs.

(** The rows of [dashboard] with a given id. *)
Definition rows_with (id : Z) (d : Database) : list dashboard_row :=
  filter (fun r => row_id r = id) (dashboard_tbl d).

(** C3: at most one backup file is written in a run; a change makes it
    exactly one, nothing else does; and it holds the bytes of the database
    file as the run read them when it started ([read] is the outcome of that
    first read). *)
Definition backed_up_at_most_once (read : option string)
    (evs : list Event) : Prop :=
  (length (backups evs) <= 1)%nat /\
  length (backups evs) = (if changed evs then 1 else 0)%nat /\
  (forall path bytes, (path, bytes) ∈ backups evs -> read = Some bytes).


(** A run that stops the process and has touched nothing: no statement,
    no backup, no sidecar; database and files as they were. *)
Definition fails_untouched {A} (w : World)
    (run : list Event * World * Res A) : Prop :=
  (exists err, result run = Fatal err) /\
  statements (events run) = [] /\
  backups (events run) = [] /\ sidecars (events run) = [] /\
  db (world run) = db w /\ files (world run) = files w.


(** What [exportJsons] does besides reading the table: the files it
    writes and the lines it prints. *)
Inductive Exported :=
| ExportFile (fn bytes : string)
    (* ioutil.WriteFile(fn, lib.PrettyPrintJSON([]byte(data)), 0644) *)
| ExportLine (title fn : string).
    (* lib.Printf("Written '%s' to %s\n", title, fn) *)

(** The lines that report a uid mismatch: the two uids compared. *)
Definition mismatches (evs : list Event) : list (string * string) :=
  omap (fun e => match e with
                 | Printf (MsgUIDMismatch a b) => Some (a, b)
                 | _ => None
                 end) evs.

(** ** Stand-ins for the examples

    Concrete values for what the program takes from elsewhere, used to run
    it on examples: a decoder and a pretty-printer that know the documents of
    a given list, in their compact and indented renderings; a slug function;
    a file system read; and an order for [range]. *)
Module Demo.

(** The double quote and the line feed. *)
Definition dq : string := String "034"%char EmptyString.
Definition nl : string := String "010"%char EmptyString.
Definition quoted (s : string) : string := dq +:+ s +:+ dq.

(** A dashboard document on one line, keys in the order title, uid, tags. *)
Definition compact (d : dashboard) : string :=
  "{" +:+ quoted "title" +:+ ":" +:+ quoted (Title d) +:+ ","
      +:+ quoted "uid" +:+ ":" +:+ quoted (UID d) +:+ ","
      +:+ quoted "tags" +:+ ":[" +:+ Join (quoted <$> Tags d) "," +:+ "]}".

(** The same document as [json.MarshalIndent] renders it: keys sorted,
    two spaces of indentation. *)
Definition indented (d : dashboard) : string :=
  "{" +:+ nl
  +:+ "  " +:+ quoted "tags" +:+ ": "
  +:+ (match Tags d with
       | [] => "[]"
       | _ => "[" +:+ nl
              +:+ Join ((fun t => "    " +:+ quoted t) <$> Tags d)
                       ("," +:+ nl)
              +:+ nl +:+ "  ]"
       end) +:+ "," +:+ nl
  +:+ "  " +:+ quoted "title" +:+ ": " +:+ quoted (Title d) +:+ "," +:+ nl
  +:+ "  " +:+ quoted "uid" +:+ ": " +:+ quoted (UID d) +:+ nl
  +:+ "}".

Definition renders (bytes : string) (d : dashboard) : bool :=
  bool_decide (bytes = compact d) || bool_decide (bytes = indented d).

Definition Unmarshal (docs : list dashboard) (bytes : string)
    (into : dashboard) : option dashboard :=
  List.find (renders bytes) docs.

Definition PrettyPrintJSON (docs : list dashboard) (bytes : string)
  : string :=
  match List.find (renders bytes) docs with
  | Some d => indented d
  | None => bytes
  end.

(** Lower case, every run of other characters turned into one hyphen, no
    hyphen at either end. *)
Definition slug_char (c : ascii) : option ascii :=
  let n := nat_of_ascii c in
  if bool_decide (65 <= n <= 90)%nat then Some (ascii_of_nat (n + 32))
  else if bool_decide (97 <= n <= 122)%nat || bool_decide (48 <= n <= 57)%nat
       then Some c
       else None.

Fixpoint slug_go (pending : bool) (started : bool) (s : string) : string :=
  match s with
  | EmptyString => EmptyString
  | String c s' =>
      match slug_char c with
      | Some c' =>
          (if pending && started then "-" else EmptyString)
            +:+ String c' (slug_go false true s')
      | None => slug_go true started s'
      end
  end.

Definition Slugify (title : string) : string := slug_go false false title.

Definition ReadFile (w : World) (path : string) : option string :=
  files w !! path.

Definition range (A : Type) (m : gmap string A) : list (string * A) :=
  map_to_list m.

(** The documents of the examples. *)
Definition cpu : dashboard := mkDashboard "CPU" "abc123" ["infra"; "perf"].
Definition mem : dashboard := mkDashboard "Memory" "def456" ["infra"].
Definition cpu_other : dashboard :=
  mkDashboard "CPU" "zzz999" ["infra"; "perf"].
Definition cpu_old : dashboard :=
  mkDashboard "CPU" "abc123" ["perf"; "net"].
Definition docs : list dashboard := [cpu; cpu_old; mem; cpu_other].

(** The files on disk: the database file and the JSON arguments. *)
Definition files0 : gmap string string :=
  list_to_map [("grafana.db", "SQLite format 3");
               ("cpu.json", compact cpu);
               ("cpu2.json", indented cpu);
               ("mem.json", compact mem)].

(** The record of dashboard 7, holding the document [d]. *)
Definition record (d : dashboard) : dashboard_row :=
  mkRow 7 "CPU" "cpu" (indented d).

(** Dashboard 7 holds an older version of the CPU document. *)
Definition w_old : World :=
  mkWorld (mkDb [record cpu_old] [mkTag 7 "perf"; mkTag 7 "net"])
          files0 1000.

(** Dashboard 7 holds the CPU document; one of its tags is not in
    [dashboard_tag]. *)
Definition w_same : World :=
  mkWorld (mkDb [record cpu] [mkTag 7 "perf"]) files0 1000.

(** Dashboard 7 has the title CPU and another uid. *)
Definition w_other : World :=
  mkWorld (mkDb [record cpu_other] [mkTag 7 "infra"; mkTag 7 "perf"])
          files0 1000.

(** Only a tag table, for [updateTags]. *)
Definition tags_world (tags : list tag_row) : World :=
  mkWorld (mkDb [] tags) ∅ 0.

(** The record of dashboard 8, holding the Memory document. *)
Definition mem_record : dashboard_row :=
  mkRow 8 "Memory" "memory" (indented mem).

(** Two dashboards whose records, tags included, are those of their
    documents. *)
Definition w_synced : World :=
  mkWorld (mkDb [record cpu; mem_record]
                [mkTag 7 "infra"; mkTag 8 "infra"; mkTag 7 "perf"])
          files0 1000.

(** Two dashboards, the first holding an older version of the CPU
    document. *)
Definition w_two : World :=
  mkWorld (mkDb [record cpu_old; mem_record]
                [mkTag 7 "perf"; mkTag 8 "infra"; mkTag 7 "net"])
          files0 1000.

(** A document that names a tag twice, and a database that holds it. *)
Definition twice : dashboard := mkDashboard "Twice" "tw1ce" ["a"; "a"].

Definition w_twice : World :=
  mkWorld (mkDb [mkRow 3 "Twice" "twice" (indented twice)] [mkTag 3 "a"])
          (list_to_map [("grafana.db", "SQLite format 3");
                        ("twice.json", compact twice)])
          1000.

(** A document that sets its title and no other key, on one line. *)
Definition title_only (t : string) : string :=
  "{" +:+ quoted "title" +:+ ":" +:+ quoted t +:+ "}".

(** [json.Unmarshal] as above, and on the documents that set only the title
    of a document of [docs]: a key that the document does not set leaves the
    field of [into] as it is. *)
Definition Unmarshal_into (docs : list dashboard) (bytes : string)
    (into : dashboard) : option dashboard :=
  match List.find (fun d => bool_decide (bytes = title_only (Title d))) docs
  with
  | Some d => Some (mkDashboard (Title d) (UID into) (Tags into))
  | None => Unmarshal docs bytes into
  end.

(** The database that holds an older version of the CPU dashboard, and among
    the files one that sets only the title CPU. *)
Definition w_stale : World :=
  mkWorld (mkDb [record cpu_old] [mkTag 7 "perf"; mkTag 7 "net"])
          (<["title.json" := title_only "CPU"]> files0) 1000.

(** What [importJsonsByTitle] holds after an item that has imported the
    Memory document. *)
Definition st1 : TitleState := mkTitleState 1 mem mem true.

(** What [importJsonsByTitle] holds when its loop starts. *)
Definition st0 : TitleState :=
  mkTitleState 0 zero_dashboard zero_dashboard false.

End Demo.

Section Program.

(** Go leaves the order in which [range] walks a map unspecified: the
    development is parametric in it. *)
Variable range : forall A : Type, gmap string A -> list (string * A).
Hypothesis range_perm :
  forall (A : Type) (m : gmap string A), range A m ≡ₚ map_to_list m.

(** [ctx.Debug] *)
Variable Debug : Z.

(** ** The tag reconciler *)

(** [m[tag] = struct{}{}] for every tag of a slice. *)
Definition add_keys (m : gmap string unit) (tags : list string)
  : gmap string unit :=
  foldl (fun m tag => <[tag:=tt]> m) m tags.

(** The body of [for tag := range allMap], with the counters [nI], [nD]. *)
Definition sync_tag (did : Z) (info sDBTags sJSONTags : string)
    (jsonMap dbMap : gmap string unit) (n : Z * Z) (tag : string)
  : M (Z * Z) :=
  let j := bool_decide (is_Some (jsonMap !! tag)) in
  let d := bool_decide (is_Some (dbMap !! tag)) in
  nI ← (if j && negb d then
          exec (InsertTag did tag);;
          (if bool_decide (Debug > 0)
           then printf (MsgTagInserted info did sDBTags sJSONTags tag)
           else mret tt);;
          mret (n.1 + 1)
        else mret n.1);
  nD ← (if negb j && d then
          exec (DeleteTag did tag);;
          (if bool_decide (Debug > 0)
           then printf (MsgTagDeleted info did sDBTags sJSONTags tag)
           else mret tt);;
          mret (n.2 + 1)
        else mret n.2);
  mret (nI, nD).

(** [updateTags]: make JSON and SQLite tags match each other.  The slice
    [jsonTags] is sorted in place; the caller sees it sorted afterwards. *)
Definition updateTags (did : Z) (jsonTags : list string) (info : string)
  : M bool :=
  dbTags ← Query (select_terms did);
  let jsonTags := sort_Strings jsonTags in
  let sJSONTags := Join jsonTags "," in
  let sDBTags := Join dbTags "," in
  if bool_decide (sJSONTags = sDBTags) then mret false
  else
    let jsonMap := add_keys ∅ jsonTags in
    let allMap := add_keys ∅ jsonTags in
    let dbMap := add_keys ∅ dbTags in
    let allMap := add_keys allMap dbTags in
    n ← forM (sync_tag did info sDBTags sJSONTags jsonMap dbMap) (0, 0)
             ((range _ allMap).*1);
    printf (MsgTagsUpdated info did sDBTags sJSONTags n.1 n.2);;
    mret true.

(** ** What the program takes from elsewhere *)

(** [lib.ReadFile(ctx, path)]: the bytes of a file, or an error. *)
Variable ReadFile : World -> string -> option string.

(** [json.Unmarshal(bytes, &dash)]: decodes into the dashboard it is given,
    which keeps the fields the document does not set; [None] is an error. *)
Variable Unmarshal : string -> dashboard -> option dashboard.

(** [lib.PrettyPrintJSON]: the canonical pretty-printed form of a document.
    The program only applies it to bytes that [json.Unmarshal] has accepted,
    on which it is taken to succeed. *)
Variable PrettyPrintJSON : string -> string.

(** [lib.Slugify]: 'Name of Dashboard' -> 'name-of-dashboard'. *)
Variable Slugify : string -> string.

(** [lib.ReadFile] followed by [lib.FatalOnError]. *)
Definition readFile (path : string) : M string :=
  fun w => match ReadFile w path with
           | Some bytes => ([], w, Done bytes)
           | None => Fatalf (ErrReadFile path) w
           end.

(** ** The backup of the database file *)

(** [backupFunc]: DB backup func, executed when anything is updated. *)
Definition backupFunc (dbFile contents : string) : M unit :=
  now ← UnixNano;
  let bfn := dbFile +:+ "." +:+ pretty now in
  writeFile Backup bfn contents;;
  printf (MsgBackedUp bfn).

(** [if !backedUp { backupFunc(); backedUp = true }]; returns [backedUp]. *)
Definition backup_once (dbFile contents : string) (backedUp : bool) : M bool :=
  if backedUp then mret true
  else backupFunc dbFile contents;; mret true.

(** ** Import by uid *)

(** One row of [select id, data, title, slug from dashboard] into [dbMap]. *)
Definition load_row (dbMap : gmap string dashboardData) (r : dashboard_row)
  : M (gmap string dashboardData) :=
  match Unmarshal (row_data r) zero_dashboard with
  | None => Fatalf (ErrUnmarshal (row_data r))
  | Some d =>
      if bool_decide (row_title r ≠ Title d)
      then Fatalf (ErrInconsistency (row_title r) (Title d))
      else
        let dd := mkData d (row_id r) (row_title r) (row_slug r)
                         (PrettyPrintJSON (row_data r))
                         ("*" +:+ row_slug r +:+ ".json*") in
        mret (<[UID d:=dd]> dbMap)
  end.

(** One JSON argument into [jsonMap]. *)
Definition load_json (dbMap jsonMap : gmap string dashboardData) (j : string)
  : M (gmap string dashboardData) :=
  bytes ← readFile j;
  match Unmarshal bytes zero_dashboard with
  | None => Fatalf (ErrUnmarshal bytes)
  | Some d =>
      match dbMap !! UID d with
      | None => Fatalf (ErrUIDNotFound j (UID d) (Title d))
      | Some dbDash =>
          match jsonMap !! UID d with
          | Some jsonDash => Fatalf (ErrDuplicateUID j d (dash jsonDash))
          | None =>
              let dd := mkData d (id dbDash) (Title d) (Slugify (Title d))
                               (PrettyPrintJSON bytes) j in
              mret (<[UID d:=dd]> jsonMap)
          end
      end
  end.

(** The body of [for uid, dd := range jsonMap], with the loop's variables
    [backedUp] and [nImp].  [updateTags] has sorted [dd.dash.Tags] in place
    by the time the update is reported. *)
Definition update_one (dbFile contents : string)
    (dbMap : gmap string dashboardData) (st : bool * Z)
    (kv : string * dashboardData) : M (bool * Z) :=
  let uid := kv.1 in
  let dd := kv.2 in
  let ddWas := default zero_dashboardData (dbMap !! uid) in
  (if bool_decide (Debug > 1) then printf (MsgPair dd ddWas) else mret tt);;
  updated ← updateTags (id dd) (Tags (dash dd))
                       (UID (dash dd) +:+ " " +:+ Title (dash dd));
  let dd := mkData (mkDashboard (Title (dash dd)) (UID (dash dd))
                                (sort_Strings (Tags (dash dd))))
                   (id dd) (title dd) (slug dd) (data dd) (fn dd) in
  if bool_decide (Title (dash ddWas) = Title (dash dd))
     && bool_decide (slug ddWas = slug dd)
     && bool_decide (data ddWas = data dd)
  then
    if (updated : bool) then
      backedUp ← backup_once dbFile contents st.1;
      mret (backedUp, st.2 + 1)
    else mret st
  else
    exec (UpdateDashboard (Title (dash dd)) (slug dd) (data dd) (id dd));;
    (if bool_decide (Debug > 0)
     then printf (MsgUpdatedDebug (fn dd) uid updated dd ddWas)
     else printf (MsgUpdated (fn dd) uid updated dd ddWas));;
    writeFile Sidecar (fn dd +:+ ".was") (data ddWas);;
    backedUp ← backup_once dbFile contents st.1;
    mret (backedUp, st.2 + 1).

(** [importJsonsByUID] *)
Definition importJsonsByUID (dbFile : string) (jsons : list string) : M unit :=
  contents ← readFile dbFile;
  rows ← Query select_dashboards;
  dbMap ← forM load_row ∅ rows;
  let nDbMap := Z.of_nat (size dbMap) in
  jsonMap ← forM (load_json dbMap) ∅ jsons;
  let nJSONMap := Z.of_nat (size jsonMap) in
  st ← forM (update_one dbFile contents dbMap) (false, 0) (range _ jsonMap);
  printf (MsgSummary nDbMap nJSONMap st.2).

(** ** Import by title *)

(** The body of [for i, jdata := range jsons]. *)
Definition import_one (dbFile contents : string) (st : TitleState)
    (jdata : string) : M TitleState :=
  let i := st_i st in
  let ary := Split jdata ";"%char in
  let j := default EmptyString (ary !! 0%nat) in
  let l := length ary in
  if bool_decide (l ≠ 1%nat) && bool_decide (l ≠ 3%nat) then Fatalf ErrArity
  else
    printf (MsgImporting (i + 1) j ary);;
    bytes ← readFile j;
    let sBytes := bytes in
    match Unmarshal bytes (st_dash st) with
    | None => Fatalf (ErrUnmarshal bytes)
    | Some dash =>
        let dashTitle :=
          if bool_decide (1 < l)%nat then default EmptyString (ary !! 1%nat)
          else Title dash in
        rows ← Query (select_by_title dashTitle);
        match last rows with
        | None => Fatalf (ErrTitleNotFound dashTitle)
        | Some r =>
            let id := row_id r in
            let data := row_data r in
            let slug := row_slug r in
            match Unmarshal data (st_dash2 st) with
            | None => Fatalf (ErrUnmarshal data)
            | Some dash2 =>
                if bool_decide (UID dash ≠ UID dash2) then
                  printf (MsgUIDMismatch (UID dash) (UID dash2));;
                  mret (mkTitleState (i + 1) dash dash2 (st_backedUp st))
                else
                  let dashSlug :=
                    if bool_decide (2 < l)%nat then default EmptyString (ary !! 2%nat)
                    else slug in
                  exec (UpdateDashboard (Title dash) dashSlug sBytes id);;
                  updated ← updateTags id (Tags dash)
                                       (UID dash +:+ " " +:+ Title dash);
                  let dash := mkDashboard (Title dash) (UID dash)
                                          (sort_Strings (Tags dash)) in
                  (if bool_decide (Debug > 0)
                   then printf (MsgUpdatedByTitleDebug dashTitle (Title dash)
                                  slug dashSlug updated (Tags dash) data sBytes)
                   else printf (MsgUpdatedByTitle dashTitle (Title dash)
                                  slug dashSlug updated (Tags dash)));;
                  writeFile Sidecar (j +:+ ".was") (PrettyPrintJSON data);;
                  backedUp ← backup_once dbFile contents (st_backedUp st);
                  mret (mkTitleState (i + 1) dash dash2 backedUp)
            end
        end
    end.

(** [importJsonsByTitle] *)
Definition importJsonsByTitle (dbFile : string) (jsons : list string)
  : M unit :=
  contents ← readFile dbFile;
  forM (import_one dbFile contents)
       (mkTitleState 0 zero_dashboard zero_dashboard false) jsons;;
  mret tt.

(** ** Export *)

(** [fn := "sqlite/" + slug + ".json"] *)
Definition export_fn (slug : string) : string :=
  "sqlite/" +:+ slug +:+ ".json".

(** The body of [for rows.Next()] in [exportJsons], on one row of [select
    slug, title, data from dashboard]: what has been written and printed so
    far, and the files. *)
Definition export_row (acc : list Exported * gmap string string)
    (r : dashboard_row) : list Exported * gmap string string :=
  let fn := export_fn (row_slug r) in
  let bytes := PrettyPrintJSON (row_data r) in
  (acc.1 ++ [ExportFile fn bytes; ExportLine (row_title r) fn],
   <[fn:=bytes]> acc.2).

(** [exportJsons]: uses dbFile database to dump all dashboards as JSONs.
    The database that [dbFile] names is the one of the world; it is only
    read, by [select slug, title, data from dashboard], which gives the rows
    of the table in their order.  As in the imports, [lib.PrettyPrintJSON]
    is a function of the bytes and writing a file succeeds. *)
Definition exportJsons (dbFile : string) (w : World)
  : list Exported * World :=
  let out := foldl export_row ([], files w) (select_dashboards (db w)) in
  (out.1, mkWorld (db w) out.2 (clock w)).

(** ** Statements of the properties *)

(** The tags of a dashboard in [dashboard_tag], in table order. *)
Definition tags_of (did : Z) (d : Database) : list string :=
  term <$> filter (fun r => dashboard_id r = did) (dashboard_tag d).

(** [ops] holds one operation on dashboard [did] for each tag that
    satisfies [P], and nothing else. *)
Definition one_per_tag (ops : list (Z * string)) (did : Z)
    (P : string -> Prop) : Prop :=
  NoDup ops /\ forall d t, (d, t) ∈ ops <-> d = did /\ P t.

(** Tag symmetric difference: with [A] the JSON tags and [B] the tags of the
    dashboard in the table, one call inserts exactly [A \ B], deletes exactly
    [B \ A], touches no tag of both, returns whether the sorted joined
    strings differ, and a second call with the same [A] runs no statement. *)
Definition symmetric_difference_applied (did : Z) (A : list string)
    (info : string) (w : World) : Prop :=
  let B := tags_of did (db w) in
  let r1 := updateTags did A info w in
  let r2 := updateTags did A info (world r1) in
  one_per_tag (inserts (events r1)) did (fun t => t ∈ A /\ t ∉ B) /\
  one_per_tag (deletes (events r1)) did (fun t => t ∈ B /\ t ∉ A) /\
  (forall t, t ∈ A -> t ∈ B ->
     ((did, t) ∉ inserts (events r1)) /\ ((did, t) ∉ deletes (events r1))) /\
  result r1 = Done (bool_decide (Join (sort_Strings A) ","
                                 ≠ Join (sort_Strings B) ",")) /\
  statements (events r2) = [].

(** [updateTags] reports no change: it returns false and runs neither an
    insert nor a delete. *)
Definition reports_no_change (did : Z) (A : list string) (info : string)
    (w : World) : Prop :=
  let r := updateTags did A info w in
  result r = Done false /\ inserts (events r) = [] /\ deletes (events r) = [].

(** The uid embedded in a record's data. *)
Definition uid_of_row (r : dashboard_row) : option string :=
  UID <$> Unmarshal (row_data r) zero_dashboard.

(** The record that a uid is matched with: the last row of [dashboard], in
    the order of the query, whose data embeds the uid ([dbMap] keeps the last
    row it is given for a uid). *)
Definition matched_record (d : Database) (uid : string) (r : dashboard_row)
  : Prop :=
  last (filter (fun r => uid_of_row r = Some uid) (dashboard_tbl d)) = Some r.

(** The entry of [dbMap] made from a row and its decoded data. *)
Definition record_data (r : dashboard_row) (d : dashboard) : dashboardData :=
  mkData d (row_id r) (row_title r) (row_slug r)
         (PrettyPrintJSON (row_data r)) ("*" +:+ row_slug r +:+ ".json*").

(** The entry of [jsonMap] made from the file [j], its bytes and decoded
    document, and the record it is matched with. *)
Definition json_data (dbDash : dashboardData) (d : dashboard)
    (bytes j : string) : dashboardData :=
  mkData d (id dbDash) (Title d) (Slugify (Title d)) (PrettyPrintJSON bytes) j.

(** The document that an input file holds. *)
Definition document (w : World) (j : string) : option dashboard :=
  match ReadFile w j with
  | Some bytes => Unmarshal bytes zero_dashboard
  | None => None
  end.

(** An item of Title Matching that gets as far as the comparison of the
    uids: the specifier has one or three parts, its file reads as [bytes] and
    decodes to [dash], the lookup title finds the record [r] (the last row
    scanned), and the record's data decodes to [dash2]. *)
Definition resolves (w : World) (st : TitleState) (jdata bytes : string)
    (dash : dashboard) (r : dashboard_row) (dash2 : dashboard) : Prop :=
  let ary := Split jdata ";"%char in
  (length ary = 1 \/ length ary = 3)%nat /\
  ReadFile w (default EmptyString (ary !! 0%nat)) = Some bytes /\
  Unmarshal bytes (st_dash st) = Some dash /\
  last (select_by_title
          (if bool_decide (1 < length ary)%nat then default EmptyString (ary !! 1%nat)
           else Title dash) (db w)) = Some r /\
  Unmarshal (row_data r) (st_dash2 st) = Some dash2.

(** Title mismatch is a soft skip: the item prints its two lines and
    changes nothing (the database and the files are as they were, so no
    sidecar is written), and the loop goes on with the items that follow. *)
Definition skipped_softly (dbFile contents : string) (st : TitleState)
    (jdata : string) (rest : list string) (w : World)
    (dash dash2 : dashboard) : Prop :=
  let ary := Split jdata ";"%char in
  let step := import_one dbFile contents st jdata w in
  events step = [Printf (MsgImporting (st_i st + 1)
                           (default EmptyString (ary !! 0%nat)) ary);
                 Printf (MsgUIDMismatch (UID dash) (UID dash2))] /\
  world step = w /\
  exists st',
    result step = Done st' /\ st_backedUp st' = st_backedUp st /\
    let later := forM (import_one dbFile contents) st' rest w in
    forM (import_one dbFile contents) st (jdata :: rest) w
    = (events step ++ events later, world later, result later).

(** After the item, the rows of record [r] exist and hold [content] in
    their data column. *)
Definition stored_after (dbFile contents : string) (st : TitleState)
    (jdata : string) (w : World) (r : dashboard_row) (content : string)
  : Prop :=
  let step := import_one dbFile contents st jdata w in
  rows_with (row_id r) (db (world step)) ≠ [] /\
  forall r', r' ∈ rows_with (row_id r) (db (world step)) ->
             row_data r' = content.

(** Every row of [dashboard] holds data that decodes, to a document with
    the title of the row's title column. *)
Definition rows_consistent (d : Database) : Prop :=
  Forall (fun r => exists doc, Unmarshal (row_data r) zero_dashboard = Some doc
                               /\ row_title r = Title doc)
         (dashboard_tbl d).

(** The input files hold documents, with uids that differ from file to
    file, each of them the uid of some record. *)
Definition jsons_importable (w : World) (jsons : list string) : Prop :=
  exists docs,
    Forall2 (fun j doc => document w j = Some doc) jsons docs /\
    NoDup (UID <$> docs) /\
    forall doc, doc ∈ docs ->
      exists r, r ∈ dashboard_tbl (db w) /\ uid_of_row r = Some (UID doc).

(** The input file [j] holds what the database holds already: its document
    has the title and the computed slug of the record of its uid, the
    canonical form of its bytes is that of the record's data, and its tags
    are those of the record in [dashboard_tag], in some order. *)
Definition up_to_date (w : World) (j : string) : Prop :=
  exists bytes doc r,
    ReadFile w j = Some bytes /\ Unmarshal bytes zero_dashboard = Some doc /\
    matched_record (db w) (UID doc) r /\
    Title doc = row_title r /\ Slugify (Title doc) = row_slug r /\
    PrettyPrintJSON bytes = PrettyPrintJSON (row_data r) /\
    Tags doc ≡ₚ tags_of (row_id r) (db w).

(** The slug that an item of Title Matching writes to the record [r]: the
    third part of the specifier if there is one, the record's own slug
    otherwise. *)
Definition new_slug (jdata : string) (r : dashboard_row) : string :=
  let ary := Split jdata ";"%char in
  if bool_decide (2 < length ary)%nat then default EmptyString (ary !! 2%nat)
  else row_slug r.

(** The statement that an item of Title Matching runs on the record [r]. *)
Definition title_update (jdata bytes : string) (dash : dashboard)
    (r : dashboard_row) : Sql :=
  UpdateDashboard (Title dash) (new_slug jdata r) bytes (row_id r).

(** The row whose export the file [p] holds in the end: the last row, in
    the order of the query, that is written to [p]. *)
Definition exported_to (d : Database) (p : string) : option dashboard_row :=
  last (filter (fun r => export_fn (row_slug r) = p) (dashboard_tbl d)).

(** A row that a round trip leaves alone: its data decodes, before and
    after canonicalization, to one document; canonicalization does nothing
    to canonical data; the title column is the title of the document and the
    slug is the one computed from it; and the tags of the document are those
    of the row in [dashboard_tag], in some order. *)
Definition canonical_row (d : Database) (r : dashboard_row) : Prop :=
  exists doc,
    Unmarshal (row_data r) zero_dashboard = Some doc /\
    Unmarshal (PrettyPrintJSON (row_data r)) zero_dashboard = Some doc /\
    PrettyPrintJSON (PrettyPrintJSON (row_data r))
    = PrettyPrintJSON (row_data r) /\
    row_title r = Title doc /\ row_slug r = Slugify (Title doc) /\
    Tags doc ≡ₚ tags_of (row_id r) d.

(** A database of such rows, with slugs and uids that differ from row to
    row. *)
Definition exportable (d : Database) : Prop :=
  Forall (canonical_row d) (dashboard_tbl d) /\
  NoDup (row_slug <$> dashboard_tbl d) /\
  NoDup (omap uid_of_row (dashboard_tbl d)).

(** The database after a list of statements, run in order. *)
Definition replay (qs : list Sql) (d : Database) : Database :=
  foldl (fun d q => run_sql q d) d qs.

(** The list [A] holds the tag [t] more than once. *)
Definition repeats (t : string) (A : list string) : Prop :=
  (2 <= length (filter (fun x => x = t) A))%nat.

(** C10 as the claim states it: whenever the JSON list holds twice a tag
    that the table holds for the dashboard, [updateTags] returns true and
    runs neither an insert nor a delete. *)
Definition duplicate_changes_silently (did : Z) (A : list string)
    (info : string) (w : World) : Prop :=
  (exists t, t ∈ tags_of did (db w) /\ repeats t A) ->
  let r := updateTags did A info w in
  result r = Done true /\ inserts (events r) = [] /\ deletes (events r) = [].

(** What the loop of [importJsonsByTitle] holds for the document and for
    the record of an item is what they hold themselves: decoded on their
    own, into fresh dashboards, they give [dash] and [dash2], so that no
    field of either is left over from an earlier item. *)
Definition decoded_alone (bytes : string) (dash : dashboard)
    (r : dashboard_row) (dash2 : dashboard) : Prop :=
  Unmarshal bytes zero_dashboard = Some dash /\
  Unmarshal (row_data r) zero_dashboard = Some dash2.

(** An event of the tag reconciler at work on dashboard [did]: an insert
    or a delete of one of its tags, or a line of output. *)
Definition touches_only (did : Z) (e : Event) : Prop :=
  match e with
  | Exec (InsertTag d _) | Exec (DeleteTag d _) => d = did
  | Exec (UpdateDashboard _ _ _ _) => False
  | WriteFile _ _ _ => False
  | Printf _ => True
  end.

(** [runs m w P]: the run of [m] from [w] satisfies [P]. *)
Definition runs {A} (m : M A) (w : World)
    (P : list Event -> World -> Res A -> Prop) : Prop :=
  P (events (m w)) (world (m w)) (result (m w)).

(** * Properties *)

(** [tauto] abstracts over the whole context; this one first forgets what
    the section assumes about the program's surroundings. *)
Ltac ptauto :=
  try clear Slugify; try clear PrettyPrintJSON; try clear Unmarshal;
  try clear ReadFile; try clear range_perm; try clear range;
  try clear Debug; tauto.

(** ** The order on strings *)

Lemma string_compare_le_trans (s1 s2 s3 : string) :
  (s1 ?= s2)%string ≠ Gt -> (s2 ?= s3)%string ≠ Gt -> (s1 ?= s3)%string ≠ Gt.
Proof.
  revert s2 s3. induction s1 as [|a s1 IH]; intros [|b s2] [|c s3]; simpl;
    try congruence.
  unfold Ascii.compare.
  destruct (N.compare_spec (N_of_ascii a) (N_of_ascii b)) as [Hab|Hab|Hab],
           (N.compare_spec (N_of_ascii b) (N_of_ascii c)) as [Hbc|Hbc|Hbc],
           (N.compare_spec (N_of_ascii a) (N_of_ascii c)) as [Hac|Hac|Hac];
    try congruence; try lia.
  apply IH.
Qed.

#[global] Instance string_le_trans : Transitive string_le.
Proof.
  intros s1 s2 s3. unfold string_le, String.leb. intros H12 H23.
  pose proof (string_compare_le_trans s1 s2 s3) as H.
  destruct (s1 ?= s2)%string, (s2 ?= s3)%string, (s1 ?= s3)%string;
    try done; exfalso; apply H; congruence.
Qed.

#[global] Instance string_le_total : Total string_le.
Proof. intros s1 s2. apply String.leb_total. Qed.

#[global] Instance string_le_antisym : AntiSymm (=) string_le.
Proof. intros s1 s2. apply String.leb_antisym. Qed.

Lemma sort_Strings_perm (l : list string) : sort_Strings l ≡ₚ l.
Proof. apply merge_sort_Permutation. Qed.

Lemma sort_Strings_sorted (l : list string) :
  StronglySorted string_le (sort_Strings l).
Proof. apply StronglySorted_merge_sort; apply _. Qed.

(** The sorted arrangement of a list of strings is unique: whatever
    [sort.Strings] does, this is its result. *)
Lemma sort_Strings_unique (l l' : list string) :
  StronglySorted string_le l' -> l' ≡ₚ l -> l' = sort_Strings l.
Proof.
  intros Hs Hp. apply (StronglySorted_unique string_le); auto.
  - apply sort_Strings_sorted.
  - rewrite Hp. symmetry. apply sort_Strings_perm.
Qed.

Lemma sort_Strings_Permutation (l1 l2 : list string) :
  l1 ≡ₚ l2 -> sort_Strings l1 = sort_Strings l2.
Proof.
  intros Hp. apply sort_Strings_unique.
  - apply sort_Strings_sorted.
  - rewrite sort_Strings_perm. exact Hp.
Qed.

Lemma elem_of_sort_Strings (l : list string) (t : string) :
  t ∈ sort_Strings l <-> t ∈ l.
Proof. by rewrite sort_Strings_perm. Qed.

(** ** Joined strings *)

Lemma Split_without (x : string) (sep : ascii) :
  has_char sep x = false -> Split x sep = [x].
Proof.
  induction x as [|a x IH]; simpl; [done|].
  intros H. apply orb_false_iff in H as [Ha Hx].
  rewrite Ha, (IH Hx). done.
Qed.

Lemma Split_app (x rest : string) (sep : ascii) :
  has_char sep x = false ->
  Split (x +:+ String sep rest) sep = x :: Split rest sep.
Proof.
  induction x as [|a x IH]; intros H.
  - change (EmptyString +:+ String sep rest) with (String sep rest).
    simpl. by rewrite bool_decide_true by done.
  - simpl in H. apply orb_false_iff in H as [Ha Hx].
    change (String a x +:+ String sep rest)
      with (String a (x +:+ String sep rest)).
    simpl. by rewrite Ha, (IH Hx).
Qed.

(** [strings.Split] undoes [strings.Join] on strings without separator. *)
Lemma Split_Join (l : list string) :
  l ≠ [] -> Forall (fun t => has_char ","%char t = false) l ->
  Split (Join l ",") ","%char = l.
Proof.
  induction l as [|x l IH]; [done|]. intros _ Hl.
  apply Forall_cons in Hl as [Hx Hl]. destruct l as [|y l].
  - cbn. by apply Split_without.
  - change (Join (x :: y :: l) ",")
      with (x +:+ String ","%char (Join (y :: l) ",")).
    rewrite Split_app by done. f_equal. by apply IH.
Qed.

Lemma Join_plain_nonempty (x : string) (l : list string) :
  x ≠ EmptyString -> Join (x :: l) "," ≠ EmptyString.
Proof.
  intros Hx. destruct x as [|a x]; [done|]. destruct l as [|y l]; [done|].
  change (Join (String a x :: y :: l) ",")
    with (String a (x +:+ String ","%char (Join (y :: l) ","))).
  done.
Qed.

Lemma Join_plain_inj (l1 l2 : list string) :
  Forall plain_tag l1 -> Forall plain_tag l2 ->
  Join l1 "," = Join l2 "," -> l1 = l2.
Proof.
  intros H1 H2 HJ.
  assert (Hc : forall l, Forall plain_tag l ->
                 Forall (fun t => has_char ","%char t = false) l).
  { intros l Hl. eapply Forall_impl; [exact Hl|]. by intros t [_ ?]. }
  destruct l1 as [|x1 l1], l2 as [|x2 l2]; [done| | |].
  - apply Forall_cons in H2 as [[Hx _] _]. symmetry in HJ.
    by apply Join_plain_nonempty in HJ.
  - apply Forall_cons in H1 as [[Hx _] _].
    by apply Join_plain_nonempty in HJ.
  - rewrite <- (Split_Join (x1 :: l1)), <- (Split_Join (x2 :: l2)), HJ;
      auto.
Qed.

(** For plain tags the sorted joined strings are equal only when the two
    lists hold the same tags. *)
Lemma plain_tags_joined (A B : list string) :
  Forall plain_tag A -> Forall plain_tag B ->
  Join (sort_Strings A) "," = Join (sort_Strings B) "," ->
  forall t, t ∈ A <-> t ∈ B.
Proof.
  intros HA HB HJ t.
  rewrite <- (elem_of_sort_Strings A), <- (elem_of_sort_Strings B).
  rewrite (Join_plain_inj (sort_Strings A) (sort_Strings B)); [done| | |done].
  - by rewrite sort_Strings_perm.
  - by rewrite sort_Strings_perm.
Qed.

Lemma length_app (a b : string) :
  String.length (a +:+ b) = (String.length a + String.length b)%nat.
Proof.
  induction a as [|c a IH]; [done|].
  change (String c a +:+ b) with (String c (a +:+ b)). simpl. by rewrite IH.
Qed.

Lemma length_Join (l : list string) :
  l ≠ [] -> S (String.length (Join l ",")) = joined_weight l.
Proof.
  induction l as [|x l IH]; [done|]. intros _. destruct l as [|y l].
  - unfold joined_weight. simpl. lia.
  - change (Join (x :: y :: l) ",")
      with (x +:+ String ","%char (Join (y :: l) ",")).
    rewrite length_app. specialize (IH ltac:(done)).
    remember (Join (y :: l) ",") as rest. unfold joined_weight in *.
    simpl in *. lia.
Qed.

Lemma joined_weight_perm (l k : list string) :
  l ≡ₚ k -> joined_weight l = joined_weight k.
Proof.
  unfold joined_weight.
  induction 1 as [|x l k _ IH|x y l|l k m _ IH1 _ IH2].
  - done.
  - rewrite !fmap_cons. simpl. by rewrite IH.
  - rewrite !fmap_cons. simpl. lia.
  - congruence.
Qed.

Lemma joined_weight_app (l k : list string) :
  joined_weight (l ++ k) = (joined_weight l + joined_weight k)%nat.
Proof.
  unfold joined_weight. induction l as [|x l IH]; [done|].
  change ((x :: l) ++ k) with (x :: (l ++ k)). rewrite !fmap_cons.
  simpl. rewrite IH. lia.
Qed.

(** A list with a repeated tag and a list without, holding the same tags,
    have different joined strings: the first is longer. *)
Lemma repeated_tag_joins_differ (A B : list string) :
  NoDup B -> ~ NoDup A -> (forall t, t ∈ A <-> t ∈ B) ->
  Join A "," ≠ Join B ",".
Proof.
  intros HB HA Hsame HJ.
  assert (HAne : A ≠ []) by (intros ->; apply HA; constructor).
  assert (HBne : B ≠ []).
  { intros ->. destruct A as [|x A]; [done|].
    by apply (not_elem_of_nil x), Hsame; left. }
  destruct (submseteq_Permutation B A) as [k Hk].
  { apply NoDup_submseteq; [done|]. intros t. apply Hsame. }
  assert (Hkne : k ≠ []).
  { intros ->. rewrite app_nil_r in Hk. apply HA. by rewrite Hk. }
  pose proof (length_Join A HAne) as HlA.
  pose proof (length_Join B HBne) as HlB.
  rewrite HJ, HlB, (joined_weight_perm _ _ Hk), joined_weight_app in HlA.
  destruct k as [|y k]; [done|]. unfold joined_weight in HlA at 3.
  simpl in HlA. lia.
Qed.

Lemma select_terms_tags_of (did : Z) (d : Database) :
  select_terms did d = sort_Strings (tags_of did d).
Proof. reflexivity. Qed.

(** ** Reasoning about runs *)

Lemma runs_bind {A B} (m : M A) (f : A -> M B) (w : World) P :
  runs m w (fun e1 w1 r1 =>
    match r1 with
    | Done a => runs (f a) w1 (fun e2 w2 r2 => P (e1 ++ e2) w2 r2)
    | Fatal err => P e1 w1 (Fatal err)
    end) ->
  runs (m ≫= f) w P.
Proof.
  unfold runs, events, world, result, mbind, M_bind.
  destruct (m w) as [[e1 w1] [a|err]]; simpl; [|done].
  destruct (f a w1) as [[e2 w2] r2]; simpl. done.
Qed.

(** Unfolds a run of the primitive actions. *)
Ltac run_simpl :=
  cbv [runs events world result mbind M_bind mret M_ret
       exec printf writeFile Query Fatalf UnixNano];
  simpl.

Lemma runs_weaken {A} (m : M A) (w : World) (P Q : _ -> _ -> _ -> Prop) :
  runs m w P -> (forall e w' r, P e w' r -> Q e w' r) -> runs m w Q.
Proof. unfold runs. auto. Qed.

(** A loop keeps an invariant [Inv] of the events emitted so far, the
    world, and the loop's variables; [Stop] is what holds when it dies. *)
Lemma runs_forM {S X} (body : S -> X -> M S) (l : list X)
    (Inv : list Event -> World -> S -> Prop)
    (Stop : list Event -> World -> Error -> Prop) :
  (forall e w s x, x ∈ l -> Inv e w s ->
     runs (body s x) w (fun e' w' r =>
       match r with
       | Done s' => Inv (e ++ e') w' s'
       | Fatal err => Stop (e ++ e') w' err
       end)) ->
  forall e w s, Inv e w s ->
    runs (forM body s l) w (fun e' w' r =>
      match r with
      | Done s' => Inv (e ++ e') w' s'
      | Fatal err => Stop (e ++ e') w' err
      end).
Proof.
  induction l as [|x l IH]; intros Hbody e w s HI.
  - unfold runs; simpl. by rewrite app_nil_r.
  - simpl. apply runs_bind.
    eapply runs_weaken; [apply (Hbody e w s x); [left|done]|].
    intros e1 w1 [s1|err] H1; [|done].
    eapply runs_weaken.
    + apply (IH (fun e w s x Hx => Hbody e w s x (list_elem_of_further _ _ _ Hx))
                (e ++ e1) w1 s1 H1).
    + intros e2 w2 [s2|err] H2; by rewrite app_assoc.
Qed.

Lemma statements_app (e1 e2 : list Event) :
  statements (e1 ++ e2) = statements e1 ++ statements e2.
Proof. apply omap_app. Qed.

Lemma inserts_app (e1 e2 : list Event) :
  inserts (e1 ++ e2) = inserts e1 ++ inserts e2.
Proof. apply omap_app. Qed.

Lemma deletes_app (e1 e2 : list Event) :
  deletes (e1 ++ e2) = deletes e1 ++ deletes e2.
Proof. apply omap_app. Qed.

(** ** The tag reconciler *)

Lemma lookup_add_keys (m : gmap string unit) (l : list string) (t : string) :
  is_Some (add_keys m l !! t) <-> is_Some (m !! t) \/ t ∈ l.
Proof.
  revert m. induction l as [|x l IH]; intros m; simpl.
  - rewrite elem_of_nil. ptauto.
  - rewrite IH, lookup_insert_is_Some, elem_of_cons.
    destruct (decide (x = t)) as [->|Hne].
    + split; intros _; [right; by left|left; by left].
    + split.
      * intros [[?|[_ ?]]|?]; [done|by left|right; by right].
      * intros [?|[?|?]]; [left; by right|by subst|by right].
Qed.

Lemma lookup_add_keys_empty (l : list string) (t : string) :
  is_Some (add_keys ∅ l !! t) <-> t ∈ l.
Proof.
  rewrite lookup_add_keys, lookup_empty. split; [|auto].
  intros [[? ?]|?]; done.
Qed.

Lemma range_keys_NoDup {A} (m : gmap string A) : NoDup (range A m).*1.
Proof using range_perm. rewrite (range_perm A m). apply NoDup_fst_map_to_list. Qed.

Lemma elem_of_range_keys {A} (m : gmap string A) (k : string) :
  k ∈ (range A m).*1 <-> is_Some (m !! k).
Proof using range_perm.
  rewrite (range_perm A m), list_elem_of_fmap. split.
  - intros [[k' a] [-> H]]. apply elem_of_map_to_list in H. by exists a.
  - intros [a H]. exists (k, a). split; [done|]. by apply elem_of_map_to_list.
Qed.

Lemma elem_of_tags_of (did : Z) (d : Database) (t : string) :
  t ∈ tags_of did d <-> mkTag did t ∈ dashboard_tag d.
Proof.
  unfold tags_of. rewrite list_elem_of_fmap. split.
  - intros [[d' t'] [-> H]]. apply list_elem_of_filter in H as [Hd H].
    simpl in *. by subst.
  - intros H. exists (mkTag did t). split; [done|].
    by apply list_elem_of_filter.
Qed.

Lemma tags_of_insert (did : Z) (tag : string) (d : Database) :
  tags_of did (run_sql (InsertTag did tag) d) = tags_of did d ++ [tag].
Proof.
  unfold tags_of; simpl. rewrite filter_app, fmap_app. f_equal.
  rewrite filter_cons_True by done. done.
Qed.

Lemma tags_of_insert_ne (did did' : Z) (tag : string) (d : Database) :
  did' ≠ did ->
  tags_of did' (run_sql (InsertTag did tag) d) = tags_of did' d.
Proof.
  intros Hne. unfold tags_of; simpl. rewrite filter_app, fmap_app.
  rewrite filter_cons_False by (simpl; congruence). simpl.
  by rewrite app_nil_r.
Qed.

Lemma elem_of_tags_of_delete (did : Z) (tag t : string) (d : Database) :
  t ∈ tags_of did (run_sql (DeleteTag did tag) d)
  <-> t ∈ tags_of did d /\ t ≠ tag.
Proof.
  rewrite !elem_of_tags_of. simpl. rewrite list_elem_of_filter.
  unfold is_tag; simpl. split.
  - intros [Hn H]. split; [done|]. intros ->. by apply Hn.
  - intros [H Hn]. split; [|done]. intros [_ ?]. done.
Qed.

Lemma tags_of_delete_ne (did did' : Z) (tag : string) (d : Database) :
  did' ≠ did ->
  tags_of did' (run_sql (DeleteTag did tag) d) = tags_of did' d.
Proof.
  intros Hne. unfold tags_of; simpl. f_equal.
  induction (dashboard_tag d) as [|r l IH]; [done|].
  destruct (decide (is_tag did tag r)) as [Ht|Ht].
  - rewrite (filter_cons_False (fun r => ~ is_tag did tag r)) by ptauto.
    rewrite IH. rewrite filter_cons_False; [done|].
    destruct Ht as [Ht _]. congruence.
  - rewrite (filter_cons_True (fun r => ~ is_tag did tag r)) by done.
    destruct (decide (dashboard_id r = did')).
    + rewrite !filter_cons_True by done. by rewrite IH.
    + rewrite !filter_cons_False by done. done.
Qed.

Lemma sync_tag_step (did : Z) (info sDB sJSON : string)
    (jsonMap dbMap : gmap string unit) (n : Z * Z) (tag : string) (w : World) :
  let J := is_Some (jsonMap !! tag) in
  let D := is_Some (dbMap !! tag) in
  runs (sync_tag did info sDB sJSON jsonMap dbMap n tag) w (fun e w' r =>
    (exists n', r = Done n') /\
    inserts e = (if decide (J /\ ~ D) then [(did, tag)] else []) /\
    deletes e = (if decide (~ J /\ D) then [(did, tag)] else []) /\
    Forall (touches_only did) e /\
    dashboard_tbl (db w') = dashboard_tbl (db w) /\
    files w' = files w /\ clock w' = clock w /\
    (forall t, t ∈ tags_of did (db w') <->
       (t ∈ tags_of did (db w) /\ ~ (t = tag /\ ~ J /\ D))
       \/ (t = tag /\ J /\ ~ D)) /\
    (forall d', d' ≠ did -> tags_of d' (db w') = tags_of d' (db w))).
Proof.
  intros J D. unfold runs, sync_tag. fold J D.
  destruct (decide J) as [HJ|HJ], (decide D) as [HD|HD];
    rewrite ?(bool_decide_true _ HJ), ?(bool_decide_false _ HJ),
            ?(bool_decide_true _ HD), ?(bool_decide_false _ HD); simpl.
  - (* in both maps: nothing to do *)
    rewrite decide_False, decide_False by ptauto.
    repeat split; eauto; ptauto.
  - (* in JSON only: insert *)
    rewrite decide_True, decide_False by ptauto.
    destruct (bool_decide (Debug > 0)); run_simpl;
      change (mkDb _ _) with (run_sql (InsertTag did tag) (db w));
      (split_and!;
       [eauto | done | done | repeat constructor | done | done | done
       | intros t; rewrite tags_of_insert, elem_of_app,
           list_elem_of_singleton; ptauto
       | intros d' Hd; by apply tags_of_insert_ne]).
  - (* in the table only: delete *)
    rewrite decide_False, decide_True by ptauto.
    destruct (bool_decide (Debug > 0)); run_simpl;
      change (mkDb _ _) with (run_sql (DeleteTag did tag) (db w));
      (split_and!;
       [eauto | done | done | repeat constructor | done | done | done
       | intros t; rewrite elem_of_tags_of_delete; ptauto
       | intros d' Hd; by apply tags_of_delete_ne]).
  - rewrite decide_False, decide_False by ptauto.
    repeat split; eauto; ptauto.
Qed.

Lemma sync_loop (did : Z) (info sDB sJSON : string)
    (jsonMap dbMap : gmap string unit) (ks : list string) :
  forall (n : Z * Z) (w : World),
  runs (forM (sync_tag did info sDB sJSON jsonMap dbMap) n ks) w (fun e w' r =>
    (exists n', r = Done n') /\
    inserts e = pair did <$>
      filter (fun t => is_Some (jsonMap !! t) /\ ~ is_Some (dbMap !! t)) ks /\
    deletes e = pair did <$>
      filter (fun t => ~ is_Some (jsonMap !! t) /\ is_Some (dbMap !! t)) ks /\
    Forall (touches_only did) e /\
    dashboard_tbl (db w') = dashboard_tbl (db w) /\
    files w' = files w /\ clock w' = clock w /\
    (forall t, t ∈ tags_of did (db w') <->
       (t ∈ tags_of did (db w)
        /\ ~ (t ∈ ks /\ ~ is_Some (jsonMap !! t) /\ is_Some (dbMap !! t)))
       \/ (t ∈ ks /\ is_Some (jsonMap !! t) /\ ~ is_Some (dbMap !! t))) /\
    (forall d', d' ≠ did -> tags_of d' (db w') = tags_of d' (db w))).
Proof.
  induction ks as [|k ks IH]; intros n w.
  - unfold runs; simpl. split_and!; eauto.
    intros t. rewrite elem_of_nil. ptauto.
  - simpl. apply runs_bind.
    eapply runs_weaken; [apply sync_tag_step|]. simpl.
    intros e1 w1 r1 ([n1 ->] & Hi1 & Hd1 & Hf1 & Ht1 & Hfs1 & Hc1 & Hm1 & Ho1).
    eapply runs_weaken; [apply IH|]. simpl.
    intros e2 w2 r2 (Hr2 & Hi2 & Hd2 & Hf2 & Ht2 & Hfs2 & Hc2 & Hm2 & Ho2).
    split_and!.
    + done.
    + rewrite inserts_app, Hi1, Hi2, filter_cons.
      repeat case_decide; done || ptauto.
    + rewrite deletes_app, Hd1, Hd2, filter_cons.
      repeat case_decide; done || ptauto.
    + by apply Forall_app.
    + congruence.
    + congruence.
    + congruence.
    + intros t. rewrite Hm2, Hm1, elem_of_cons.
      destruct (decide (t = k)) as [->|Hne];
        destruct (decide (is_Some (jsonMap !! k)));
        destruct (decide (is_Some (dbMap !! k))); ptauto.
    + intros d' Hd'. rewrite Ho2, Ho1; done.
Qed.

Lemma one_per_tag_filter (did : Z) (ks : list string) (P Q : string -> Prop)
    `{forall t, Decision (P t)} :
  NoDup ks -> (forall t, P t /\ t ∈ ks <-> Q t) ->
  one_per_tag (pair did <$> filter P ks) did Q.
Proof.
  intros Hnd HPQ. split.
  - apply NoDup_fmap_2; [|by apply NoDup_filter]. by intros ?? [= ->].
  - intros d t. rewrite list_elem_of_fmap. split.
    + intros [t' [[= -> ->] Ht]]. apply list_elem_of_filter in Ht.
      split; [done|]. by apply HPQ.
    + intros [-> HQ]. exists t. split; [done|].
      apply list_elem_of_filter. by apply HPQ.
Qed.

(** What one call of [updateTags] does. *)
Lemma updateTags_spec (did : Z) (A : list string) (info : string) (w : World) :
  let B := tags_of did (db w) in
  let differ := Join (sort_Strings A) "," ≠ Join (sort_Strings B) "," in
  runs (updateTags did A info) w (fun e w' r =>
    r = Done (bool_decide differ) /\
    (~ differ -> e = [] /\ w' = w) /\
    (differ ->
       one_per_tag (inserts e) did (fun t => t ∈ A /\ t ∉ B) /\
       one_per_tag (deletes e) did (fun t => t ∈ B /\ t ∉ A) /\
       (forall t, t ∈ tags_of did (db w') <-> t ∈ A) /\
       exists e0 sDB sJSON nI nD,
         e = e0 ++ [Printf (MsgTagsUpdated info did sDB sJSON nI nD)]) /\
    Forall (touches_only did) e /\
    dashboard_tbl (db w') = dashboard_tbl (db w) /\
    files w' = files w /\ clock w' = clock w /\
    (forall d', d' ≠ did -> tags_of d' (db w') = tags_of d' (db w))).
Proof using range_perm.
  intros B differ. unfold updateTags. apply runs_bind.
  unfold runs at 1, Query; simpl. rewrite select_terms_tags_of. fold B.
  destruct (decide differ) as [Hd|Hd].
  - rewrite (bool_decide_true _ Hd), bool_decide_false by done.
    apply runs_bind. eapply runs_weaken; [apply sync_loop|]. simpl.
    intros e1 w1 r1 ([n1 ->] & Hi & Hdel & Hf & Ht & Hfs & Hc & Hm & Ho).
    run_simpl.
    assert (Hks : forall t,
      t ∈ (range unit (add_keys (add_keys ∅ (sort_Strings A))
                                (sort_Strings B))).*1 <-> t ∈ A \/ t ∈ B).
    { intros t. rewrite elem_of_range_keys, lookup_add_keys,
        lookup_add_keys_empty, !elem_of_sort_Strings. done. }
    assert (HJ : forall t,
      is_Some (add_keys ∅ (sort_Strings A) !! t) <-> t ∈ A).
    { intros t. by rewrite lookup_add_keys_empty, elem_of_sort_Strings. }
    assert (HD : forall t,
      is_Some (add_keys ∅ (sort_Strings B) !! t) <-> t ∈ B).
    { intros t. by rewrite lookup_add_keys_empty, elem_of_sort_Strings. }
    split_and!; try done.
    + intros _. split_and!.
      * rewrite inserts_app, Hi; simpl. rewrite app_nil_r.
        apply one_per_tag_filter; [apply range_keys_NoDup|].
        intros t. rewrite Hks, HJ, HD. ptauto.
      * rewrite deletes_app, Hdel; simpl. rewrite app_nil_r.
        apply one_per_tag_filter; [apply range_keys_NoDup|].
        intros t. rewrite Hks, HJ, HD. ptauto.
      * intros t. rewrite Hm, Hks, HJ, HD.
        destruct (decide (t ∈ A)), (decide (t ∈ B)); ptauto.
      * eauto 10.
    + apply Forall_app_2; [done | by repeat constructor].
  - rewrite (bool_decide_false _ Hd), bool_decide_true
      by (by destruct (decide (Join (sort_Strings A) ","
                               = Join (sort_Strings B) ",")); [|exfalso; auto]).
    run_simpl. split_and!; done.
Qed.

Lemma no_statements (did : Z) (e : list Event) :
  Forall (touches_only did) e -> inserts e = [] -> deletes e = [] ->
  statements e = [].
Proof.
  induction 1 as [|ev e Hev _ IH]; [done|].
  destruct ev as [[d t|d t|? ? ? ?]| |]; simpl in *; try done; auto.
Qed.

Lemma one_per_tag_nil (ops : list (Z * string)) (did : Z)
    (P : string -> Prop) :
  one_per_tag ops did P -> (forall t, ~ P t) -> ops = [].
Proof.
  intros [_ Hm] HP. destruct ops as [|[d t] ops]; [done|].
  exfalso. apply (HP t). apply (Hm d t). left.
Qed.

Lemma nil_one_per_tag (did : Z) (P : string -> Prop) :
  (forall t, ~ P t) -> one_per_tag [] did P.
Proof.
  intros HP. split; [constructor|]. intros d t. rewrite elem_of_nil.
  split; [done|]. intros [_ Ht]. by apply (HP t).
Qed.

(** When the table already holds the JSON tags, as sets, [updateTags] runs
    no statement, whatever it returns. *)
Lemma updateTags_same_set (did : Z) (A : list string) (info : string)
    (w : World) :
  (forall t, t ∈ A <-> t ∈ tags_of did (db w)) ->
  statements (events (updateTags did A info w)) = [].
Proof using range_perm.
  intros Hsame.
  destruct (updateTags_spec did A info w) as (_ & Hfast & Hslow & Hf & _).
  destruct (decide (Join (sort_Strings A) ","
                    ≠ Join (sort_Strings (tags_of did (db w))) ","))
    as [Hd|Hd].
  - destruct (Hslow Hd) as (Hi & Hdel & _).
    apply (no_statements did); [done| |].
    + eapply one_per_tag_nil; [exact Hi|]. intros t [? Hn].
      apply Hn. by apply Hsame.
    + eapply one_per_tag_nil; [exact Hdel|]. intros t [? Hn].
      apply Hn. by apply Hsame.
  - destruct (Hfast Hd) as [-> _]. done.
Qed.

(** C1 (as amended): for tag lists [A] (JSON) and [B] (table) whose sorted
    comma-joined strings are equal only when [A] and [B] hold the same tags,
    one call of [updateTags] runs exactly one insert per tag of [A \ B],
    exactly one delete per tag of [B \ A], touches no tag of both, and returns
    true iff the sorted joined strings differ; a second call with the same
    [A] on the updated table runs no statement. *)
Theorem updateTags_symmetric_difference (did : Z) (A : list string)
    (info : string) (w : World) :
  (Join (sort_Strings A) "," = Join (sort_Strings (tags_of did (db w))) "," ->
   forall t, t ∈ A <-> t ∈ tags_of did (db w)) ->
  symmetric_difference_applied did A info w.
Proof using range_perm.
  intros Hinj. unfold symmetric_difference_applied.
  destruct (updateTags_spec did A info w)
    as (Hr & Hfast & Hslow & Hf & _).
  set (B := tags_of did (db w)) in *.
  set (r1 := updateTags did A info w) in *.
  destruct (decide (Join (sort_Strings A) "," ≠ Join (sort_Strings B) ","))
    as [Hd|Hd].
  - destruct (Hslow Hd) as (Hi & Hdel & Hm & _). split_and!; try done.
    + intros t HA HB. split.
      * intros Hin. apply Hi in Hin. ptauto.
      * intros Hin. apply Hdel in Hin. ptauto.
    + apply updateTags_same_set. intros t. by rewrite Hm.
  - destruct (Hfast Hd) as [He Hw].
    assert (Hsame : forall t, t ∈ A <-> t ∈ B).
    { apply Hinj. by destruct (decide (Join (sort_Strings A) ","
                                       = Join (sort_Strings B) ",")). }
    rewrite He, Hw. split_and!; try done.
    + apply nil_one_per_tag. intros t [? Hn]. apply Hn. by apply Hsame.
    + apply nil_one_per_tag. intros t [? Hn]. apply Hn. by apply Hsame.
    + intros t _ _. simpl. rewrite elem_of_nil. ptauto.
    + by apply updateTags_same_set.
Qed.

(** C4 (as amended): tag-list equality in [updateTags] is order-insensitive
    (and exact in letter case): whenever the JSON tags are a permutation of
    the tags of the dashboard in the table, [updateTags] returns false and
    runs neither an insert nor a delete. *)
Theorem updateTags_order_insensitive (did : Z) (A : list string)
    (info : string) (w : World) :
  A ≡ₚ tags_of did (db w) -> reports_no_change did A info w.
Proof using range_perm.
  intros Hp. unfold reports_no_change.
  destruct (updateTags_spec did A info w) as (Hr & Hfast & _).
  rewrite (sort_Strings_Permutation _ _ Hp) in Hr, Hfast.
  destruct Hfast as [He _]; [by intros H; apply H|].
  rewrite Hr, He. split; [|done].
  by rewrite bool_decide_false by (by intros H; apply H).
Qed.

(** ** Events and the backup *)

Lemma backups_app (e1 e2 : list Event) :
  backups (e1 ++ e2) = backups e1 ++ backups e2.
Proof. apply omap_app. Qed.

Lemma sidecars_app (e1 e2 : list Event) :
  sidecars (e1 ++ e2) = sidecars e1 ++ sidecars e2.
Proof. apply omap_app. Qed.

Lemma changed_app (e1 e2 : list Event) :
  changed (e1 ++ e2) = changed e1 || changed e2.
Proof. apply existsb_app. Qed.

Lemma unchanged_statements (e : list Event) :
  changed e = false -> statements e = [].
Proof.
  induction e as [|ev e IH]; [done|]. simpl. intros H.
  apply orb_false_iff in H as [H1 H]. destruct ev; simpl in *; auto; done.
Qed.

Lemma unchanged_on_dashboard (did : Z) (e : list Event) :
  changed e = false -> Forall (on_dashboard did) e.
Proof.
  induction e as [|ev e IH]; [done|]. simpl. intros H.
  apply orb_false_iff in H as [H1 H]. constructor; [|auto].
  destruct ev; simpl in *; done.
Qed.

Lemma touches_only_on_dashboard (did : Z) (e : list Event) :
  Forall (touches_only did) e ->
  Forall (on_dashboard did) e /\ backups e = [] /\ sidecars e = [].
Proof.
  induction 1 as [|ev e Hev _ (IH1 & IH2 & IH3)]; [done|].
  destruct ev as [[d t|d t|? ? ? ?]|a ? ?|]; simpl in *; try done;
    (split; [by constructor|done]).
Qed.

Lemma backup_shape_app_quiet (contents : string) (e1 e2 : list Event) :
  backup_shape contents e1 -> changed e2 = false -> backups e2 = [] ->
  backup_shape contents (e1 ++ e2).
Proof.
  intros [[Hc Hb]|(pre & path & post & did & -> & Hpre & Hpost & Hc & Hf)]
    Hc2 Hb2.
  - left. by rewrite changed_app, backups_app, Hc, Hb, Hc2, Hb2.
  - right. exists pre, path, (post ++ e2), did. split_and!; try done.
    + by rewrite <- app_assoc.
    + by rewrite backups_app, Hpost, Hb2.
Qed.

Lemma updates_app (e1 e2 : list Event) :
  updates (e1 ++ e2) = updates e1 ++ updates e2.
Proof. apply omap_app. Qed.

Lemma backup_inv_shape (contents : string) (b : bool) (e : list Event) :
  backup_inv contents b e -> backup_shape contents e.
Proof. destruct b; [by right|by left]. Qed.

Lemma backup_inv_step (contents : string) (did : Z) (b b' : bool)
    (e e' : list Event) :
  backup_inv contents b e -> item_shape contents did b e' b' ->
  backup_inv contents b' (e ++ e').
Proof.
  intros Hinv [Hon Hitem]. destruct b; simpl in *.
  - destruct Hitem as [-> Hb].
    destruct Hinv as (pre & path & post & d & -> & Hpre & Hpost & Hc & Hf).
    exists pre, path, (post ++ e'), d. split_and!; try done.
    + by rewrite <- app_assoc.
    + by rewrite backups_app, Hpost, Hb.
  - destruct Hinv as [Hc Hb].
    destruct Hitem as [(-> & Hc' & Hb')|(-> & pre & path & -> & Hb' & Hc')].
    + simpl. by rewrite changed_app, backups_app, Hc, Hb, Hc', Hb'.
    + exists (e ++ pre), path, [Printf (MsgBackedUp path)], did.
      split_and!.
      * by rewrite <- app_assoc.
      * by rewrite backups_app, Hb, Hb'.
      * done.
      * by rewrite changed_app, Hc', orb_true_r.
      * apply Forall_app. split; [by apply unchanged_on_dashboard|].
        apply Forall_app in Hon. ptauto.
Qed.

Lemma backup_once_spec (dbFile contents : string) (b : bool) (w : World) :
  runs (backup_once dbFile contents b) w (fun e w' r =>
    r = Done true /\ db w' = db w /\
    (if b then e = [] /\ files w' = files w
     else exists path,
       e = [WriteFile Backup path contents; Printf (MsgBackedUp path)] /\
       files w' = <[path:=contents]> (files w))).
Proof.
  unfold backup_once, backupFunc. destruct b; run_simpl; [done|].
  split_and!; eauto.
Qed.

Lemma rows_with_update_ne (id0 i : Z) (t sl dt : string) (d : Database) :
  id0 ≠ i ->
  rows_with id0 (run_sql (UpdateDashboard t sl dt i) d) = rows_with id0 d.
Proof.
  intros Hne. unfold rows_with; simpl.
  induction (dashboard_tbl d) as [|r l IH]; [done|].
  rewrite fmap_cons, !filter_cons, IH. unfold set_row.
  case_bool_decide as Hr; simpl; [|done].
  rewrite !decide_False by congruence. done.
Qed.

Lemma rows_with_tbl (id0 : Z) (d d' : Database) :
  dashboard_tbl d' = dashboard_tbl d -> rows_with id0 d' = rows_with id0 d.
Proof. unfold rows_with. by intros ->. Qed.

(** [updateTags] as the import loops see it. *)
Lemma updateTags_run (did : Z) (A : list string) (info : string) (w : World) :
  exists e w' u,
    updateTags did A info w = (e, w', Done u) /\
    Forall (on_dashboard did) e /\ backups e = [] /\ sidecars e = [] /\
    updates e = [] /\ changed e = u /\
    dashboard_tbl (db w') = dashboard_tbl (db w) /\
    files w' = files w /\ clock w' = clock w.
Proof using range_perm.
  pose proof (updateTags_spec did A info w) as HT. unfold runs in HT.
  destruct (updateTags did A info w) as [[e w'] r].
  unfold events, world, result in HT. simpl in HT.
  destruct HT as (-> & Hfast & Hslow & Hf & Htbl & Hfiles & Hclock & _).
  eexists _, _, _. split; [done|].
  destruct (touches_only_on_dashboard _ _ Hf) as (Hon & Hbk & Hsc).
  split_and!; try done.
  - clear -Hf. induction Hf as [|ev e' Hev _ IH]; [done|].
    destruct ev as [[| |]| |]; simpl in *; try done; auto.
  - case_bool_decide as Hd.
    + destruct (Hslow Hd) as (_ & _ & _ & e0 & ? & ? & ? & ? & ->).
      rewrite changed_app. simpl. by rewrite orb_true_r.
    + destruct Hfast as [-> _]; [by intros H; apply H|done].
Qed.

Lemma item_shape_changed (contents : string) (did : Z) (pre : list Event)
    (path : string) :
  Forall (on_dashboard did) pre -> backups pre = [] -> changed pre = true ->
  item_shape contents did false
    (pre ++ [WriteFile Backup path contents] ++ [Printf (MsgBackedUp path)])
    true.
Proof.
  intros Hon Hbk Hch. split.
  - apply Forall_app_2; [done|]. by repeat constructor.
  - right. split; [done|]. by exists pre, path.
Qed.

Lemma item_shape_unchanged (contents : string) (did : Z) (e : list Event) :
  changed e = false -> backups e = [] -> item_shape contents did false e false.
Proof.
  intros Hch Hbk. split; [by apply unchanged_on_dashboard|]. by left.
Qed.

Lemma item_shape_after (contents : string) (did : Z) (e : list Event) :
  Forall (on_dashboard did) e -> backups e = [] ->
  item_shape contents did true e true.
Proof. intros Hon Hbk. by split. Qed.

(** Splits a property of a list of events built with [++] into its pieces. *)
Ltac events_simpl :=
  rewrite ?Forall_app, ?backups_app, ?changed_app, ?updates_app,
          ?sidecars_app, ?statements_app;
  simpl.

(** One iteration of the update loop of [importJsonsByUID]. *)
Lemma update_one_spec (dbFile contents : string)
    (dbMap : gmap string dashboardData) (b : bool) (n : Z) (uid : string)
    (dd : dashboardData) (w : World) :
  let ddWas := default zero_dashboardData (dbMap !! uid) in
  let same := Title (dash ddWas) = Title (dash dd) /\ slug ddWas = slug dd
              /\ data ddWas = data dd in
  runs (update_one dbFile contents dbMap (b, n) (uid, dd)) w (fun e w' r =>
    (exists b' n', r = Done (b', n') /\ item_shape contents (id dd) b e b') /\
    (same -> updates e = [] /\ dashboard_tbl (db w') = dashboard_tbl (db w)) /\
    (forall id0, id0 ≠ id dd ->
       rows_with id0 (db w') = rows_with id0 (db w) /\ id0 ∉ updates e)).
Proof using range_perm.
  intros ddWas same. unfold update_one, runs. simpl. fold ddWas.
  destruct (updateTags_run (id dd) (Tags (dash dd))
              (UID (dash dd) +:+ " " +:+ Title (dash dd)) w)
    as (e1 & w1 & u & HT & Hon & Hbk & Hsc & Hup & Hch & Htbl & Hfs & Hck).
  assert (Hsame : bool_decide (Title (dash ddWas) = Title (dash dd))
                  && bool_decide (slug ddWas = slug dd)
                  && bool_decide (data ddWas = data dd) = bool_decide same).
  { unfold same. by rewrite !bool_decide_and, andb_assoc. }
  rewrite Hsame. clear Hsame.
  destruct (bool_decide (Debug > 1));
    cbv [mbind M_bind mret M_ret printf]; rewrite HT; clear HT.
  all: destruct (decide same) as [Hs|Hs];
    [rewrite (bool_decide_true _ Hs)|rewrite (bool_decide_false _ Hs)].
  all: destruct u, b, (bool_decide (Debug > 0)).
  all: cbv [events world result mbind M_bind mret M_ret printf exec writeFile
            UnixNano backup_once backupFunc]; cbn [fst snd db files clock].
  all: split_and!.
  all: try (intros; contradiction).
  all: try (eexists _, _; split; [reflexivity|]).
  all: try (intros _; split; [events_simpl; by rewrite Hup|done]).
  all: try (intros id0 Hid0; split;
            [rewrite ?rows_with_update_ne by done; by apply rows_with_tbl
            |events_simpl; rewrite Hup; simpl;
             rewrite ?elem_of_cons, elem_of_nil; ptauto]).
  all: try (apply item_shape_unchanged; events_simpl;
            by rewrite ?Hch, ?Hbk).
  all: try (apply item_shape_after;
            [events_simpl; split_and?; by repeat constructor
            |events_simpl; by rewrite ?Hbk]).
  all: repeat (rewrite app_nil_l || rewrite app_nil_r).
  all: rewrite !app_assoc, <- (app_assoc _ [WriteFile Backup _ _]).
  all: apply item_shape_changed.
  all: events_simpl; rewrite ?Hch, ?Hbk, ?orb_true_r; try done.
  all: split_and?; by repeat constructor.
Qed.

(** ** Import by uid: loading the two maps *)

(** The loading loops only read: they leave the world as it is and emit
    nothing but, when they stop the process, its diagnostic. *)
Lemma load_row_quiet (m : gmap string dashboardData) (r : dashboard_row)
    (w : World) :
  events (load_row m r w) = last_words (result (load_row m r w)) /\
  world (load_row m r w) = w.
Proof.
  unfold load_row. destruct (Unmarshal _ _); [|done].
  by case_bool_decide.
Qed.

Lemma load_json_quiet (dbMap m : gmap string dashboardData) (j : string)
    (w : World) :
  events (load_json dbMap m j w)
  = last_words (result (load_json dbMap m j w)) /\
  world (load_json dbMap m j w) = w.
Proof.
  unfold load_json, readFile. cbv [mbind M_bind].
  destruct (ReadFile w j); [|done].
  destruct (Unmarshal _ _); [|done].
  destruct (dbMap !! _); [|done].
  by destruct (m !! _).
Qed.

Lemma forM_quiet {S X} (body : S -> X -> M S) (l : list X) :
  (forall s x w, events (body s x w) = last_words (result (body s x w))
                 /\ world (body s x w) = w) ->
  forall s w, events (forM body s l w) = last_words (result (forM body s l w))
              /\ world (forM body s l w) = w.
Proof.
  intros Hq. induction l as [|x l IH]; intros s w; [done|].
  simpl. cbv [mbind M_bind]. destruct (Hq s x w) as [He Hw].
  destruct (body s x w) as [[e1 w1] [s1|err]];
    unfold events, world, result in He, Hw; simpl in *; subst; [|done].
  destruct (IH s1 w) as [He Hw].
  destruct (forM body s1 l w) as [[e2 w2] r2];
    unfold events, world, result in He, Hw; simpl in *; by subst.
Qed.

Lemma quiet_eq {A} (x : list Event * World * Res A) (w : World) :
  events x = last_words (result x) /\ world x = w ->
  x = (last_words (result x), w, result x).
Proof.
  destruct x as [[e w'] r]. unfold events, world, result; simpl.
  by intros [-> ->].
Qed.

Lemma forM_cons_quiet {S X} (body : S -> X -> M S) (x : X) (l : list X)
    (s : S) (w : World) :
  events (body s x w) = last_words (result (body s x w))
  /\ world (body s x w) = w ->
  forM body s (x :: l) w =
    match result (body s x w) with
    | Done s' => forM body s' l w
    | Fatal err => ([Printf (MsgFatal err)], w, Fatal err)
    end.
Proof.
  intros Hq. simpl. cbv [mbind M_bind]. rewrite (quiet_eq _ _ Hq).
  destruct (result (body s x w)) as [s'|err]; simpl; [|done].
  by destruct (forM body s' l w) as [[e2 w2] r2].
Qed.

Lemma result_load_row (m : gmap string dashboardData) (r : dashboard_row)
    (w : World) :
  result (load_row m r w) =
    match Unmarshal (row_data r) zero_dashboard with
    | None => Fatal (ErrUnmarshal (row_data r))
    | Some d =>
        if bool_decide (row_title r ≠ Title d)
        then Fatal (ErrInconsistency (row_title r) (Title d))
        else Done (<[UID d:=record_data r d]> m)
    end.
Proof.
  unfold load_row. destruct (Unmarshal _ _); [|done]. by case_bool_decide.
Qed.

(** [dbMap], once loaded: every row decodes and agrees with its title
    column, and a uid stands for the last row that embeds it. *)
Lemma load_rows_spec (rows : list dashboard_row) :
  forall (m : gmap string dashboardData) (w : World) m',
  result (forM load_row m rows w) = Done m' ->
  Forall (fun r => exists d, Unmarshal (row_data r) zero_dashboard = Some d
                             /\ row_title r = Title d) rows /\
  forall uid,
    m' !! uid =
      match last (filter (fun r => uid_of_row r = Some uid) rows) with
      | Some r => record_data r <$> Unmarshal (row_data r) zero_dashboard
      | None => m !! uid
      end.
Proof.
  induction rows as [|r rows IH]; intros m w m'.
  - intros [= ->]. by split.
  - rewrite forM_cons_quiet by apply load_row_quiet.
    rewrite result_load_row.
    destruct (Unmarshal (row_data r) zero_dashboard) as [d|] eqn:Hd;
      [|done].
    case_bool_decide as Ht; [done|].
    intros Hrun. apply IH in Hrun as [Hall Hm]. split.
    + constructor; [|done]. exists d. split; [done|].
      by destruct (decide (row_title r = Title d)).
    + intros uid. rewrite Hm, filter_cons.
      assert (Hu : uid_of_row r = Some (UID d))
        by (unfold uid_of_row; by rewrite Hd).
      destruct (decide (uid_of_row r = Some uid)) as [He|Hne].
      * rewrite last_cons. assert (uid = UID d) as -> by congruence.
        destruct (last (filter _ rows)); [done|].
        by rewrite lookup_insert_eq, Hd.
      * destruct (last (filter _ rows)); [done|].
        rewrite lookup_insert_ne; [done|congruence].
Qed.

Lemma result_load_json (dbMap m : gmap string dashboardData) (j : string)
    (w : World) :
  result (load_json dbMap m j w) =
    match ReadFile w j with
    | None => Fatal (ErrReadFile j)
    | Some bytes =>
        match Unmarshal bytes zero_dashboard with
        | None => Fatal (ErrUnmarshal bytes)
        | Some d =>
            match dbMap !! UID d with
            | None => Fatal (ErrUIDNotFound j (UID d) (Title d))
            | Some dbDash =>
                match m !! UID d with
                | Some jsonDash => Fatal (ErrDuplicateUID j d (dash jsonDash))
                | None => Done (<[UID d:=json_data dbDash d bytes j]> m)
                end
            end
        end
    end.
Proof.
  unfold load_json, readFile. cbv [mbind M_bind].
  destruct (ReadFile w j); [|done].
  destruct (Unmarshal _ _); [|done].
  destruct (dbMap !! _); [|done].
  by destruct (m !! _).
Qed.

(** [jsonMap], once loaded: every input file holds a document whose uid has
    a record and that no other input file carries, and stands in the map
    under its uid. *)
Lemma load_jsons_spec (dbMap : gmap string dashboardData)
    (jsons : list string) :
  forall (m : gmap string dashboardData) (w : World) m',
  result (forM (load_json dbMap) m jsons w) = Done m' ->
  (forall uid dd, m !! uid = Some dd -> m' !! uid = Some dd) /\
  (forall j, j ∈ jsons ->
     exists bytes d dbDash,
       ReadFile w j = Some bytes /\ Unmarshal bytes zero_dashboard = Some d /\
       dbMap !! UID d = Some dbDash /\ m !! UID d = None /\
       m' !! UID d = Some (json_data dbDash d bytes j)) /\
  (forall uid dd, m' !! uid = Some dd ->
     m !! uid = Some dd \/
     exists j bytes d dbDash,
       j ∈ jsons /\ ReadFile w j = Some bytes /\
       Unmarshal bytes zero_dashboard = Some d /\ UID d = uid /\
       dbMap !! uid = Some dbDash /\ dd = json_data dbDash d bytes j) /\
  (exists ds, Forall2 (fun j d => document w j = Some d) jsons ds /\
              NoDup (UID <$> ds) /\ forall d, d ∈ ds -> m !! UID d = None).
Proof.
  induction jsons as [|j jsons IH]; intros m w m'.
  - intros [= ->]. split_and!; try done.
    + intros j Hj. by apply elem_of_nil in Hj.
    + by left.
    + exists []. split_and!; [constructor|constructor|].
      intros d Hd. by apply elem_of_nil in Hd.
  - rewrite forM_cons_quiet by apply load_json_quiet.
    rewrite result_load_json.
    destruct (ReadFile w j) as [bytes|] eqn:Hb; [|done].
    destruct (Unmarshal bytes zero_dashboard) as [d|] eqn:Hd; [|done].
    destruct (dbMap !! UID d) as [dbDash|] eqn:Hdb; [|done].
    destruct (m !! UID d) eqn:Hm; [done|].
    intros Hrun. apply IH in Hrun as (Hmono & HP & HQ & ds & Hds & Hnd & Hfree).
    assert (Hmono' : forall uid dd, m !! uid = Some dd -> m' !! uid = Some dd).
    { intros uid dd Hu. apply Hmono. rewrite lookup_insert_ne; [done|].
      congruence. }
    split_and!.
    + done.
    + intros j' Hj'. apply elem_of_cons in Hj' as [->|Hj'].
      * exists bytes, d, dbDash. split_and!; try done.
        apply Hmono. by rewrite lookup_insert_eq.
      * destruct (HP j' Hj') as (b' & d' & db' & ? & ? & ? & Hn & ?).
        exists b', d', db'. split_and!; try done.
        apply lookup_insert_None in Hn. ptauto.
    + intros uid dd Hu. destruct (HQ uid dd Hu) as [H1|H1].
      * apply lookup_insert_Some in H1 as [[<- <-]|[_ H1]]; [|by left].
        right. exists j, bytes, d, dbDash. split_and!; try done. left.
      * right. destruct H1 as (j' & b' & d' & db' & ? & H1).
        exists j', b', d', db'. split; [by right|done].
    + exists (d :: ds). split_and!.
      * constructor; [|done]. unfold document. by rewrite Hb.
      * rewrite fmap_cons. constructor; [|done].
        intros Hin. apply list_elem_of_fmap in Hin as [d' [Hu Hin]].
        apply Hfree in Hin. rewrite <- Hu, lookup_insert_eq in Hin. done.
      * intros d' Hin. apply elem_of_cons in Hin as [->|Hin]; [done|].
        apply Hfree in Hin. apply lookup_insert_None in Hin. ptauto.
Qed.

(** ** Import by uid: the run *)

(** The run of [importJsonsByUID], phase by phase: nothing is written until
    both maps are loaded. *)
Lemma importJsonsByUID_unfold (dbFile : string) (jsons : list string)
    (w : World) :
  importJsonsByUID dbFile jsons w =
    match ReadFile w dbFile with
    | None => Fatalf (ErrReadFile dbFile) w
    | Some contents =>
        match result (forM load_row ∅ (dashboard_tbl (db w)) w) with
        | Fatal err => Fatalf err w
        | Done dbMap =>
            match result (forM (load_json dbMap) ∅ jsons w) with
            | Fatal err => Fatalf err w
            | Done jsonMap =>
                let r := forM (update_one dbFile contents dbMap) (false, 0)
                              (range _ jsonMap) w in
                match result r with
                | Done st =>
                    (events r ++
                       [Printf (MsgSummary (Z.of_nat (size dbMap))
                                           (Z.of_nat (size jsonMap)) st.2)],
                     world r, Done tt)
                | Fatal err => (events r, world r, Fatal err)
                end
            end
        end
    end.
Proof.
  unfold importJsonsByUID, readFile, Query, select_dashboards.
  cbv [mbind M_bind]. destruct (ReadFile w dbFile) as [contents|]; [|done].
  rewrite (quiet_eq _ w (forM_quiet load_row _ load_row_quiet ∅ w)).
  destruct (result (forM load_row ∅ (dashboard_tbl (db w)) w))
    as [dbMap|err]; simpl; [|done].
  rewrite (quiet_eq _ w (forM_quiet (load_json dbMap) _
                           (load_json_quiet dbMap) ∅ w)).
  destruct (result (forM (load_json dbMap) ∅ jsons w))
    as [jsonMap|err]; simpl; [|done].
  destruct (forM (update_one dbFile contents dbMap) (false, 0)
                 (range dashboardData jsonMap) w) as [[e w'] [st|err]];
    unfold events, world, result; simpl; [|done].
  done.
Qed.

(** The update loop never stops the process and keeps the backup
    invariant. *)
Lemma update_loop_backup (dbFile contents : string)
    (dbMap : gmap string dashboardData)
    (items : list (string * dashboardData)) (w : World) :
  runs (forM (update_one dbFile contents dbMap) (false, 0) items) w
    (fun e w' r => exists st, r = Done st /\ backup_inv contents st.1 e).
Proof using range_perm.
  eapply runs_weaken.
  - apply (runs_forM _ items
             (fun e _ st => backup_inv contents st.1 e)
             (fun _ _ _ => False)) with (e := []) (s := (false, 0)).
    + intros e w1 [b n] [uid dd] _ Hinv.
      eapply runs_weaken; [apply update_one_spec|]. simpl.
      intros e' w' r ((b' & n' & -> & Hshape) & _). simpl.
      by eapply backup_inv_step.
    + done.
  - simpl. intros e w' [st|err]; [eauto|done].
Qed.

Lemma importJsonsByUID_backup_shape (dbFile : string) (jsons : list string)
    (w : World) :
  match ReadFile w dbFile with
  | Some contents =>
      backup_shape contents (events (importJsonsByUID dbFile jsons w))
  | None =>
      changed (events (importJsonsByUID dbFile jsons w)) = false /\
      backups (events (importJsonsByUID dbFile jsons w)) = []
  end.
Proof using range_perm.
  rewrite importJsonsByUID_unfold.
  destruct (ReadFile w dbFile) as [contents|]; [|done].
  destruct (result (forM load_row _ _ _)) as [dbMap|]; [|by left].
  destruct (result (forM (load_json _) _ _ _)) as [jsonMap|]; [|by left].
  destruct (update_loop_backup dbFile contents dbMap
              (range _ jsonMap) w) as (st & Hr & Hinv).
  simpl. rewrite Hr. unfold events at 1; simpl.
  apply backup_shape_app_quiet; [|done|done].
  by eapply backup_inv_shape.
Qed.

(** ** Import by title *)

(** One iteration of the loop of [importJsonsByTitle], as far as the backup
    goes. *)
Lemma import_one_backup (dbFile contents : string) (st : TitleState)
    (jdata : string) (w : World) :
  runs (import_one dbFile contents st jdata) w (fun e w' r =>
    match r with
    | Done st' =>
        exists did,
          item_shape contents did (st_backedUp st) e (st_backedUp st')
    | Fatal _ => changed e = false /\ backups e = []
    end).
Proof using range_perm.
  unfold import_one, runs, readFile, Query.
  destruct (_ && _); [done|].
  cbv [mbind M_bind mret M_ret printf].
  destruct (ReadFile w _) as [bytes|]; [|done].
  destruct (Unmarshal bytes _) as [dash|]; [|done].
  cbn [db]. destruct (last _) as [r|]; [|done].
  destruct (Unmarshal (row_data r) _) as [dash2|]; [|done].
  case_bool_decide as Huid.
  - (* uid mismatch: logged and skipped *)
    unfold events, world, result; simpl. exists 0.
    destruct (st_backedUp st).
    + apply item_shape_after; [|done].
      apply unchanged_on_dashboard. done.
    + by apply item_shape_unchanged.
  - cbv [exec]. cbn [db files clock].
    match goal with |- context [updateTags ?a ?b ?c ?w] =>
      destruct (updateTags_run a b c w)
        as (e1 & w1 & u & HT & Hon & Hbk & Hsc & Hup & Hch & Htbl & Hfs & Hck)
    end.
    rewrite HT; clear HT.
    destruct (bool_decide (Debug > 0)), (st_backedUp st).
    all: cbv [events world result mbind M_bind mret M_ret printf exec
              writeFile UnixNano backup_once backupFunc];
      cbn [fst snd db files clock st_backedUp].
    all: exists (row_id r).
    all: try (apply item_shape_after;
              [events_simpl; split_and?; by repeat constructor
              |events_simpl; by rewrite ?Hbk]).
    all: repeat (rewrite app_nil_l || rewrite app_nil_r).
    all: rewrite !app_assoc, <- (app_assoc _ [WriteFile Backup _ _]).
    all: apply item_shape_changed.
    all: events_simpl; rewrite ?Hch, ?Hbk, ?orb_true_r; try done.
    all: split_and?; by repeat constructor.
Qed.

(** The loop of [importJsonsByTitle] keeps the backup invariant, also when
    an item stops the process. *)
Lemma import_loop_backup (dbFile contents : string) (jsons : list string)
    (w : World) :
  runs (forM (import_one dbFile contents)
             (mkTitleState 0 zero_dashboard zero_dashboard false) jsons) w
    (fun e w' r => backup_shape contents e).
Proof using range_perm.
  eapply runs_weaken.
  - apply (runs_forM _ jsons
             (fun e _ st => backup_inv contents (st_backedUp st) e)
             (fun e _ _ => backup_shape contents e)) with (e := []).
    + intros e w1 st jdata _ Hinv.
      eapply runs_weaken; [apply import_one_backup|]. simpl.
      intros e' w' [st'|err].
      * intros [did Hshape]. by eapply backup_inv_step.
      * intros [Hc Hb]. apply backup_shape_app_quiet; [|done|done].
        by eapply backup_inv_shape.
    + done.
  - simpl. intros e w' [st|err] H; [|done]. by eapply backup_inv_shape.
Qed.

Lemma importJsonsByTitle_backup_shape (dbFile : string) (jsons : list string)
    (w : World) :
  match ReadFile w dbFile with
  | Some contents =>
      backup_shape contents (events (importJsonsByTitle dbFile jsons w))
  | None =>
      changed (events (importJsonsByTitle dbFile jsons w)) = false /\
      backups (events (importJsonsByTitle dbFile jsons w)) = []
  end.
Proof using range_perm.
  unfold importJsonsByTitle, readFile. cbv [mbind M_bind].
  destruct (ReadFile w dbFile) as [contents|]; [|done].
  pose proof (import_loop_backup dbFile contents jsons w) as H.
  unfold runs in H.
  destruct (forM _ _ _ _) as [[e w'] [st|err]];
    unfold events in *; simpl in *; [|done].
  by rewrite !app_nil_r.
Qed.

(** ** The backup, in both import strategies *)

Lemma backup_shape_at_most_once (contents : string) (evs : list Event) :
  backup_shape contents evs -> backed_up_at_most_once (Some contents) evs.
Proof.
  intros [[Hc Hb]|(pre & path & post & did & -> & Hpre & Hpost & Hc & _)].
  - unfold backed_up_at_most_once. rewrite Hc, Hb. simpl.
    split_and!; [lia|done|]. intros ?? H. by apply elem_of_nil in H.
  - unfold backed_up_at_most_once.
    rewrite changed_app, Hc, backups_app, Hpre. simpl. rewrite Hpost. simpl.
    split_and!; [lia|done|].
    intros p b H. apply list_elem_of_singleton in H. congruence.
Qed.


(** C3: across any single import run, by uid or by title, at most one
    full-database backup file is created: the first change creates it, every
    later one leaves it alone, and without a change there is none; its
    contents are the bytes of the database file as read once at the very
    start of the run, before any mutation. *)
Theorem backup_at_most_once (dbFile : string) (jsons : list string)
    (w : World) :
  backed_up_at_most_once (ReadFile w dbFile)
    (events (importJsonsByUID dbFile jsons w)) /\
  backed_up_at_most_once (ReadFile w dbFile)
    (events (importJsonsByTitle dbFile jsons w)).
Proof using range_perm.
  pose proof (importJsonsByUID_backup_shape dbFile jsons w) as H1.
  pose proof (importJsonsByTitle_backup_shape dbFile jsons w) as H2.
  destruct (ReadFile w dbFile) as [contents|].
  - split; by apply backup_shape_at_most_once.
  - destruct H1 as [Hc1 Hb1], H2 as [Hc2 Hb2].
    unfold backed_up_at_most_once. rewrite Hc1, Hb1, Hc2, Hb2. simpl.
    split; (split_and!; [lia|done|]); intros ?? H; by apply elem_of_nil in H.
Qed.


(** ** Import by uid: what is and is not written *)

Lemma fails_untouched_quiet {A} (w : World) (err : Error) :
  fails_untouched (A := A) w (Fatalf err w).
Proof. unfold fails_untouched; simpl. split_and!; eauto. Qed.

(** C6: in Identifier Matching, if two input documents carry the same uid,
    the run fails fatally before any database mutation: no statement has
    been executed (and no file written). *)
Theorem duplicate_uid_is_fatal (dbFile : string) (jsons : list string)
    (w : World) (i1 i2 : nat) (j1 j2 : string) (d1 d2 : dashboard) :
  i1 ≠ i2 ->
  jsons !! i1 = Some j1 -> jsons !! i2 = Some j2 ->
  document w j1 = Some d1 -> document w j2 = Some d2 ->
  UID d1 = UID d2 ->
  fails_untouched w (importJsonsByUID dbFile jsons w).
Proof.
  intros Hne Hj1 Hj2 Hd1 Hd2 Huid. rewrite importJsonsByUID_unfold.
  destruct (ReadFile w dbFile) as [contents|];
    [|apply fails_untouched_quiet].
  destruct (result (forM load_row _ _ _)) as [dbMap|];
    [|apply fails_untouched_quiet].
  destruct (result (forM (load_json _) _ _ _)) as [jsonMap|] eqn:Hload;
    [|apply fails_untouched_quiet].
  exfalso. apply load_jsons_spec in Hload as (_ & _ & _ & ds & Hds & Hnd & _).
  destruct (Forall2_lookup_l _ _ _ _ _ Hds Hj1) as (d1' & Hl1 & Hd1').
  destruct (Forall2_lookup_l _ _ _ _ _ Hds Hj2) as (d2' & Hl2 & Hd2').
  assert (d1' = d1) as -> by congruence.
  assert (d2' = d2) as -> by congruence.
  apply Hne. apply (NoDup_lookup (UID <$> ds) i1 i2 (UID d1)); [done| |].
  - by rewrite list_lookup_fmap, Hl1.
  - by rewrite list_lookup_fmap, Hl2, Huid.
Qed.

(** C7: in Identifier Matching, an input document whose uid matches no
    database record causes a fatal failure with no side effects: no database
    mutation, no sidecar file, no backup file. *)
Theorem unknown_uid_is_fatal (dbFile : string) (jsons : list string)
    (w : World) (j : string) (d : dashboard) :
  j ∈ jsons -> document w j = Some d ->
  (forall r, r ∈ dashboard_tbl (db w) -> uid_of_row r ≠ Some (UID d)) ->
  fails_untouched w (importJsonsByUID dbFile jsons w).
Proof.
  intros Hj Hd Hnone. rewrite importJsonsByUID_unfold.
  destruct (ReadFile w dbFile) as [contents|];
    [|apply fails_untouched_quiet].
  destruct (result (forM load_row _ _ _)) as [dbMap|] eqn:Hrows;
    [|apply fails_untouched_quiet].
  destruct (result (forM (load_json _) _ _ _)) as [jsonMap|] eqn:Hload;
    [|apply fails_untouched_quiet].
  exfalso. apply load_jsons_spec in Hload as (_ & HP & _).
  destruct (HP j Hj) as (bytes & d' & dbDash & Hb & Hd' & Hdb & _).
  unfold document in Hd. rewrite Hb, Hd' in Hd. injection Hd as ->.
  apply load_rows_spec in Hrows as [_ Hm]. rewrite Hm in Hdb.
  destruct (last _) as [r|] eqn:Hlast; [|by rewrite lookup_empty in Hdb].
  apply last_Some_elem_of, list_elem_of_filter in Hlast as [Hu Hr].
  by apply (Hnone r).
Qed.

Lemma primary_key_inj (l : list dashboard_row) (r r' : dashboard_row) :
  NoDup (row_id <$> l) -> r ∈ l -> r' ∈ l -> row_id r = row_id r' -> r = r'.
Proof.
  intros Hnd Hr Hr' Hid.
  apply list_elem_of_lookup in Hr as [i Hi].
  apply list_elem_of_lookup in Hr' as [i' Hi'].
  assert (i = i') as ->; [|congruence].
  apply (NoDup_lookup (row_id <$> l) i i' (row_id r)); [done| |].
  - by rewrite list_lookup_fmap, Hi.
  - by rewrite list_lookup_fmap, Hi', Hid.
Qed.

Lemma filter_none {X} (P : X -> Prop) `{forall x, Decision (P x)}
    (l : list X) :
  (forall x, x ∈ l -> ~ P x) -> filter P l = [].
Proof.
  induction l as [|x l IH]; intros Hl; [done|].
  rewrite filter_cons_False by (apply Hl; left).
  apply IH. intros y Hy. apply Hl. by right.
Qed.

Lemma rows_with_primary_key (d : Database) (r : dashboard_row) :
  NoDup (row_id <$> dashboard_tbl d) -> r ∈ dashboard_tbl d ->
  rows_with (row_id r) d = [r].
Proof.
  unfold rows_with. induction (dashboard_tbl d) as [|x l IH]; intros Hnd Hr.
  - by apply elem_of_nil in Hr.
  - rewrite fmap_cons in Hnd. apply NoDup_cons in Hnd as [Hx Hnd].
    apply elem_of_cons in Hr as [->|Hr].
    + rewrite filter_cons_True by done. f_equal.
      apply filter_none. intros y Hy Hid. apply Hx.
      apply list_elem_of_fmap. by exists y.
    + rewrite filter_cons_False; [by apply IH|].
      intros Hid. apply Hx. apply list_elem_of_fmap. by exists r.
Qed.

(** The update loop leaves alone the rows of a record that every dashboard
    of the loop either agrees with or does not write to. *)
Lemma update_loop_frame (dbFile contents : string)
    (dbMap : gmap string dashboardData)
    (items : list (string * dashboardData)) (id0 : Z) (w : World) :
  (forall uid dd, (uid, dd) ∈ items ->
     (let ddWas := default zero_dashboardData (dbMap !! uid) in
      Title (dash ddWas) = Title (dash dd) /\ slug ddWas = slug dd
      /\ data ddWas = data dd)
     \/ id dd ≠ id0) ->
  runs (forM (update_one dbFile contents dbMap) (false, 0) items) w
    (fun e w' r =>
       (id0 ∉ updates e) /\ rows_with id0 (db w') = rows_with id0 (db w)).
Proof using range_perm.
  intros Hitems. eapply runs_weaken.
  - apply (runs_forM _ items
      (fun e w' _ =>
         (id0 ∉ updates e) /\ rows_with id0 (db w') = rows_with id0 (db w))
      (fun e w' _ =>
         (id0 ∉ updates e) /\ rows_with id0 (db w') = rows_with id0 (db w)))
      with (e := []) (s := (false, 0)).
    + intros e w1 [b n] [uid dd] Hin [Hup Hrows].
      eapply runs_weaken; [apply update_one_spec|]. simpl.
      intros e' w' r ((b' & n' & -> & _) & Hsame & Hother).
      rewrite updates_app, elem_of_app.
      destruct (Hitems uid dd Hin) as [Hs|Hid].
      * destruct (Hsame Hs) as [-> Htbl].
        rewrite (rows_with_tbl _ _ _ Htbl).
        split; [|done]. intros [?|H]; [done|]. by apply elem_of_nil in H.
      * destruct (Hother id0) as [-> Hn]; [done|]. ptauto.
    + split; [|done]. simpl. apply not_elem_of_nil.
  - simpl. by intros e w' [st|err].
Qed.

(** C5: in Identifier Matching, for every input document whose canonical
    content, title and computed slug all equal those of the record it is
    matched with, no update of the dashboard row occurs: no [update
    dashboard] statement is run for the record and its row is left as it
    was, whatever the tag reconciliation reported.  ([id] is the primary key
    of [dashboard].) *)
Theorem unchanged_document_not_written (dbFile : string)
    (jsons : list string) (w : World) (j bytes : string) (d : dashboard)
    (r : dashboard_row) :
  NoDup (row_id <$> dashboard_tbl (db w)) ->
  j ∈ jsons -> ReadFile w j = Some bytes ->
  Unmarshal bytes zero_dashboard = Some d ->
  matched_record (db w) (UID d) r ->
  PrettyPrintJSON bytes = PrettyPrintJSON (row_data r) ->
  Title d = row_title r ->
  Slugify (Title d) = row_slug r ->
  let run := importJsonsByUID dbFile jsons w in
  (row_id r ∉ updates (events run)) /\
  rows_with (row_id r) (db (world run)) = [r].
Proof using range_perm.
  intros Hpk Hj Hb Hd Hmatch Hdata Htitle Hslug run.
  assert (Hr : r ∈ dashboard_tbl (db w)).
  { apply last_Some_elem_of, list_elem_of_filter in Hmatch. ptauto. }
  assert (Hur : uid_of_row r = Some (UID d)).
  { apply last_Some_elem_of, list_elem_of_filter in Hmatch. ptauto. }
  rewrite <- (rows_with_primary_key (db w) r Hpk Hr).
  unfold run. rewrite importJsonsByUID_unfold.
  destruct (ReadFile w dbFile) as [contents|];
    [|split; [apply not_elem_of_nil|done]].
  destruct (result (forM load_row _ _ _)) as [dbMap|] eqn:Hrows;
    [|split; [apply not_elem_of_nil|done]].
  destruct (result (forM (load_json _) _ _ _)) as [jsonMap|] eqn:Hload;
    [|split; [apply not_elem_of_nil|done]].
  apply load_rows_spec in Hrows as [Hall Hdb].
  apply load_jsons_spec in Hload as (_ & HP & HQ & _).
  (* the record of the document, in [dbMap] *)
  destruct (proj1 (Forall_forall _ _) Hall r Hr) as (dr & Hdr & Htr).
  assert (HdbMap : dbMap !! UID d = Some (record_data r dr)).
  { rewrite Hdb. unfold matched_record in Hmatch. by rewrite Hmatch, Hdr. }
  (* the document, in [jsonMap] *)
  destruct (HP j Hj) as (bytes' & d' & dbDash & Hb' & Hd' & Hdb' & _ & Hjson).
  assert (bytes' = bytes) as -> by congruence.
  assert (d' = d) as -> by congruence.
  assert (dbDash = record_data r dr) as -> by congruence.
  simpl.
  pose proof (update_loop_frame dbFile contents dbMap
                (range _ jsonMap) (row_id r) w) as Hloop.
  unfold runs in Hloop.
  assert (Hgoal : (row_id r
                   ∉ updates (events (forM (update_one dbFile contents dbMap)
                                (false, 0) (range _ jsonMap) w))) /\
                  rows_with (row_id r)
                    (db (world (forM (update_one dbFile contents dbMap)
                                  (false, 0) (range _ jsonMap) w)))
                  = rows_with (row_id r) (db w)).
  { apply Hloop. intros uid dd Hin.
    assert (Hlk : jsonMap !! uid = Some dd).
    { apply elem_of_map_to_list. by rewrite <- (range_perm _ jsonMap). }
    destruct (decide (uid = UID d)) as [->|Hne].
    - left. rewrite Hjson in Hlk. injection Hlk as <-.
      rewrite HdbMap. simpl. split_and!; congruence.
    - right. destruct (HQ uid dd Hlk) as [He|He];
        [by rewrite lookup_empty in He|].
      destruct He as (j' & b' & d' & dbDash' & _ & _ & _ & Hu' & Hdb'' & ->).
      simpl. rewrite Hdb in Hdb''.
      destruct (last _) as [r'|] eqn:Hlast;
        [|by rewrite lookup_empty in Hdb''].
      apply last_Some_elem_of, list_elem_of_filter in Hlast as [Hur' Hr'].
      destruct (Unmarshal (row_data r') zero_dashboard) as [dr'|];
        [|done].
      injection Hdb'' as <-. simpl. intros Hid.
      assert (r' = r) as -> by (by eapply primary_key_inj).
      congruence. }
  destruct Hgoal as [Hup Hrw].
  destruct (result (forM (update_one _ _ _) _ _ _)) as [st|err];
    unfold events at 1, world at 1; simpl; [|done].
  split; [|done]. rewrite updates_app. simpl. by rewrite app_nil_r.
Qed.

(** ** A change without a statement *)

Lemma replay_app (q1 q2 : list Sql) (d : Database) :
  replay (q1 ++ q2) d = replay q2 (replay q1 d).
Proof. apply foldl_app. Qed.

Lemma sync_tag_replay (did : Z) (info sDB sJSON : string)
    (jsonMap dbMap : gmap string unit) (n : Z * Z) (tag : string) (w : World) :
  runs (sync_tag did info sDB sJSON jsonMap dbMap n tag) w (fun e w' _ =>
    db w' = replay (statements e) (db w)).
Proof.
  unfold runs, sync_tag.
  destruct (bool_decide (is_Some (jsonMap !! tag))),
           (bool_decide (is_Some (dbMap !! tag))),
           (bool_decide (Debug > 0)); by run_simpl.
Qed.

Lemma sync_loop_replay (did : Z) (info sDB sJSON : string)
    (jsonMap dbMap : gmap string unit) (ks : list string) :
  forall (n : Z * Z) (w : World),
  runs (forM (sync_tag did info sDB sJSON jsonMap dbMap) n ks) w
    (fun e w' _ => db w' = replay (statements e) (db w)).
Proof.
  induction ks as [|k ks IH]; intros n w; [done|].
  simpl. apply runs_bind.
  eapply runs_weaken; [apply sync_tag_replay|]. simpl.
  intros e1 w1 [n1|err] H1; [|done].
  eapply runs_weaken; [apply IH|]. simpl.
  intros e2 w2 r2 H2. by rewrite statements_app, replay_app, <- H1.
Qed.

(** The database after [updateTags] is the database before it with the
    statements of the call applied: nothing else writes to it. *)
Lemma updateTags_replay (did : Z) (A : list string) (info : string)
    (w : World) :
  runs (updateTags did A info) w (fun e w' _ =>
    db w' = replay (statements e) (db w)).
Proof.
  unfold runs, updateTags. cbv [mbind M_bind Query]. cbn [db].
  case_bool_decide; [done|].
  match goal with |- context [forM ?b ?n ?ks w] =>
    pose proof (sync_loop_replay did info
                  (Join (select_terms did (db w)) ",")
                  (Join (sort_Strings A) ",")
                  (add_keys ∅ (sort_Strings A))
                  (add_keys ∅ (select_terms did (db w))) ks n w) as Hc
  end.
  unfold runs in Hc.
  destruct (forM _ _ _ _) as [[e1 w1] [n1|err]];
    unfold events, world, result in *; simpl in *; [|done].
  cbv [printf mret M_ret]. simpl.
  by rewrite statements_app, replay_app, <- Hc.
Qed.

Lemma no_statements_no_tags (e : list Event) :
  statements e = [] -> inserts e = [] /\ deletes e = [].
Proof.
  induction e as [|ev e IH]; [done|].
  destruct ev as [q| |]; simpl; [done|exact IH|exact IH].
Qed.

(** C10 (as amended): there is an input on which [updateTags] returns true
    while it runs no insert and no delete: the JSON tags a, a against the
    table tag a.  It does so not whenever the JSON list repeats a tag of the
    table, but whenever the two lists hold the same tags while their sorted
    joined strings differ, as they do when the JSON list repeats a tag and
    the table repeats none; the tag table is then as it was.  The caller
    takes the value for a change: in [importJsonsByUID], for a document that
    agrees with its record in title, slug and data, the iteration writes the
    backup file, counts the document as imported, and has executed no
    statement. *)
Theorem updateTags_change_without_statement :
  (forall info : string,
     let r := updateTags 1 ["a"; "a"] info
                (mkWorld (mkDb [] [mkTag 1 "a"]) ∅ 0) in
     result r = Done true /\ inserts (events r) = [] /\
     deletes (events r) = [] /\ db (world r) = mkDb [] [mkTag 1 "a"]) /\
  (forall (did : Z) (A : list string) (info : string) (w : World),
     (forall t, t ∈ A <-> t ∈ tags_of did (db w)) ->
     Join (sort_Strings A) "," ≠ Join (sort_Strings (tags_of did (db w))) "," ->
     let r := updateTags did A info w in
     result r = Done true /\ statements (events r) = [] /\
     db (world r) = db w) /\
  (forall (did : Z) (A : list string) (info : string) (w : World),
     (forall t, t ∈ A <-> t ∈ tags_of did (db w)) ->
     NoDup (tags_of did (db w)) -> ~ NoDup A ->
     let r := updateTags did A info w in
     result r = Done true /\ statements (events r) = [] /\
     db (world r) = db w) /\
  (forall (dbFile contents : string) (dbMap : gmap string dashboardData)
          (n : Z) (uid : string) (dd : dashboardData) (w : World),
     let ddWas := default zero_dashboardData (dbMap !! uid) in
     Title (dash ddWas) = Title (dash dd) /\ slug ddWas = slug dd
       /\ data ddWas = data dd ->
     (forall t, t ∈ Tags (dash dd) <-> t ∈ tags_of (id dd) (db w)) ->
     Join (sort_Strings (Tags (dash dd))) ","
       ≠ Join (sort_Strings (tags_of (id dd) (db w))) "," ->
     let r := update_one dbFile contents dbMap (false, n) (uid, dd) w in
     result r = Done (true, n + 1) /\ statements (events r) = [] /\
     db (world r) = db w /\
     exists path, backups (events r) = [(path, contents)]).
Proof using range_perm.
  assert (Hgen : forall (did : Z) (A : list string) (info : string)
                        (w : World),
     (forall t, t ∈ A <-> t ∈ tags_of did (db w)) ->
     Join (sort_Strings A) "," ≠ Join (sort_Strings (tags_of did (db w))) "," ->
     let r := updateTags did A info w in
     result r = Done true /\ statements (events r) = [] /\
     db (world r) = db w).
  { intros did A info w Hsame Hd. simpl.
    pose proof (updateTags_same_set did A info w Hsame) as Hst.
    pose proof (updateTags_replay did A info w) as Hrp. unfold runs in Hrp.
    rewrite Hst in Hrp. split_and!; [|done|done].
    destruct (updateTags_spec did A info w) as (Hr & _).
    by rewrite Hr, bool_decide_true. }
  assert (Hdup : forall (did : Z) (A : list string) (info : string)
                        (w : World),
     (forall t, t ∈ A <-> t ∈ tags_of did (db w)) ->
     NoDup (tags_of did (db w)) -> ~ NoDup A ->
     let r := updateTags did A info w in
     result r = Done true /\ statements (events r) = [] /\
     db (world r) = db w).
  { intros did A info w Hsame HB HA. apply Hgen; [done|].
    apply repeated_tag_joins_differ.
    - by rewrite sort_Strings_perm.
    - by rewrite sort_Strings_perm.
    - intros t. by rewrite !elem_of_sort_Strings. }
  split_and!; [|exact Hgen|exact Hdup|].
  - intros info.
    destruct (Hdup 1 ["a"; "a"] info (mkWorld (mkDb [] [mkTag 1 "a"]) ∅ 0))
      as (Hr & Hst & Hdb).
    + intros t. change (tags_of _ _) with ["a"].
      rewrite !elem_of_cons, elem_of_nil. ptauto.
    + change (tags_of _ _) with ["a"]. apply NoDup_singleton.
    + intros Hnd. apply NoDup_cons in Hnd as [Hn _]. apply Hn. left.
    + simpl. destruct (no_statements_no_tags _ Hst) as [Hi Hdel].
      by split_and!.
  - intros dbFile contents dbMap n uid dd w ddWas Hsame Htags Hd.
    simpl.
    destruct (updateTags_run (id dd) (Tags (dash dd))
                (UID (dash dd) +:+ " " +:+ Title (dash dd)) w)
      as (e1 & w1 & u & HT & _ & Hbk & _ & _ & _ & _ & Hfs & Hck).
    destruct (Hgen (id dd) (Tags (dash dd))
                (UID (dash dd) +:+ " " +:+ Title (dash dd)) w Htags Hd)
      as (Hr & Hst & Hdb).
    rewrite HT in Hr, Hst, Hdb. unfold events, world, result in Hr, Hst, Hdb.
    simpl in Hr, Hst, Hdb. injection Hr as ->.
    unfold update_one. simpl. fold ddWas.
    destruct Hsame as (Hs1 & Hs2 & Hs3).
    rewrite (bool_decide_true _ Hs1), (bool_decide_true _ Hs2),
      (bool_decide_true _ Hs3).
    destruct (bool_decide (Debug > 1));
      cbv [mbind M_bind mret M_ret printf]; rewrite HT.
    all: cbv [events world result mbind M_bind mret M_ret printf exec
              writeFile UnixNano backup_once backupFunc];
      cbn [fst snd db files clock andb].
    all: rewrite ?statements_app, ?backups_app, Hst, Hbk; simpl.
    all: split_and!; eauto.
Qed.

(** ** Import by title: one item *)

(** X19: in Title Matching, an item that resolves and whose two uids, as
    the loop compares them (the document's and the record's, each decoded
    into the dashboard that the loop holds from the item before), differ is
    logged and skipped: the database (that record's title, slug, data and
    tags included) and the files are unchanged, so no sidecar is written for
    it, and processing continues with the subsequent items instead of
    aborting. *)
Theorem uid_mismatch_is_soft_skip (dbFile contents : string)
    (st : TitleState) (jdata : string) (rest : list string) (w : World)
    (bytes : string) (dash : dashboard) (r : dashboard_row)
    (dash2 : dashboard) :
  resolves w st jdata bytes dash r dash2 ->
  UID dash ≠ UID dash2 ->
  skipped_softly dbFile contents st jdata rest w dash dash2.
Proof.
  intros (Hlen & Hb & Hd & Hr & Hd2) Hne.
  assert (Hstep : import_one dbFile contents st jdata w =
    ([Printf (MsgImporting (st_i st + 1)
                (default EmptyString (Split jdata ";" !! 0%nat)) (Split jdata ";"));
      Printf (MsgUIDMismatch (UID dash) (UID dash2))],
     w, Done (mkTitleState (st_i st + 1) dash dash2 (st_backedUp st)))).
  { unfold import_one, readFile, Query. cbv zeta.
    assert (Har : bool_decide (length (Split jdata ";") ≠ 1%nat)
                  && bool_decide (length (Split jdata ";") ≠ 3%nat) = false).
    { destruct Hlen as [->| ->]; by vm_compute. }
    rewrite Har. cbv [mbind M_bind mret M_ret printf]. rewrite Hb, Hd.
    cbn [db]. rewrite Hr, Hd2. by rewrite bool_decide_true by done. }
  unfold skipped_softly. rewrite Hstep.
  unfold events at 1 2, world at 1, result at 1; simpl.
  split_and!; [done|done|]. eexists. split_and!; [done|done|].
  cbv [mbind M_bind]. rewrite Hstep.
  by destruct (forM _ _ _ _) as [[e w'] res].
Qed.

Lemma rows_with_update (i : Z) (t sl dt : string) (d : Database) :
  rows_with i (run_sql (UpdateDashboard t sl dt i) d)
  = (fun _ => mkRow i t sl dt) <$> rows_with i d.
Proof.
  unfold rows_with; simpl.
  induction (dashboard_tbl d) as [|r l IH]; [done|].
  rewrite fmap_cons, !filter_cons, IH. unfold set_row.
  case_bool_decide as Hr; simpl.
  - by rewrite !decide_True by done.
  - by rewrite !decide_False by done.
Qed.

(** C9 (as amended): in Title Matching, the content written to the data
    column of the matched record on an identifier match is the input file's
    bytes as they are, not their canonical form: after the write the stored
    bytes equal the bytes of the file, and they equal the canonicalization of
    the input only for a file that is already canonical. *)
Theorem title_import_stores_raw_bytes (dbFile contents : string)
    (st : TitleState) (jdata : string) (w : World)
    (bytes : string) (dash : dashboard) (r : dashboard_row)
    (dash2 : dashboard) :
  resolves w st jdata bytes dash r dash2 ->
  UID dash = UID dash2 ->
  stored_after dbFile contents st jdata w r bytes /\
  (stored_after dbFile contents st jdata w r (PrettyPrintJSON bytes)
   <-> PrettyPrintJSON bytes = bytes).
Proof using range_perm.
  intros (Hlen & Hb & Hd & Hr & Hd2) Huid.
  assert (Hin : r ∈ rows_with (row_id r) (db w)).
  { apply last_Some_elem_of, list_elem_of_filter in Hr as [_ Hr].
    by apply list_elem_of_filter. }
  assert (Hrows : exists t sl,
    rows_with (row_id r) (db (world (import_one dbFile contents st jdata w)))
    = (fun _ => mkRow (row_id r) t sl bytes) <$> rows_with (row_id r) (db w)).
  { unfold import_one, readFile, Query. cbv zeta.
    assert (Har : bool_decide (length (Split jdata ";") ≠ 1%nat)
                  && bool_decide (length (Split jdata ";") ≠ 3%nat) = false).
    { destruct Hlen as [->| ->]; by vm_compute. }
    rewrite Har. cbv [mbind M_bind mret M_ret printf]. rewrite Hb, Hd.
    cbn [db]. rewrite Hr, Hd2.
    rewrite bool_decide_false by (by intros H; apply H).
    cbv [exec]. cbn [db files clock].
    match goal with |- context [updateTags ?a ?b ?c ?w] =>
      destruct (updateTags_run a b c w)
        as (e1 & w1 & u & HT & _ & _ & _ & _ & _ & Htbl & _)
    end.
    rewrite HT; clear HT. cbn [db] in Htbl.
    destruct (bool_decide (Debug > 0)), (st_backedUp st).
    all: cbv [events world result mbind M_bind mret M_ret printf exec
              writeFile UnixNano backup_once backupFunc];
      cbn [fst snd db files clock].
    all: rewrite (rows_with_tbl _ _ _ Htbl), rows_with_update; eauto. }
  destruct Hrows as (t & sl & Hrows).
  assert (Hstored : forall content,
    stored_after dbFile contents st jdata w r content <-> content = bytes).
  { intros content. unfold stored_after. rewrite Hrows. split.
    - intros [_ Hall]. symmetry.
      apply (Hall (mkRow (row_id r) t sl bytes)).
      apply list_elem_of_fmap. by exists r.
    - intros ->. split.
      + intros Hnil. apply fmap_nil_inv in Hnil. rewrite Hnil in Hin.
        by apply elem_of_nil in Hin.
      + intros r' Hr'. apply list_elem_of_fmap in Hr' as [? [-> _]]. done. }
  split; [by apply Hstored|]. apply Hstored.
Qed.

(** * Further properties of the program *)

(** ** [updateTags] *)

(** X1: after a call of [updateTags] that returns true, the tags of the
    dashboard in [dashboard_tag] are exactly the JSON tags; a call that
    returns false has done nothing at all.  [updateTags] never stops the
    process. *)
Theorem updateTags_makes_tags_match (did : Z) (A : list string)
    (info : string) (w : World) :
  let r := updateTags did A info w in
  (exists u, result r = Done u) /\
  (result r = Done true ->
   forall t, t ∈ tags_of did (db (world r)) <-> t ∈ A) /\
  (result r = Done false -> events r = [] /\ world r = w).
Proof using range_perm.
  simpl.
  destruct (updateTags_spec did A info w) as (Hr & Hfast & Hslow & _).
  rewrite Hr. split_and!; [eauto| |].
  - intros [= Hu]. apply bool_decide_eq_true in Hu.
    by destruct (Hslow Hu) as (_ & _ & Hm & _).
  - intros [= Hu]. apply bool_decide_eq_false in Hu. by apply Hfast.
Qed.

(** X2: [updateTags] on dashboard [did] writes to nothing but the tags of
    [did]: the tags of every other dashboard, the table [dashboard] and the
    files are as before, and each of its events is an insert or a delete of a
    tag of [did], or a line of output. *)
Theorem updateTags_touches_one_dashboard (did : Z) (A : list string)
    (info : string) (w : World) :
  let r := updateTags did A info w in
  (forall d', d' ≠ did -> tags_of d' (db (world r)) = tags_of d' (db w)) /\
  dashboard_tbl (db (world r)) = dashboard_tbl (db w) /\
  files (world r) = files w /\
  Forall (touches_only did) (events r).
Proof using range_perm.
  simpl.
  destruct (updateTags_spec did A info w)
    as (_ & _ & _ & Hf & Htbl & Hfs & _ & Ho).
  done.
Qed.

Lemma sync_tag_count (did : Z) (info sDB sJSON : string)
    (jsonMap dbMap : gmap string unit) (n : Z * Z) (tag : string) (w : World) :
  runs (sync_tag did info sDB sJSON jsonMap dbMap n tag) w (fun e _ r =>
    r = Done (n.1 + Z.of_nat (length (inserts e)),
              n.2 + Z.of_nat (length (deletes e)))).
Proof.
  unfold runs, sync_tag.
  destruct (bool_decide (is_Some (jsonMap !! tag))),
           (bool_decide (is_Some (dbMap !! tag))),
           (bool_decide (Debug > 0)); destruct n as [nI nD]; run_simpl;
    do 2 f_equal; lia.
Qed.

Lemma sync_loop_count (did : Z) (info sDB sJSON : string)
    (jsonMap dbMap : gmap string unit) (ks : list string) :
  forall (n : Z * Z) (w : World),
  runs (forM (sync_tag did info sDB sJSON jsonMap dbMap) n ks) w (fun e _ r =>
    r = Done (n.1 + Z.of_nat (length (inserts e)),
              n.2 + Z.of_nat (length (deletes e)))).
Proof.
  induction ks as [|k ks IH]; intros n w.
  - destruct n as [nI nD]. unfold runs, events, result; simpl.
    by rewrite !Z.add_0_r.
  - simpl. apply runs_bind.
    eapply runs_weaken; [apply sync_tag_count|]. simpl.
    intros e1 w1 r1 ->.
    eapply runs_weaken; [apply IH|]. simpl.
    intros e2 w2 r2 ->. rewrite inserts_app, deletes_app, !List.length_app.
    destruct n as [nI nD]; simpl. do 2 f_equal; lia.
Qed.

(** X3: the last line that [updateTags] prints when it returns true tells
    the truth: it carries the sorted joined strings of the table and of the
    JSON tags, and its counts [added] and [removed] are the numbers of inserts
    and of deletes that the call has executed. *)
Theorem updateTags_reports_its_statements (did : Z) (A : list string)
    (info : string) (w : World) :
  let r := updateTags did A info w in
  result r = Done true ->
  exists e0,
    events r =
      e0 ++ [Printf (MsgTagsUpdated info did
                       (Join (sort_Strings (tags_of did (db w))) ",")
                       (Join (sort_Strings A) ",")
                       (Z.of_nat (length (inserts (events r))))
                       (Z.of_nat (length (deletes (events r)))))].
Proof.
  simpl. unfold updateTags. cbv [mbind M_bind Query]. cbn [db].
  rewrite select_terms_tags_of.
  case_bool_decide as Hd; [by intros [=]|]. intros _.
  pose proof (sync_loop_count did info
                (Join (sort_Strings (tags_of did (db w))) ",")
                (Join (sort_Strings A) ",")
                (add_keys ∅ (sort_Strings A))
                (add_keys ∅ (sort_Strings (tags_of did (db w))))
                (range unit (add_keys (add_keys ∅ (sort_Strings A))
                               (sort_Strings (tags_of did (db w))))).*1
                (0, 0) w) as Hc.
  unfold runs in Hc.
  destruct (forM _ _ _ _) as [[e1 w1] r1].
  unfold events, world, result in *. simpl in Hc. subst r1.
  cbv [printf mret M_ret]. simpl.
  exists e1. rewrite inserts_app, deletes_app. simpl.
  by rewrite !app_nil_r.
Qed.

(** ** [importJsonsByUID]: validation comes first *)


Lemma load_rows_complete (rows : list dashboard_row) :
  forall (m : gmap string dashboardData) (w : World),
  Forall (fun r => exists doc, Unmarshal (row_data r) zero_dashboard = Some doc
                               /\ row_title r = Title doc) rows ->
  exists m', result (forM load_row m rows w) = Done m'.
Proof.
  induction rows as [|r rows IH]; intros m w Hall; [by eexists|].
  apply Forall_cons in Hall as [(doc & Hd & Ht) Hall].
  rewrite forM_cons_quiet by apply load_row_quiet.
  rewrite result_load_row, Hd.
  rewrite bool_decide_false by (by intros H; apply H).
  by apply IH.
Qed.

Lemma load_jsons_complete (dbMap : gmap string dashboardData)
    (jsons : list string) (docs : list dashboard) (w : World) :
  Forall2 (fun j doc => document w j = Some doc) jsons docs ->
  forall m : gmap string dashboardData,
  NoDup (UID <$> docs) ->
  (forall doc, doc ∈ docs -> is_Some (dbMap !! UID doc)) ->
  (forall doc, doc ∈ docs -> m !! UID doc = None) ->
  exists m', result (forM (load_json dbMap) m jsons w) = Done m'.
Proof.
  induction 1 as [|j doc jsons docs Hdoc _ IH]; intros m Hnd Hdb Hm;
    [by eexists|].
  rewrite fmap_cons in Hnd. apply NoDup_cons in Hnd as [Hfresh Hnd].
  rewrite forM_cons_quiet by apply load_json_quiet.
  rewrite result_load_json. unfold document in Hdoc.
  destruct (ReadFile w j) as [bytes|]; [|done]. rewrite Hdoc.
  destruct (Hdb doc) as [dbDash ->]; [left|].
  rewrite (Hm doc) by left.
  apply IH; [done| |].
  - intros d Hd. apply Hdb. by right.
  - intros d Hd. rewrite lookup_insert_ne; [apply Hm; by right|].
    intros Heq. apply Hfresh. rewrite Heq.
    apply list_elem_of_fmap. by exists d.
Qed.

(** The uids that [dbMap] knows are those that the rows embed. *)
Lemma dbMap_lookup (d : Database) (w : World)
    (dbMap : gmap string dashboardData) (uid : string) :
  result (forM load_row ∅ (dashboard_tbl d) w) = Done dbMap ->
  is_Some (dbMap !! uid) <->
  exists r, r ∈ dashboard_tbl d /\ uid_of_row r = Some uid.
Proof.
  intros Hrows. apply load_rows_spec in Hrows as [Hall Hm]. rewrite Hm.
  destruct (last _) as [r|] eqn:Hlast.
  - apply last_Some_elem_of, list_elem_of_filter in Hlast as [Hu Hr].
    destruct (proj1 (Forall_forall _ _) Hall r Hr) as (doc & -> & _).
    split; [eauto|]. intros _. by eexists.
  - rewrite lookup_empty. split; [by intros [? ?]|].
    intros (r & Hr & Hu). exfalso.
    apply last_None in Hlast.
    assert (Hin : r ∈ filter (fun r => uid_of_row r = Some uid)
                          (dashboard_tbl d))
      by (by apply list_elem_of_filter).
    rewrite Hlast in Hin. by apply elem_of_nil in Hin.
Qed.

Lemma import_completes (dbFile : string) (jsons : list string) (w : World) :
  is_Some (ReadFile w dbFile) -> rows_consistent (db w) ->
  jsons_importable w jsons ->
  result (importJsonsByUID dbFile jsons w) = Done tt.
Proof using range_perm.
  intros [contents Hc] Hall (docs & Hds & Hnd & Hrec).
  rewrite importJsonsByUID_unfold, Hc.
  destruct (load_rows_complete _ ∅ w Hall) as [dbMap Hrows].
  rewrite Hrows.
  destruct (load_jsons_complete dbMap jsons docs w Hds ∅ Hnd)
    as [jsonMap Hload].
  - intros doc Hdoc. apply (dbMap_lookup _ _ _ _ Hrows). by apply Hrec.
  - intros doc _. apply lookup_empty.
  - rewrite Hload.
    destruct (update_loop_backup dbFile contents dbMap
                (range _ jsonMap) w) as (st & Hr & _).
    simpl. by rewrite Hr.
Qed.

(** X5: [importJsonsByUID] runs to its end exactly when the database file
    can be read, every row of [dashboard] decodes and agrees with its title
    column, and the input files hold documents with distinct uids that all
    belong to records.  (Otherwise it stops, having written nothing.) *)
Theorem importJsonsByUID_completes_iff (dbFile : string)
    (jsons : list string) (w : World) :
  result (importJsonsByUID dbFile jsons w) = Done tt <->
  is_Some (ReadFile w dbFile) /\ rows_consistent (db w) /\
  jsons_importable w jsons.
Proof using range_perm.
  split; [|intros (H1 & H2 & H3); by apply import_completes].
  rewrite importJsonsByUID_unfold.
  destruct (ReadFile w dbFile) as [contents|]; [|done].
  destruct (result (forM load_row _ _ _)) as [dbMap|] eqn:Hrows; [|done].
  destruct (result (forM (load_json _) _ _ _)) as [jsonMap|] eqn:Hload;
    [|done].
  intros _. split; [by eexists|].
  pose proof (fun uid => dbMap_lookup _ _ _ uid Hrows) as Hdb.
  apply load_rows_spec in Hrows as [Hall _]. split; [done|].
  apply load_jsons_spec in Hload as (_ & HP & _ & docs & Hds & Hnd & _).
  exists docs. split_and!; [done|done|].
  intros doc Hdoc. apply Hdb.
  apply list_elem_of_lookup in Hdoc as [i Hi].
  destruct (Forall2_lookup_r _ _ _ _ _ Hds Hi) as (j & Hj & Hdj).
  destruct (HP j) as (bytes & doc' & dbDash & Hb & Hd' & Hlk & _);
    [by eapply list_elem_of_lookup_2|].
  unfold document in Hdj. rewrite Hb, Hd' in Hdj. injection Hdj as ->.
  by eexists.
Qed.

(** ** [importJsonsByUID]: the update loop *)

(** One iteration of the update loop, in full: what it counts, and what it
    writes when the document differs from its record. *)
Lemma update_one_effect (dbFile contents : string)
    (dbMap : gmap string dashboardData) (b : bool) (n : Z) (uid : string)
    (dd : dashboardData) (w : World) :
  let ddWas := default zero_dashboardData (dbMap !! uid) in
  let same := Title (dash ddWas) = Title (dash dd) /\ slug ddWas = slug dd
              /\ data ddWas = data dd in
  runs (update_one dbFile contents dbMap (b, n) (uid, dd)) w (fun e w' r =>
    exists b' n', r = Done (b', n') /\
    ((n' = n /\ b' = b /\ changed e = false /\ same) \/
     (n' = n + 1 /\ b' = true /\ changed e = true)) /\
    (same -> updates e = [] /\ sidecars e = []) /\
    (~ same ->
       updates e = [id dd] /\
       sidecars e = [(fn dd +:+ ".was", data ddWas)] /\
       rows_with (id dd) (db w')
       = (fun _ => mkRow (id dd) (Title (dash dd)) (slug dd) (data dd))
           <$> rows_with (id dd) (db w))).
Proof using range_perm.
  intros ddWas same. unfold update_one, runs. simpl. fold ddWas.
  destruct (updateTags_run (id dd) (Tags (dash dd))
              (UID (dash dd) +:+ " " +:+ Title (dash dd)) w)
    as (e1 & w1 & u & HT & Hon & Hbk & Hsc & Hup & Hch & Htbl & Hfs & Hck).
  assert (Hsame : bool_decide (Title (dash ddWas) = Title (dash dd))
                  && bool_decide (slug ddWas = slug dd)
                  && bool_decide (data ddWas = data dd) = bool_decide same).
  { unfold same. by rewrite !bool_decide_and, andb_assoc. }
  rewrite Hsame. clear Hsame.
  destruct (bool_decide (Debug > 1));
    cbv [mbind M_bind mret M_ret printf]; rewrite HT; clear HT.
  all: destruct (decide same) as [Hs|Hs];
    [rewrite (bool_decide_true _ Hs)|rewrite (bool_decide_false _ Hs)].
  all: destruct u, b, (bool_decide (Debug > 0)).
  all: cbv [events world result mbind M_bind mret M_ret printf exec writeFile
            UnixNano backup_once backupFunc]; cbn [fst snd db files clock].
  all: eexists _, _; split; [reflexivity|].
  all: split_and!.
  all: try (intros; contradiction).
  all: try (intros _; events_simpl; by rewrite Hup, Hsc).
  all: try (events_simpl; rewrite Hch; simpl; rewrite ?orb_true_r;
            (by left) || (by right)).
  all: intros _; events_simpl; rewrite Hup, Hsc; split_and!; try done.
  all: rewrite <- (rows_with_tbl _ _ _ Htbl).
  all: apply (rows_with_update (id dd) _ _ _ (db w1)).
Qed.

(** The update loop counts: [nImp] grows by one for each document that
    changed something, and a sidecar is written with each update of a row. *)
Lemma update_loop_count (dbFile contents : string)
    (dbMap : gmap string dashboardData)
    (items : list (string * dashboardData)) :
  forall (b : bool) (n : Z) (w : World),
  runs (forM (update_one dbFile contents dbMap) (b, n) items) w
    (fun e _ r =>
       exists b' n', r = Done (b', n') /\
       n + Z.of_nat (length (updates e)) <= n'
         <= n + Z.of_nat (length items) /\
       (n' = n <-> changed e = false) /\
       length (sidecars e) = length (updates e)).
Proof using range_perm.
  induction items as [|[uid dd] items IH]; intros b n w.
  - unfold runs, events, result; simpl. exists b, n.
    split_and!; [done|lia|lia|done|done].
  - simpl. apply runs_bind.
    eapply runs_weaken; [apply update_one_effect|]. simpl.
    intros e1 w1 r1 (b1 & n1 & -> & Hn & Hsame & Hdiff).
    eapply runs_weaken; [apply IH|]. simpl.
    intros e2 w2 r2 (b2 & n2 & -> & Hle & Hzero & Hsc).
    exists b2, n2. split; [done|].
    rewrite updates_app, sidecars_app, changed_app, !List.length_app.
    assert (Hlen : length (sidecars e1) = length (updates e1)
                   /\ (length (updates e1) <= 1)%nat
                   /\ (updates e1 = [] \/ n1 = n + 1)).
    { destruct Hn as [(_ & _ & _ & Hs)|(Hn & _)].
      - destruct (Hsame Hs) as [-> ->]. simpl. split_and!; auto.
      - destruct (decide (Title (dash (default zero_dashboardData
                                          (dbMap !! uid))) = Title (dash dd)
                          /\ slug (default zero_dashboardData (dbMap !! uid))
                             = slug dd
                          /\ data (default zero_dashboardData (dbMap !! uid))
                             = data dd)) as [Hs|Hs].
        + destruct (Hsame Hs) as [-> ->]. simpl. split_and!; auto.
        + destruct (Hdiff Hs) as (-> & -> & _). simpl. split_and!; auto. }
    destruct Hlen as (Hl1 & Hl2 & Hl3).
    split_and!.
    + destruct Hl3 as [Hl3|Hl3]; [rewrite Hl3 in *; simpl in *|];
        destruct Hn as [(-> & _)|(-> & _)]; lia.
    + destruct Hn as [(-> & _)|(-> & _)]; lia.
    + destruct Hn as [(-> & _ & -> & _)|(-> & _ & ->)]; simpl.
      * done.
      * split; [lia|done].
    + lia.
Qed.

Lemma load_jsons_size (dbMap : gmap string dashboardData)
    (jsons : list string) :
  forall (m : gmap string dashboardData) (w : World) m',
  result (forM (load_json dbMap) m jsons w) = Done m' ->
  size m' = (size m + length jsons)%nat.
Proof.
  induction jsons as [|j jsons IH]; intros m w m'.
  - intros [= ->]. simpl. lia.
  - rewrite forM_cons_quiet by apply load_json_quiet.
    rewrite result_load_json.
    destruct (ReadFile w j) as [bytes|]; [|done].
    destruct (Unmarshal bytes zero_dashboard) as [d|]; [|done].
    destruct (dbMap !! UID d) as [dbDash|]; [|done].
    destruct (m !! UID d) eqn:Hm; [done|].
    intros Hrun. apply IH in Hrun. rewrite Hrun.
    rewrite map_size_insert_None by done. simpl. lia.
Qed.

Lemma load_rows_dom (rows : list dashboard_row) :
  forall (m : gmap string dashboardData) (w : World) m',
  result (forM load_row m rows w) = Done m' ->
  dom m' = dom m ∪ list_to_set (omap uid_of_row rows).
Proof.
  induction rows as [|r rows IH]; intros m w m'.
  - intros [= ->]. simpl. by rewrite (right_id_L ∅ (∪)).
  - rewrite forM_cons_quiet by apply load_row_quiet.
    rewrite result_load_row. simpl. unfold uid_of_row at 1.
    destruct (Unmarshal (row_data r) zero_dashboard) as [d|]; [|done].
    case_bool_decide; [done|].
    intros Hrun. apply IH in Hrun. rewrite Hrun, dom_insert_L. simpl.
    by rewrite (comm_L (∪) {[UID d]} (dom m)), (assoc_L (∪)).
Qed.

Lemma size_list_to_set_remove_dups (l : list string) :
  size (list_to_set (C := gset string) l) = length (remove_dups l).
Proof.
  rewrite <- (size_list_to_set (C := gset string) (remove_dups l))
    by apply NoDup_remove_dups.
  f_equal. apply set_eq. intros x.
  by rewrite !elem_of_list_to_set, elem_of_remove_dups.
Qed.

(** X6: the last line of a run of [importJsonsByUID] that reaches its end.
    Its first number counts the uids that the rows of [dashboard] embed (not
    the rows); its second is the number of input files; its third lies
    between the number of rows updated and the number of input files, and is
    zero exactly when nothing has changed. *)
Theorem importJsonsByUID_summary (dbFile : string) (jsons : list string)
    (w : World) :
  let run := importJsonsByUID dbFile jsons w in
  result run = Done tt ->
  exists e nImp,
    events run =
      e ++ [Printf (MsgSummary
                      (Z.of_nat (length (remove_dups
                         (omap uid_of_row (dashboard_tbl (db w))))))
                      (Z.of_nat (length jsons)) nImp)] /\
    Z.of_nat (length (updates e)) <= nImp <= Z.of_nat (length jsons) /\
    (nImp = 0 <-> changed e = false).
Proof using range_perm.
  simpl. rewrite importJsonsByUID_unfold.
  destruct (ReadFile w dbFile) as [contents|]; [|done].
  destruct (result (forM load_row _ _ _)) as [dbMap|] eqn:Hrows; [|done].
  destruct (result (forM (load_json _) _ _ _)) as [jsonMap|] eqn:Hload;
    [|done].
  apply load_rows_dom in Hrows. apply load_jsons_size in Hload.
  rewrite map_size_empty in Hload. simpl in Hload.
  assert (HnDb : size dbMap
                 = length (remove_dups (omap uid_of_row
                                          (dashboard_tbl (db w))))).
  { rewrite <- size_list_to_set_remove_dups, <- size_dom, Hrows.
    f_equal. by rewrite dom_empty_L, (left_id_L ∅ (∪)). }
  pose proof (update_loop_count dbFile contents dbMap (range _ jsonMap)
                false 0 w) as Hloop.
  unfold runs in Hloop.
  destruct Hloop as (b' & n' & Hr & Hle & Hzero & _).
  simpl. rewrite Hr. unfold events at 1, result at 1; simpl. intros _.
  eexists _, n'. rewrite HnDb, Hload. split; [done|].
  assert (Hlen : length (range dashboardData jsonMap) = length jsons).
  { rewrite (range_perm _ jsonMap), <- Hload. apply length_map_to_list. }
  rewrite Hlen in Hle. split; [lia|done].
Qed.

(** A loop that never stops the process reaches [Goal] when one of its
    items establishes it from [Inv], the items before that one keep [Inv],
    and every item keeps [Goal]. *)
Lemma runs_forM_reach {S X} (body : S -> X -> M S) (l : list X) (x0 : X)
    (Inv Goal : list Event -> World -> S -> Prop) :
  (forall e w s x, x ∈ l -> Inv e w s ->
     runs (body s x) w (fun e' w' r =>
       exists s', r = Done s' /\
         (Goal (e ++ e') w' s' \/ (x ≠ x0 /\ Inv (e ++ e') w' s')))) ->
  (forall e w s x, x ∈ l -> Goal e w s ->
     runs (body s x) w (fun e' w' r =>
       exists s', r = Done s' /\ Goal (e ++ e') w' s')) ->
  x0 ∈ l ->
  forall e w s, Inv e w s ->
    runs (forM body s l) w (fun e' w' r =>
      exists s', r = Done s' /\ Goal (e ++ e') w' s').
Proof.
  induction l as [|x l IH]; intros Hreach Hkeep Hin e w s HI.
  - by apply elem_of_nil in Hin.
  - simpl. apply runs_bind.
    eapply runs_weaken; [apply (Hreach e w s x); [left|done]|]. simpl.
    intros e1 w1 r1 (s1 & -> & [HG|[Hne HI1]]).
    + eapply runs_weaken.
      * apply (runs_forM body l Goal (fun _ _ _ => False))
          with (e := e ++ e1) (s := s1); [|done].
        intros e2 w2 s2 x2 Hx2 HG2.
        eapply runs_weaken; [apply (Hkeep e2 w2 s2 x2); [by right|done]|].
        simpl. by intros e3 w3 r3 (s3 & -> & HG3).
      * simpl. intros e2 w2 [s2|err] H2; [|done].
        exists s2. by rewrite app_assoc.
    + apply elem_of_cons in Hin as [->|Hin]; [done|].
      eapply runs_weaken.
      * apply (IH (fun e w s x Hx => Hreach e w s x
                     (list_elem_of_further _ _ _ Hx))
                  (fun e w s x Hx => Hkeep e w s x
                     (list_elem_of_further _ _ _ Hx))
                  Hin (e ++ e1) w1 s1 HI1).
      * simpl. intros e2 w2 r2 (s2 & -> & HG2).
        exists s2. by rewrite app_assoc.
Qed.

(** The update loop writes the document that differs from its record: the
    rows of the record take the document's title, slug and data, and the old
    data goes to the sidecar file. *)
Lemma update_loop_writes (dbFile contents : string)
    (dbMap : gmap string dashboardData)
    (items : list (string * dashboardData)) (uid : string)
    (dd : dashboardData) (st : bool * Z) (w : World) :
  let ddWas := default zero_dashboardData (dbMap !! uid) in
  (uid, dd) ∈ items ->
  (forall x, x ∈ items -> x = (uid, dd) \/ id x.2 ≠ id dd) ->
  ~ (Title (dash ddWas) = Title (dash dd) /\ slug ddWas = slug dd
     /\ data ddWas = data dd) ->
  runs (forM (update_one dbFile contents dbMap) st items) w
    (fun e w' r =>
       (exists st', r = Done st') /\
       rows_with (id dd) (db w')
       = (fun _ => mkRow (id dd) (Title (dash dd)) (slug dd) (data dd))
           <$> rows_with (id dd) (db w) /\
       (fn dd +:+ ".was", data ddWas) ∈ sidecars e /\
       id dd ∈ updates e).
Proof using range_perm.
  intros ddWas Hin Hothers Hdiff.
  eapply runs_weaken.
  - apply (runs_forM_reach (update_one dbFile contents dbMap) items (uid, dd)
      (fun _ w' _ => rows_with (id dd) (db w') = rows_with (id dd) (db w))
      (fun e w' _ =>
         rows_with (id dd) (db w')
         = (fun _ => mkRow (id dd) (Title (dash dd)) (slug dd) (data dd))
             <$> rows_with (id dd) (db w) /\
         (fn dd +:+ ".was", data ddWas) ∈ sidecars e /\
         id dd ∈ updates e))
      with (e := []); [| |done|done].
    + intros e w1 [b n] [uid' dd'] Hx HI.
      pose proof (update_one_effect dbFile contents dbMap b n uid' dd' w1)
        as He.
      pose proof (update_one_spec dbFile contents dbMap b n uid' dd' w1)
        as Hs.
      unfold runs in *.
      destruct (update_one _ _ _ _ _ w1) as [[e' w'] r].
      unfold events, world, result in *; simpl in *.
      destruct He as (b' & n' & -> & _ & _ & Hd).
      destruct Hs as (_ & _ & Hframe).
      exists (b', n'). split; [done|].
      destruct (Hothers _ Hx) as [[= -> ->]|Hne].
      * left. destruct (Hd Hdiff) as (Hup & Hsc & Hrw).
        rewrite sidecars_app, updates_app, Hup, Hsc, Hrw, HI.
        split_and!; [done| |]; apply elem_of_app; right; left.
      * right. split; [by intros [= _ ->]|].
        destruct (Hframe (id dd)) as [-> _]; [by intros Heq|done].
    + intros e w1 [b n] [uid' dd'] Hx (HR & Hsc & Hup).
      pose proof (update_one_effect dbFile contents dbMap b n uid' dd' w1)
        as He.
      pose proof (update_one_spec dbFile contents dbMap b n uid' dd' w1)
        as Hs.
      unfold runs in *.
      destruct (update_one _ _ _ _ _ w1) as [[e' w'] r].
      unfold events, world, result in *; simpl in *.
      destruct He as (b' & n' & -> & _ & _ & Hd).
      destruct Hs as (_ & _ & Hframe).
      exists (b', n'). split; [done|].
      rewrite sidecars_app, updates_app, !elem_of_app.
      split_and!; [|by left|by left].
      destruct (Hothers _ Hx) as [[= -> ->]|Hne].
      * destruct (Hd Hdiff) as (_ & _ & ->). rewrite HR.
        by rewrite <- list_fmap_compose.
      * destruct (Hframe (id dd)) as [-> _]; [by intros Heq|done].
  - simpl. intros e w' r (st' & -> & HG). split; [by eexists|done].
Qed.

(** What the update loop is given for an input file whose document has a
    record: the entry of the document, made with the id of that record, and
    besides it only entries of other records. *)
Lemma update_loop_items (jsons : list string) (w : World) (j bytes : string)
    (d : dashboard) (r : dashboard_row)
    (dbMap jsonMap : gmap string dashboardData) :
  NoDup (row_id <$> dashboard_tbl (db w)) ->
  j ∈ jsons -> ReadFile w j = Some bytes ->
  Unmarshal bytes zero_dashboard = Some d ->
  matched_record (db w) (UID d) r ->
  result (forM load_row ∅ (dashboard_tbl (db w)) w) = Done dbMap ->
  result (forM (load_json dbMap) ∅ jsons w) = Done jsonMap ->
  exists dr,
    row_title r = Title dr /\
    dbMap !! UID d = Some (record_data r dr) /\
    let dd := json_data (record_data r dr) d bytes j in
    (UID d, dd) ∈ range _ jsonMap /\
    forall x, x ∈ range _ jsonMap -> x = (UID d, dd) \/ id x.2 ≠ row_id r.
Proof using range_perm.
  intros Hpk Hj Hb Hd Hmatch Hrows Hload.
  assert (Hr : r ∈ dashboard_tbl (db w)).
  { apply last_Some_elem_of, list_elem_of_filter in Hmatch. ptauto. }
  apply load_rows_spec in Hrows as [Hall Hdb].
  apply load_jsons_spec in Hload as (_ & HP & HQ & _).
  destruct (proj1 (Forall_forall _ _) Hall r Hr) as (dr & Hdr & Htr).
  assert (HdbMap : dbMap !! UID d = Some (record_data r dr)).
  { rewrite Hdb. unfold matched_record in Hmatch. by rewrite Hmatch, Hdr. }
  destruct (HP j Hj) as (bytes' & d' & dbDash & Hb' & Hd' & Hdb' & _ & Hjson).
  assert (bytes' = bytes) as -> by congruence.
  assert (d' = d) as -> by congruence.
  assert (dbDash = record_data r dr) as -> by congruence.
  exists dr. split; [done|]. split; [done|]. simpl. split.
  - apply elem_of_map_to_list in Hjson.
    by rewrite <- (range_perm _ jsonMap) in Hjson.
  - intros [uid dd] Hin.
    assert (Hlk : jsonMap !! uid = Some dd).
    { apply elem_of_map_to_list. by rewrite <- (range_perm _ jsonMap). }
    destruct (decide (uid = UID d)) as [->|Hne].
    + left. rewrite Hjson in Hlk. by injection Hlk as <-.
    + right. destruct (HQ uid dd Hlk) as [He|He];
        [by rewrite lookup_empty in He|].
      destruct He as (j' & b' & d' & dbDash' & _ & _ & _ & Hu' & Hdb'' & ->).
      simpl. rewrite Hdb in Hdb''.
      destruct (last _) as [r'|] eqn:Hlast;
        [|by rewrite lookup_empty in Hdb''].
      apply last_Some_elem_of, list_elem_of_filter in Hlast as [Hur' Hr'].
      destruct (Unmarshal (row_data r') zero_dashboard) as [dr'|] eqn:Hdr';
        [|done].
      injection Hdb'' as <-. simpl. intros Hid.
      assert (r' = r) as -> by (by eapply primary_key_inj).
      unfold uid_of_row in Hur'. rewrite Hdr in Hur'.
      apply last_Some_elem_of, list_elem_of_filter in Hmatch as [Hur _].
      unfold uid_of_row in Hur. rewrite Hdr in Hur. simpl in *. congruence.
Qed.

(** X7: in a run of [importJsonsByUID] that reaches its end, a document
    that differs from the record of its uid in title, computed slug or
    canonical data is written to that record: its row then holds the
    document's title, the slug computed from that title and the canonical
    form of the file's bytes, an [update dashboard] has been run for it, and
    the canonical form of the data the row held before has been written to
    the file named after the input file with [.was] appended.  ([id] is
    the primary key of [dashboard].) *)
Theorem changed_document_is_written (dbFile : string)
    (jsons : list string) (w : World) (j bytes : string) (d : dashboard)
    (r : dashboard_row) :
  NoDup (row_id <$> dashboard_tbl (db w)) ->
  j ∈ jsons -> ReadFile w j = Some bytes ->
  Unmarshal bytes zero_dashboard = Some d ->
  matched_record (db w) (UID d) r ->
  ~ (Title d = row_title r /\ Slugify (Title d) = row_slug r /\
     PrettyPrintJSON bytes = PrettyPrintJSON (row_data r)) ->
  let run := importJsonsByUID dbFile jsons w in
  result run = Done tt ->
  rows_with (row_id r) (db (world run))
  = [mkRow (row_id r) (Title d) (Slugify (Title d)) (PrettyPrintJSON bytes)] /\
  row_id r ∈ updates (events run) /\
  (j +:+ ".was", PrettyPrintJSON (row_data r)) ∈ sidecars (events run).
Proof using range_perm.
  intros Hpk Hj Hb Hd Hmatch Hdiff run.
  assert (Hr : r ∈ dashboard_tbl (db w)).
  { apply last_Some_elem_of, list_elem_of_filter in Hmatch. ptauto. }
  unfold run. rewrite importJsonsByUID_unfold.
  destruct (ReadFile w dbFile) as [contents|]; [|done].
  destruct (result (forM load_row _ _ _)) as [dbMap|] eqn:Hrows; [|done].
  destruct (result (forM (load_json _) _ _ _)) as [jsonMap|] eqn:Hload;
    [|done].
  intros _.
  destruct (update_loop_items jsons w j bytes d r dbMap jsonMap
              Hpk Hj Hb Hd Hmatch Hrows Hload)
    as (dr & Htr & HdbMap & Hitem & Hothers).
  pose proof (update_loop_writes dbFile contents dbMap (range _ jsonMap)
                (UID d) (json_data (record_data r dr) d bytes j)
                (false, 0) w) as Hloop.
  unfold runs in Hloop. rewrite HdbMap in Hloop. simpl in Hloop.
  destruct Hloop as ([st Hst] & Hrw & Hsc & Hup); [done|done| |].
  - intros (H1 & H2 & H3). apply Hdiff. split_and!; congruence.
  - simpl. revert Hst Hrw Hsc Hup.
    destruct (forM (update_one dbFile contents dbMap) (false, 0)
                   (range dashboardData jsonMap) w) as [[e w'] res].
    unfold events, world, result; simpl. intros -> Hrw Hsc Hup. simpl.
    rewrite updates_app, sidecars_app, !elem_of_app.
    rewrite Hrw, (rows_with_primary_key (db w) r Hpk Hr).
    split_and!; [done|by left|by left].
Qed.

Lemma tags_of_update (did : Z) (t sl dt : string) (i : Z) (d : Database) :
  tags_of did (run_sql (UpdateDashboard t sl dt i) d) = tags_of did d.
Proof. done. Qed.

Lemma tags_of_tag (did : Z) (d d' : Database) :
  dashboard_tag d' = dashboard_tag d -> tags_of did d' = tags_of did d.
Proof. unfold tags_of. by intros ->. Qed.

(** One iteration of the update loop, as far as tags go. *)
Lemma update_one_tags (dbFile contents : string)
    (dbMap : gmap string dashboardData) (st : bool * Z) (uid : string)
    (dd : dashboardData) (w : World) :
  runs (update_one dbFile contents dbMap st (uid, dd)) w (fun e w' r =>
    (forall did, did ≠ id dd -> tags_of did (db w') = tags_of did (db w)) /\
    (Forall plain_tag (Tags (dash dd)) ->
     Forall plain_tag (tags_of (id dd) (db w)) ->
     forall t, t ∈ tags_of (id dd) (db w') <-> t ∈ Tags (dash dd))).
Proof using range_perm.
  unfold update_one, runs. simpl.
  pose proof (updateTags_spec (id dd) (Tags (dash dd))
                (UID (dash dd) +:+ " " +:+ Title (dash dd)) w) as HT.
  unfold runs in HT.
  destruct (updateTags (id dd) (Tags (dash dd))
              (UID (dash dd) +:+ " " +:+ Title (dash dd)) w)
    as [[e1 w1] r1] eqn:HTeq.
  unfold events, world, result in HT; simpl in HT.
  destruct HT as (-> & Hfast & Hslow & _ & _ & _ & _ & Hother).
  set (u := bool_decide _) in HTeq. clearbody u.
  assert (Htags : Forall plain_tag (Tags (dash dd)) ->
                  Forall plain_tag (tags_of (id dd) (db w)) ->
                  forall t, t ∈ tags_of (id dd) (db w1) <-> t ∈ Tags (dash dd)).
  { intros HA HB.
    destruct (decide (Join (sort_Strings (Tags (dash dd))) ","
                      ≠ Join (sort_Strings (tags_of (id dd) (db w))) ","))
      as [Hd|Hd].
    - by destruct (Hslow Hd) as (_ & _ & Hm & _).
    - destruct (Hfast Hd) as [_ ->]. intros t. symmetry.
      apply plain_tags_joined; [done|done|].
      by destruct (decide (Join (sort_Strings (Tags (dash dd))) ","
                           = Join (sort_Strings (tags_of (id dd) (db w)))
                               ",")). }
  destruct (bool_decide (Debug > 1));
    cbv [mbind M_bind mret M_ret printf]; rewrite HTeq.
  all: destruct (bool_decide (Title _ = _) && _ && _), u, st as [[|] n],
         (bool_decide (Debug > 0)).
  all: cbv [events world result mbind M_bind mret M_ret printf exec writeFile
            UnixNano backup_once backupFunc]; cbn [fst snd db files clock].
  all: rewrite ?tags_of_update; split; [exact Hother|exact Htags].
Qed.

(** X8: in a run of [importJsonsByUID] that reaches its end, the tags in
    [dashboard_tag] of the record of an input document are, after the run,
    those of the document, for tags that are not empty and hold no comma.
    ([id] is the primary key of [dashboard].) *)
Theorem imported_tags_match (dbFile : string)
    (jsons : list string) (w : World) (j bytes : string) (d : dashboard)
    (r : dashboard_row) :
  NoDup (row_id <$> dashboard_tbl (db w)) ->
  j ∈ jsons -> ReadFile w j = Some bytes ->
  Unmarshal bytes zero_dashboard = Some d ->
  matched_record (db w) (UID d) r ->
  Forall plain_tag (Tags d) ->
  Forall plain_tag (tags_of (row_id r) (db w)) ->
  let run := importJsonsByUID dbFile jsons w in
  result run = Done tt ->
  forall t, t ∈ tags_of (row_id r) (db (world run)) <-> t ∈ Tags d.
Proof using range_perm.
  intros Hpk Hj Hb Hd Hmatch HA HB run.
  unfold run. rewrite importJsonsByUID_unfold.
  destruct (ReadFile w dbFile) as [contents|]; [|done].
  destruct (result (forM load_row _ _ _)) as [dbMap|] eqn:Hrows; [|done].
  destruct (result (forM (load_json _) _ _ _)) as [jsonMap|] eqn:Hload;
    [|done].
  intros _.
  destruct (update_loop_items jsons w j bytes d r dbMap jsonMap
              Hpk Hj Hb Hd Hmatch Hrows Hload)
    as (dr & Htr & HdbMap & Hitem & Hothers).
  assert (Hloop :
    runs (forM (update_one dbFile contents dbMap) (false, 0)
            (range _ jsonMap)) w
      (fun e w' res => exists st, res = Done st /\
         forall t, t ∈ tags_of (row_id r) (db w') <-> t ∈ Tags d)).
  { eapply runs_weaken.
    - apply (runs_forM_reach (update_one dbFile contents dbMap)
        (range _ jsonMap)
        (UID d, json_data (record_data r dr) d bytes j)
        (fun _ w' _ => tags_of (row_id r) (db w') = tags_of (row_id r) (db w))
        (fun _ w' _ =>
           forall t, t ∈ tags_of (row_id r) (db w') <-> t ∈ Tags d))
        with (e := []) (s := (false, 0)); [| |done|done].
      + intros e w1 s1 [uid' dd'] Hx HI.
        pose proof (update_one_tags dbFile contents dbMap s1 uid' dd' w1)
          as Ht.
        pose proof (update_one_spec dbFile contents dbMap s1.1 s1.2
                      uid' dd' w1) as Hs.
        destruct s1 as [b n]. unfold runs in *. simpl in Hs.
        destruct (update_one _ _ _ _ _ w1) as [[e' w'] res].
        unfold events, world, result in *; simpl in *.
        destruct Hs as ((b' & n' & -> & _) & _).
        destruct Ht as [Hother Htags]. eexists. split; [done|].
        destruct (Hothers _ Hx) as [[= -> ->]|Hne].
        * left. apply Htags; [done|]. simpl. by rewrite HI.
        * right. split; [by intros [= _ ->]|].
          rewrite Hother by (by intros Heq). done.
      + intros e w1 s1 [uid' dd'] Hx HG.
        pose proof (update_one_tags dbFile contents dbMap s1 uid' dd' w1)
          as Ht.
        pose proof (update_one_spec dbFile contents dbMap s1.1 s1.2
                      uid' dd' w1) as Hs.
        destruct s1 as [b n]. unfold runs in *. simpl in Hs.
        destruct (update_one _ _ _ _ _ w1) as [[e' w'] res].
        unfold events, world, result in *; simpl in *.
        destruct Hs as ((b' & n' & -> & _) & _).
        destruct Ht as [Hother Htags]. eexists. split; [done|].
        destruct (Hothers _ Hx) as [[= -> ->]|Hne].
        * apply Htags; [done|]. simpl.
          apply Forall_forall. intros t Ht.
          apply HG in Ht. by apply (proj1 (Forall_forall _ _) HA).
        * rewrite Hother by (by intros Heq). done.
    - simpl. intros e w' res (st & -> & HG). eauto. }
  unfold runs in Hloop. simpl.
  destruct (forM (update_one dbFile contents dbMap) (false, 0)
                 (range dashboardData jsonMap) w) as [[e w'] res].
  unfold events, world, result in *; simpl in *.
  destruct Hloop as (st & -> & HG). done.
Qed.

(** X9: [importJsonsByUID] leaves alone every dashboard that no input
    document is matched with: the rows with an id that is not the id of the
    record of any input document, and the tags stored for that id, are after
    the run what they were before it, and no [update dashboard] is run for
    it. *)
Theorem importJsonsByUID_frame (dbFile : string) (jsons : list string)
    (w : World) (id0 : Z) :
  (forall j d r, j ∈ jsons -> document w j = Some d ->
     matched_record (db w) (UID d) r -> row_id r ≠ id0) ->
  let run := importJsonsByUID dbFile jsons w in
  rows_with id0 (db (world run)) = rows_with id0 (db w) /\
  tags_of id0 (db (world run)) = tags_of id0 (db w) /\
  id0 ∉ updates (events run).
Proof using range_perm.
  intros Hother. simpl. rewrite importJsonsByUID_unfold.
  destruct (ReadFile w dbFile) as [contents|];
    [|split_and!; [done|done|apply not_elem_of_nil]].
  destruct (result (forM load_row _ _ _)) as [dbMap|] eqn:Hrows;
    [|split_and!; [done|done|apply not_elem_of_nil]].
  destruct (result (forM (load_json _) _ _ _)) as [jsonMap|] eqn:Hload;
    [|split_and!; [done|done|apply not_elem_of_nil]].
  apply load_rows_spec in Hrows as [Hall Hdb].
  apply load_jsons_spec in Hload as (_ & _ & HQ & _).
  assert (Hloop : runs (forM (update_one dbFile contents dbMap) (false, 0)
                          (range _ jsonMap)) w
            (fun e w' r =>
               rows_with id0 (db w') = rows_with id0 (db w) /\
               tags_of id0 (db w') = tags_of id0 (db w) /\
               id0 ∉ updates e)).
  { eapply runs_weaken.
    - apply (runs_forM _ (range _ jsonMap)
               (fun e w' _ =>
                  rows_with id0 (db w') = rows_with id0 (db w) /\
                  tags_of id0 (db w') = tags_of id0 (db w) /\
                  id0 ∉ updates e)
               (fun _ _ _ => False)) with (e := []) (s := (false, 0));
        [|split_and!; [done|done|apply not_elem_of_nil]].
      intros e w1 [b n] [uid dd] Hin (Hrw & Htg & Hup).
      assert (Hlk : jsonMap !! uid = Some dd).
      { apply elem_of_map_to_list. by rewrite <- (range_perm _ jsonMap). }
      destruct (HQ uid dd Hlk) as [He|He];
        [by rewrite lookup_empty in He|].
      destruct He as (j & bytes & d & dbDash & Hj & Hb & Hd & <- & Hlkdb & ->).
      assert (Hid : id (json_data dbDash d bytes j) ≠ id0).
      { rewrite Hdb in Hlkdb.
        destruct (last _) as [r|] eqn:Hlast;
          [|by rewrite lookup_empty in Hlkdb].
        destruct (Unmarshal (row_data r) zero_dashboard) as [dr|];
          [|done].
        injection Hlkdb as <-. simpl.
        apply (Hother j d r); [done| |done].
        unfold document. by rewrite Hb. }
      pose proof (update_one_tags dbFile contents dbMap (b, n) (UID d)
                    (json_data dbDash d bytes j) w1) as Ht.
      pose proof (update_one_spec dbFile contents dbMap b n (UID d)
                    (json_data dbDash d bytes j) w1) as Hs.
      unfold runs in *.
      destruct (update_one _ _ _ _ _ w1) as [[e' w'] res].
      unfold events, world, result in *; simpl in *.
      destruct Hs as ((b' & n' & -> & _) & _ & Hframe).
      destruct Ht as [Htags _].
      destruct (Hframe id0) as [Hrw' Hup']; [by intros Heq|].
      rewrite Hrw', Htags by (by intros Heq).
      split_and!; [done|done|].
      rewrite updates_app, elem_of_app. by intros [?|?].
    - simpl. by intros e w' [st|err]. }
  unfold runs in Hloop. simpl.
  destruct (forM (update_one dbFile contents dbMap) (false, 0)
                 (range dashboardData jsonMap) w) as [[e w'] [st|err]].
  - unfold events, world, result in *; simpl in *.
    destruct Hloop as (Hrw & Htg & Hup). split_and!; [done|done|].
    rewrite updates_app, elem_of_app. intros [?|H]; [done|].
    by apply elem_of_nil in H.
  - unfold events, world, result in *; by simpl in *.
Qed.

(** An iteration of the update loop on a document that the database holds
    already does nothing but, at most, print. *)
Lemma update_one_noop (dbFile contents : string)
    (dbMap : gmap string dashboardData) (st : bool * Z) (uid : string)
    (dd : dashboardData) (w : World) :
  let ddWas := default zero_dashboardData (dbMap !! uid) in
  Title (dash ddWas) = Title (dash dd) /\ slug ddWas = slug dd
    /\ data ddWas = data dd ->
  Tags (dash dd) ≡ₚ tags_of (id dd) (db w) ->
  runs (update_one dbFile contents dbMap st (uid, dd)) w (fun e w' r =>
    r = Done st /\ w' = w /\ changed e = false /\
    backups e = [] /\ sidecars e = []).
Proof using range_perm.
  intros ddWas Hsame Htags. unfold update_one, runs. simpl. fold ddWas.
  assert (HT : updateTags (id dd) (Tags (dash dd))
                 (UID (dash dd) +:+ " " +:+ Title (dash dd)) w
               = ([], w, Done false)).
  { pose proof (updateTags_spec (id dd) (Tags (dash dd))
                  (UID (dash dd) +:+ " " +:+ Title (dash dd)) w) as HT.
    unfold runs in HT.
    destruct (updateTags _ _ _ w) as [[e1 w1] r1].
    unfold events, world, result in HT; simpl in HT.
    destruct HT as (Hr & Hfast & _).
    rewrite (sort_Strings_Permutation _ _ Htags) in Hr, Hfast.
    rewrite bool_decide_false in Hr by (by intros H; apply H).
    destruct Hfast as [-> ->]; [by intros H; apply H|]. by rewrite Hr. }
  destruct Hsame as (Hs1 & Hs2 & Hs3).
  rewrite (bool_decide_true _ Hs1), (bool_decide_true _ Hs2),
    (bool_decide_true _ Hs3).
  destruct (bool_decide (Debug > 1)), st;
    cbv [mbind M_bind mret M_ret printf]; rewrite HT; by run_simpl.
Qed.

(** The run of [importJsonsByUID] on files that all hold what the database
    holds already: whether it stops or not, nothing changes. *)
Lemma import_up_to_date (dbFile : string) (jsons : list string) (w : World) :
  (forall j, j ∈ jsons -> up_to_date w j) ->
  let run := importJsonsByUID dbFile jsons w in
  world run = w /\ changed (events run) = false /\
  backups (events run) = [] /\ sidecars (events run) = [].
Proof using range_perm.
  intros Hjsons. simpl. rewrite importJsonsByUID_unfold.
  destruct (ReadFile w dbFile) as [contents|]; [|done].
  destruct (result (forM load_row _ _ _)) as [dbMap|] eqn:Hrows; [|done].
  destruct (result (forM (load_json _) _ _ _)) as [jsonMap|] eqn:Hload;
    [|done].
  apply load_rows_spec in Hrows as [Hall Hdb].
  apply load_jsons_spec in Hload as (_ & _ & HQ & _).
  assert (Hloop : runs (forM (update_one dbFile contents dbMap) (false, 0)
                          (range _ jsonMap)) w
            (fun e w' r => exists st, r = Done st /\ w' = w /\
               changed e = false /\ backups e = [] /\ sidecars e = [])).
  { eapply runs_weaken.
    - apply (runs_forM _ (range _ jsonMap)
               (fun e w' _ => w' = w /\ changed e = false /\
                  backups e = [] /\ sidecars e = [])
               (fun _ _ _ => False)) with (e := []) (s := (false, 0));
        [|done].
      intros e w1 st [uid dd] Hin (-> & Hc & Hbk & Hsc).
      assert (Hlk : jsonMap !! uid = Some dd).
      { apply elem_of_map_to_list. by rewrite <- (range_perm _ jsonMap). }
      destruct (HQ uid dd Hlk) as [He|He];
        [by rewrite lookup_empty in He|].
      destruct He as (j & bytes & d & dbDash & Hj & Hb & Hd & <- & Hlkdb & ->).
      destruct (Hjsons j Hj)
        as (bytes' & d' & r & Hb' & Hd' & Hm & Ht & Hsl & Hdata & Htags).
      assert (bytes' = bytes) as -> by congruence.
      assert (d' = d) as -> by congruence.
      assert (Hr : r ∈ dashboard_tbl (db w)).
      { apply last_Some_elem_of, list_elem_of_filter in Hm. ptauto. }
      destruct (proj1 (Forall_forall _ _) Hall r Hr) as (dr & Hdr & Htr).
      rewrite Hdb in Hlkdb. unfold matched_record in Hm.
      rewrite Hm, Hdr in Hlkdb. injection Hlkdb as <-.
      eapply runs_weaken.
      + apply update_one_noop.
        * rewrite Hdb, Hm, Hdr. simpl. split_and!; congruence.
        * done.
      + simpl. intros e' w' r' (-> & -> & Hc' & Hbk' & Hsc').
        by rewrite changed_app, backups_app, sidecars_app, Hc, Hbk, Hsc,
             Hc', Hbk', Hsc'.
    - simpl. intros e w' [st|err]; [eauto|done]. }
  unfold runs in Hloop. simpl.
  destruct (forM (update_one dbFile contents dbMap) (false, 0)
                 (range dashboardData jsonMap) w) as [[e w'] res].
  unfold events, world, result in *; simpl in *.
  destruct Hloop as (st & -> & -> & Hc & Hbk & Hsc). simpl.
  by rewrite changed_app, backups_app, sidecars_app, Hc, Hbk, Hsc.
Qed.

(** X10: [importJsonsByUID] of files that all hold what the database holds
    already changes nothing: the world after the run is the world before it,
    and the run executes no statement and writes neither a backup nor a
    sidecar; if it reaches its end, it reports that it has imported
    nothing. *)
Theorem importJsonsByUID_up_to_date (dbFile : string) (jsons : list string)
    (w : World) :
  (forall j, j ∈ jsons -> up_to_date w j) ->
  let run := importJsonsByUID dbFile jsons w in
  world run = w /\ statements (events run) = [] /\
  backups (events run) = [] /\ sidecars (events run) = [] /\
  (result run = Done tt ->
   exists e nDb nJSON, events run = e ++ [Printf (MsgSummary nDb nJSON 0)]).
Proof using range_perm.
  intros Hjsons run.
  destruct (import_up_to_date dbFile jsons w Hjsons)
    as (Hw & Hc & Hbk & Hsc).
  fold run in Hw, Hc, Hbk, Hsc.
  split_and!; [done|by apply unchanged_statements|done|done|].
  revert Hc. unfold run. rewrite importJsonsByUID_unfold.
  destruct (ReadFile w dbFile) as [contents|]; [|done].
  destruct (result (forM load_row _ _ _)) as [dbMap|]; [|done].
  destruct (result (forM (load_json _) _ _ _)) as [jsonMap|]; [|done].
  pose proof (update_loop_count dbFile contents dbMap (range _ jsonMap)
                false 0 w) as Hloop.
  unfold runs in Hloop. destruct Hloop as (b' & n' & Hr & _ & Hzero & _).
  simpl. rewrite Hr. unfold events at 1 3; simpl.
  rewrite changed_app. intros Hc _.
  apply orb_false_iff in Hc as [Hc _]. apply Hzero in Hc. subst n'.
  by eexists _, _, _.
Qed.

(** ** [importJsonsByTitle]: one item *)

Lemma arity_ok (jdata : string) :
  (length (Split jdata ";") = 1 \/ length (Split jdata ";") = 3)%nat ->
  bool_decide (length (Split jdata ";") ≠ 1%nat)
  && bool_decide (length (Split jdata ";") ≠ 3%nat) = false.
Proof. intros [->| ->]; by vm_compute. Qed.


(** An item whose record embeds the uid of its document, step by step. *)
Lemma import_one_matched (dbFile contents : string) (st : TitleState)
    (jdata : string) (w : World) (bytes : string) (dash : dashboard)
    (r : dashboard_row) (dash2 : dashboard) :
  resolves w st jdata bytes dash r dash2 -> UID dash = UID dash2 ->
  let ary := Split jdata ";"%char in
  let j := default EmptyString (ary !! 0%nat) in
  let q := title_update jdata bytes dash r in
  let tags := updateTags (row_id r) (Tags dash)
                (UID dash +:+ " " +:+ Title dash)
                (mkWorld (run_sql q (db w)) (files w) (clock w)) in
  let step := import_one dbFile contents st jdata w in
  exists msg bk,
    events step =
      Printf (MsgImporting (st_i st + 1) j ary) :: Exec q :: events tags ++
      Printf msg ::
      WriteFile Sidecar (j +:+ ".was") (PrettyPrintJSON (row_data r)) :: bk /\
    (if st_backedUp st then bk = []
     else exists path, bk = [WriteFile Backup path contents;
                             Printf (MsgBackedUp path)]) /\
    db (world step) = db (world tags) /\
    result step =
      Done (mkTitleState (st_i st + 1)
              (mkDashboard (Title dash) (UID dash) (sort_Strings (Tags dash)))
              dash2 true).
Proof using range_perm.
  intros (Hlen & Hb & Hd & Hr & Hd2) Huid ary j q tags step.
  subst step tags q ary j. unfold title_update, new_slug.
  unfold import_one, readFile, Query. cbv zeta.
  rewrite (arity_ok _ Hlen). cbv [mbind M_bind mret M_ret printf].
  rewrite Hb, Hd. cbn [db]. rewrite Hr, Hd2.
  rewrite bool_decide_false by (by intros H; apply H).
  cbv [exec]. cbn [db files clock].
  match goal with |- context [updateTags ?a ?b ?c ?w] =>
    destruct (updateTags_run a b c w) as (e1 & w1 & u & HT & _)
  end.
  rewrite HT; clear HT.
  destruct (bool_decide (Debug > 0)), (st_backedUp st) eqn:Hbk.
  all: cbv [events world result mbind M_bind mret M_ret printf exec
            writeFile UnixNano backup_once backupFunc];
    cbn [fst snd db files clock].
  all: eexists _, _; split; [|split; [|split; reflexivity]].
  all: try (rewrite <- ?app_assoc; simpl; rewrite ?app_nil_r; reflexivity).
  all: simpl; eauto.
Qed.


(** X12: an item of Title Matching whose document and record, decoded on
    their own, are what the loop holds for them, and whose record embeds the
    uid of its document, rewrites the rows of that record and no other row:
    they take the title of the document, the bytes of the file, and as slug
    the third part of the specifier.  With a bare file name the record was
    found by the document's title and keeps its slug, so that only its data
    changes; with three parts the record was found by the second part. *)
Theorem title_import_overrides (dbFile contents : string)
    (st : TitleState) (jdata : string) (w : World)
    (bytes : string) (dash : dashboard) (r : dashboard_row)
    (dash2 : dashboard) :
  resolves w st jdata bytes dash r dash2 ->
  decoded_alone bytes dash r dash2 ->
  UID dash = UID dash2 ->
  let ary := Split jdata ";"%char in
  let step := import_one dbFile contents st jdata w in
  dashboard_tbl (db (world step))
  = set_row (Title dash) (new_slug jdata r) bytes (row_id r)
      <$> dashboard_tbl (db w) /\
  (length ary = 1%nat ->
     Title dash = row_title r /\ new_slug jdata r = row_slug r) /\
  (length ary = 3%nat ->
     row_title r = default EmptyString (ary !! 1%nat) /\
     new_slug jdata r = default EmptyString (ary !! 2%nat)).
Proof using range_perm.
  intros Hres _ Huid ary step.
  destruct (import_one_matched dbFile contents st jdata w bytes dash r dash2
              Hres Huid) as (msg & bk & _ & _ & Hdb & _).
  fold step in Hdb. rewrite Hdb.
  destruct (updateTags_spec (row_id r) (Tags dash)
              (UID dash +:+ " " +:+ Title dash)
              (mkWorld (run_sql (title_update jdata bytes dash r) (db w))
                       (files w) (clock w)))
    as (_ & _ & _ & _ & Htbl & _).
  rewrite Htbl. split; [done|].
  destruct Hres as (_ & _ & _ & Hr & _).
  apply last_Some_elem_of, list_elem_of_filter in Hr as [Ht _].
  fold ary in Ht. unfold new_slug. fold ary.
  split; intros Hlen; rewrite Hlen in *; simpl in *; done.
Qed.

(** X13: the order of the writes of a matched item of Title Matching, one
    that resolves and whose two uids, as the loop compares them, are equal.
    The row is updated first, by the one
    [update dashboard] statement of the item; then the tags are reconciled;
    then the canonical form of the data that the row held before is written
    to the file named after the input file with [.was] appended; nothing is
    executed after that, and no other sidecar is written. *)
Theorem title_import_order (dbFile contents : string)
    (st : TitleState) (jdata : string) (w : World)
    (bytes : string) (dash : dashboard) (r : dashboard_row)
    (dash2 : dashboard) :
  resolves w st jdata bytes dash r dash2 ->
  UID dash = UID dash2 ->
  let ary := Split jdata ";"%char in
  let j := default EmptyString (ary !! 0%nat) in
  exists tag_events msg bk,
    events (import_one dbFile contents st jdata w) =
      [Printf (MsgImporting (st_i st + 1) j ary);
       Exec (title_update jdata bytes dash r)]
      ++ tag_events
      ++ [Printf msg;
          WriteFile Sidecar (j +:+ ".was") (PrettyPrintJSON (row_data r))]
      ++ bk /\
    Forall (touches_only (row_id r)) tag_events /\
    statements bk = [] /\ sidecars bk = [].
Proof using range_perm.
  intros Hres Huid ary j.
  destruct (import_one_matched dbFile contents st jdata w bytes dash r dash2
              Hres Huid) as (msg & bk & Hev & Hbk & _).
  destruct (updateTags_spec (row_id r) (Tags dash)
              (UID dash +:+ " " +:+ Title dash)
              (mkWorld (run_sql (title_update jdata bytes dash r) (db w))
                       (files w) (clock w)))
    as (_ & _ & _ & Hf & _).
  eexists _, msg, bk. split_and!; [exact Hev|exact Hf| |].
  - destruct (st_backedUp st); [by subst|]. by destruct Hbk as [path ->].
  - destruct (st_backedUp st); [by subst|]. by destruct Hbk as [path ->].
Qed.

(** X14: after an item of Title Matching whose document and record,
    decoded on their own, are what the loop holds for them, and whose record
    embeds the uid of its document, the tags of the record in
    [dashboard_tag] are those of the document, for tags that are not empty
    and hold no comma; the tags of every other dashboard are as before. *)
Theorem title_import_tags (dbFile contents : string)
    (st : TitleState) (jdata : string) (w : World)
    (bytes : string) (dash : dashboard) (r : dashboard_row)
    (dash2 : dashboard) :
  resolves w st jdata bytes dash r dash2 ->
  decoded_alone bytes dash r dash2 ->
  UID dash = UID dash2 ->
  Forall plain_tag (Tags dash) ->
  Forall plain_tag (tags_of (row_id r) (db w)) ->
  let step := import_one dbFile contents st jdata w in
  (forall t, t ∈ tags_of (row_id r) (db (world step)) <-> t ∈ Tags dash) /\
  (forall did, did ≠ row_id r ->
     tags_of did (db (world step)) = tags_of did (db w)).
Proof using range_perm.
  intros Hres _ Huid HA HB step.
  destruct (import_one_matched dbFile contents st jdata w bytes dash r dash2
              Hres Huid) as (msg & bk & _ & _ & Hdb & _).
  fold step in Hdb. rewrite Hdb.
  destruct (updateTags_spec (row_id r) (Tags dash)
              (UID dash +:+ " " +:+ Title dash)
              (mkWorld (run_sql (title_update jdata bytes dash r) (db w))
                       (files w) (clock w)))
    as (_ & Hfast & Hslow & _ & _ & _ & _ & Hother).
  split; [|exact Hother].
  change (tags_of (row_id r)
            (db (mkWorld (run_sql (title_update jdata bytes dash r) (db w))
                         (files w) (clock w))))
    with (tags_of (row_id r) (db w)) in Hfast, Hslow.
  destruct (decide (Join (sort_Strings (Tags dash)) ","
                    ≠ Join (sort_Strings (tags_of (row_id r) (db w))) ","))
    as [Hd|Hd].
  - by destruct (Hslow Hd) as (_ & _ & Hm & _).
  - destruct (Hfast Hd) as [_ ->]. intros t. symmetry.
    apply plain_tags_joined; [done|done|].
    by destruct (decide (Join (sort_Strings (Tags dash)) ","
                         = Join (sort_Strings (tags_of (row_id r) (db w)))
                             ",")).
Qed.

(** ** [importJsonsByTitle]: the run *)

Lemma forM_app {S X} (body : S -> X -> M S) (l1 l2 : list X) :
  forall (s : S) (w : World),
  forM body s (l1 ++ l2) w = (s' ← forM body s l1; forM body s' l2) w.
Proof.
  induction l1 as [|x l1 IH]; intros s w.
  - simpl. cbv [mbind M_bind mret M_ret].
    by destruct (forM body s l2 w) as [[e w'] r].
  - simpl. cbv [mbind M_bind] in *.
    destruct (body s x w) as [[e1 w1] [s1|err]]; [|done].
    rewrite IH.
    destruct (forM body s1 l1 w1) as [[e2 w2] [s2|err]]; [|done].
    destruct (forM body s2 l2 w2) as [[e3 w3] r3].
    by rewrite app_assoc.
Qed.

(** X15: [importJsonsByTitle] does not check its arguments before it
    starts.  An item whose specifier has neither one nor three parts stops
    the process when its turn comes: the items before it have been imported
    and stay so, the diagnostic is printed, and the items after it are never
    looked at. *)
Theorem malformed_specifier_stops_run (dbFile : string)
    (pre : list string) (jdata : string) (rest : list string) (w : World) :
  length (Split jdata ";") ≠ 1%nat ->
  length (Split jdata ";") ≠ 3%nat ->
  result (importJsonsByTitle dbFile pre w) = Done tt ->
  let run := importJsonsByTitle dbFile (pre ++ jdata :: rest) w in
  result run = Fatal ErrArity /\
  events run = events (importJsonsByTitle dbFile pre w)
               ++ [Printf (MsgFatal ErrArity)] /\
  world run = world (importJsonsByTitle dbFile pre w).
Proof.
  intros H1 H3. simpl.
  assert (Hbad : forall contents st w',
    import_one dbFile contents st jdata w' = Fatalf ErrArity w').
  { intros contents st w'. unfold import_one. cbv zeta.
    by rewrite !bool_decide_true by done. }
  unfold importJsonsByTitle, readFile.
  cbv [mbind M_bind mret M_ret].
  destruct (ReadFile w dbFile) as [contents|]; [|done].
  rewrite forM_app. cbv [mbind M_bind].
  destruct (forM _ _ pre w) as [[e1 w1] [st1|err]]; [|done].
  intros _. simpl. cbv [mbind M_bind]. rewrite Hbad.
  unfold events, world, result; simpl. by rewrite !app_nil_r.
Qed.



(** ** [exportJsons] *)

Lemma append_inv_tail (s1 s2 t : string) : s1 +:+ t = s2 +:+ t -> s1 = s2.
Proof.
  revert s2. induction s1 as [|a s1 IH]; intros [|b s2] H; [done| | |].
  - exfalso. apply (f_equal String.length) in H.
    change (EmptyString +:+ t) with t in H.
    rewrite length_app in H. simpl in H. lia.
  - exfalso. apply (f_equal String.length) in H.
    change (EmptyString +:+ t) with t in H.
    rewrite length_app in H. simpl in H. lia.
  - change (String a (s1 +:+ t) = String b (s2 +:+ t)) in H.
    injection H as -> H. by rewrite (IH _ H).
Qed.

Lemma export_fn_inj (s1 s2 : string) : export_fn s1 = export_fn s2 -> s1 = s2.
Proof.
  unfold export_fn. intros H. apply (inj (String.append "sqlite/")) in H.
  by apply append_inv_tail in H.
Qed.

Lemma export_fold_files (rows : list dashboard_row) :
  forall (acc : list Exported * gmap string string) (p : string),
  (foldl export_row acc rows).2 !! p =
    match last (filter (fun r => export_fn (row_slug r) = p) rows) with
    | Some r => Some (PrettyPrintJSON (row_data r))
    | None => acc.2 !! p
    end.
Proof.
  induction rows as [|r rows IH]; intros acc p; [done|].
  simpl. rewrite IH, filter_cons.
  destruct (decide (export_fn (row_slug r) = p)) as [<-|Hne].
  - rewrite last_cons. destruct (last (filter _ rows)); [done|].
    simpl. by rewrite lookup_insert_eq.
  - destruct (last (filter _ rows)); [done|].
    simpl. by rewrite lookup_insert_ne.
Qed.

Lemma export_file_of_row (dbFile : string) (w : World) (r : dashboard_row) :
  NoDup (row_slug <$> dashboard_tbl (db w)) -> r ∈ dashboard_tbl (db w) ->
  files (exportJsons dbFile w).2 !! export_fn (row_slug r)
  = Some (PrettyPrintJSON (row_data r)).
Proof.
  intros Hnd Hr. simpl. unfold select_dashboards. rewrite export_fold_files.
  destruct (last _) as [r'|] eqn:Hlast.
  - apply last_Some_elem_of, list_elem_of_filter in Hlast as [Hfn Hr'].
    apply export_fn_inj in Hfn.
    apply list_elem_of_lookup in Hr as [i Hi].
    apply list_elem_of_lookup in Hr' as [i' Hi'].
    assert (i' = i) as ->; [|congruence].
    apply (NoDup_lookup (row_slug <$> dashboard_tbl (db w)) i' i
             (row_slug r)); [done| |].
    + rewrite list_lookup_fmap, Hi'. simpl. by rewrite Hfn.
    + by rewrite list_lookup_fmap, Hi.
  - exfalso. apply last_None in Hlast.
    assert (Hin : r ∈ filter (fun r0 => export_fn (row_slug r0)
                                        = export_fn (row_slug r))
                          (dashboard_tbl (db w)))
      by (by apply list_elem_of_filter).
    rewrite Hlast in Hin. by apply elem_of_nil in Hin.
Qed.

(** X17: the files after [exportJsons].  A file holds the canonical form
    of the data of the last row that was exported to it, and is as it was if
    no row was; so with slugs that differ from row to row, every row of
    [dashboard] has its file [sqlite/slug.json], holding the canonical form
    of its data. *)
Theorem exportJsons_files (dbFile : string) (w : World) :
  let w' := (exportJsons dbFile w).2 in
  (forall p,
     files w' !! p =
       match exported_to (db w) p with
       | Some r => Some (PrettyPrintJSON (row_data r))
       | None => files w !! p
       end) /\
  (NoDup (row_slug <$> dashboard_tbl (db w)) ->
   forall r, r ∈ dashboard_tbl (db w) ->
     files w' !! export_fn (row_slug r) = Some (PrettyPrintJSON (row_data r))).
Proof.
  split.
  - intros p. simpl. unfold exported_to, select_dashboards.
    apply export_fold_files.
  - intros Hnd r Hr. by apply export_file_of_row.
Qed.

Lemma one_row_per_uid (l : list dashboard_row) (r : dashboard_row)
    (uid : string) :
  NoDup (omap uid_of_row l) -> r ∈ l -> uid_of_row r = Some uid ->
  filter (fun r' => uid_of_row r' = Some uid) l = [r].
Proof.
  induction l as [|a l IH]; intros Hnd Hr Hu.
  - by apply elem_of_nil in Hr.
  - simpl in Hnd. rewrite filter_cons.
    apply elem_of_cons in Hr as [<-|Hr].
    + rewrite Hu in Hnd. apply NoDup_cons in Hnd as [Hfresh _].
      rewrite decide_True by done. f_equal.
      apply filter_none. intros z Hz Hzu. apply Hfresh.
      apply list_elem_of_omap. by exists z.
    + destruct (uid_of_row a) as [ua|] eqn:Ha.
      * apply NoDup_cons in Hnd as [Hfresh Hnd].
        rewrite decide_False; [by apply IH|].
        intros [= ->]. apply Hfresh.
        apply list_elem_of_omap. by exists r.
      * rewrite decide_False by done. by apply IH.
Qed.

Lemma Forall2_choice {X Y} (Q : X -> Y -> Prop) (l : list X) :
  Forall (fun x => exists y, Q x y) l -> exists k, Forall2 Q l k.
Proof.
  induction 1 as [|x l [y Hy] _ [k IH]]; [by exists []|].
  exists (y :: k). by constructor.
Qed.

(** X18: a round trip.  On a database whose rows hold data that decodes,
    before and after canonicalization, to a document with the title and the
    tags of the row, whose slugs are those computed from the titles and
    differ from row to row, and whose uids differ from row to row,
    [exportJsons] followed by [importJsonsByUID] of the exported files runs
    to its end and changes nothing: no statement, no backup, no sidecar. *)
Theorem export_then_import (dbFile : string) (w : World) :
  (forall w' p, ReadFile w' p = files w' !! p) ->
  is_Some (files w !! dbFile) ->
  exportable (db w) ->
  let w1 := (exportJsons dbFile w).2 in
  let jsons := (fun r => export_fn (row_slug r)) <$> dashboard_tbl (db w) in
  let run := importJsonsByUID dbFile jsons w1 in
  result run = Done tt /\ world run = w1 /\
  statements (events run) = [] /\
  backups (events run) = [] /\ sidecars (events run) = [].
Proof using range_perm.
  intros Hread HdbFile (Hrows & Hslugs & Huids) w1 jsons run.
  assert (Hdb1 : db w1 = db w) by done.
  assert (Hf1 : forall r, r ∈ dashboard_tbl (db w) ->
            ReadFile w1 (export_fn (row_slug r))
            = Some (PrettyPrintJSON (row_data r))).
  { intros r Hr. rewrite Hread. by apply export_file_of_row. }
  assert (Hfile : is_Some (ReadFile w1 dbFile)).
  { rewrite Hread. unfold w1. simpl. rewrite export_fold_files.
    by destruct (last _). }
  clearbody w1.
  assert (Hitems : Forall (fun r => exists doc,
            document w1 (export_fn (row_slug r)) = Some doc /\
            uid_of_row r = Some (UID doc) /\
            up_to_date w1 (export_fn (row_slug r))) (dashboard_tbl (db w))).
  { apply Forall_forall. intros r Hr.
    destruct (proj1 (Forall_forall _ _) Hrows r Hr)
      as (doc & Hd & Hdc & Hpp & Ht & Hsl & Htags).
    assert (Hu : uid_of_row r = Some (UID doc))
      by (unfold uid_of_row; by rewrite Hd).
    exists doc. split_and!; [|done|].
    - unfold document. by rewrite (Hf1 r Hr).
    - exists (PrettyPrintJSON (row_data r)), doc, r.
      rewrite Hdb1. split_and!; try done; try congruence.
      + by apply Hf1.
      + unfold matched_record.
        by rewrite (one_row_per_uid _ r (UID doc) Huids Hr Hu). }
  destruct (import_up_to_date dbFile jsons w1) as (Hw & Hc & Hbk & Hsc).
  { intros j Hj. apply list_elem_of_fmap in Hj as (r & -> & Hr).
    by destruct (proj1 (Forall_forall _ _) Hitems r Hr) as (? & _ & _ & ?). }
  fold run in Hw, Hc, Hbk, Hsc.
  split_and!; [|done|by apply unchanged_statements|done|done].
  apply import_completes; [done| |].
  - unfold rows_consistent. rewrite Hdb1.
    eapply Forall_impl; [exact Hrows|].
    intros r (doc & Hd & _ & _ & Ht & _). by exists doc.
  - destruct (Forall2_choice _ _ Hitems) as [docs Hdocs].
    exists docs. split_and!.
    + unfold jsons. apply Forall2_fmap_l.
      eapply Forall2_impl; [exact Hdocs|]. by intros r doc (? & _).
    + assert (Heq : UID <$> docs = omap uid_of_row (dashboard_tbl (db w))).
      { clear -Hdocs. induction Hdocs as [|r doc l k (_ & Hu & _) _ IH];
          [done|]. rewrite fmap_cons, IH.
        change (omap uid_of_row (r :: l))
          with (match uid_of_row r with
                | Some y => y :: omap uid_of_row l
                | None => omap uid_of_row l
                end).
        by rewrite Hu. }
      by rewrite Heq.
    + intros doc Hdoc. apply list_elem_of_lookup in Hdoc as [i Hi].
      destruct (Forall2_lookup_r _ _ _ _ _ Hdocs Hi) as (r & Hr & _ & Hu & _).
      exists r. rewrite Hdb1. split; [by eapply list_elem_of_lookup_2|done].
Qed.

End Program.

(** * The properties on examples *)

Lemma demo_range_perm (A : Type) (m : gmap string A) :
  Demo.range A m ≡ₚ map_to_list m.
Proof. reflexivity. Qed.

Notation "'demo_updateTags'" := (updateTags Demo.range 0).
Notation "'demo_importJsonsByUID'" :=
  (importJsonsByUID Demo.range 0 Demo.ReadFile (Demo.Unmarshal Demo.docs)
     (Demo.PrettyPrintJSON Demo.docs) Demo.Slugify).
Notation "'demo_importJsonsByTitle'" :=
  (importJsonsByTitle Demo.range 0 Demo.ReadFile (Demo.Unmarshal Demo.docs)
     (Demo.PrettyPrintJSON Demo.docs)).
Notation "'demo_import_one'" :=
  (import_one Demo.range 0 Demo.ReadFile (Demo.Unmarshal Demo.docs)
     (Demo.PrettyPrintJSON Demo.docs)).

(** C1, the claim as stated, fails on a tag that holds a comma: the JSON
    tag a,b against the table tags a and b gives equal joined strings, so
    [updateTags] returns false and inserts nothing, though the tag a,b is in
    [A \ B]. *)
Lemma updateTags_joined_strings_collide :
  ~ symmetric_difference_applied Demo.range 0 1 ["a,b"] "info"
      (Demo.tags_world [mkTag 1 "a"; mkTag 1 "b"]).
Proof.
  intros [[_ Hins] _].
  assert (Hin : (1, "a,b") ∈ inserts (events (demo_updateTags 1 ["a,b"] "info"
                    (Demo.tags_world [mkTag 1 "a"; mkTag 1 "b"])))).
  { apply Hins. split; [done|]. split; [left|].
    change (tags_of _ _) with ["a"; "b"].
    rewrite !elem_of_cons, elem_of_nil. by intros [?|[?|?]]. }
  vm_compute in Hin. by apply elem_of_nil in Hin.
Qed.

Lemma updateTags_symmetric_difference_witness :
  (forall (A : Type) (m : gmap string A), Demo.range A m ≡ₚ map_to_list m) /\
  (Join (sort_Strings ["infra"; "perf"]) ","
   = Join (sort_Strings (tags_of 7 (db Demo.w_old))) "," ->
   forall t, t ∈ ["infra"; "perf"] <-> t ∈ tags_of 7 (db Demo.w_old)) /\
  symmetric_difference_applied Demo.range 0 7 ["infra"; "perf"] "abc123 CPU"
    Demo.w_old.
Proof.
  split; [intros; reflexivity|].
  split; [by vm_compute|].
  apply (updateTags_symmetric_difference Demo.range demo_range_perm 0 7
           ["infra"; "perf"] "abc123 CPU" Demo.w_old).
  by vm_compute.
Defined.

(** C4, the claim as stated, fails: the JSON tag Infra and the table tag
    infra are equal up to letter case, and [updateTags] returns true, inserts
    Infra and deletes infra. *)
Lemma updateTags_is_case_sensitive :
  let run := demo_updateTags 1 ["Infra"] "info"
               (Demo.tags_world [mkTag 1 "infra"]) in
  same_tags_ignoring_case ["Infra"]
    (tags_of 1 (db (Demo.tags_world [mkTag 1 "infra"]))) /\
  result run = Done true /\
  inserts (events run) = [(1, "Infra")] /\
  deletes (events run) = [(1, "infra")] /\
  ~ reports_no_change Demo.range 0 1 ["Infra"] "info"
      (Demo.tags_world [mkTag 1 "infra"]).
Proof.
  split_and!.
  - intros t. reflexivity.
  - by vm_compute.
  - by vm_compute.
  - by vm_compute.
  - intros [Hr _]. vm_compute in Hr. discriminate.
Qed.

Lemma updateTags_order_insensitive_witness :
  (forall (A : Type) (m : gmap string A), Demo.range A m ≡ₚ map_to_list m) /\
  ["net"; "perf"] ≡ₚ tags_of 7 (db Demo.w_old) /\
  reports_no_change Demo.range 0 7 ["net"; "perf"] "abc123 CPU" Demo.w_old.
Proof.
  split; [intros; reflexivity|].
  split; [apply perm_swap|].
  apply (updateTags_order_insensitive Demo.range demo_range_perm 0 7
           ["net"; "perf"] "abc123 CPU" Demo.w_old).
  apply perm_swap.
Defined.

(** C10, the claim as stated, fails: a JSON list that repeats a tag of the
    table need not return true without a statement.  The JSON tags a, a, b
    against the table tag a insert b; the JSON tags a, a against a table that
    holds the tag a twice return false. *)
Lemma updateTags_duplicate_is_not_enough :
  ~ duplicate_changes_silently Demo.range 0 1 ["a"; "a"; "b"] "info"
      (Demo.tags_world [mkTag 1 "a"]) /\
  ~ duplicate_changes_silently Demo.range 0 1 ["a"; "a"] "info"
      (Demo.tags_world [mkTag 1 "a"; mkTag 1 "a"]).
Proof.
  split; intros H.
  - destruct H as (_ & Hi & _).
    + exists "a". split; [left|]. unfold repeats. vm_compute. lia.
    + vm_compute in Hi. discriminate.
  - destruct H as (Hr & _).
    + exists "a". split; [left|]. unfold repeats. vm_compute. lia.
    + vm_compute in Hr. discriminate.
Qed.

Lemma updateTags_change_without_statement_witness :
  (forall (A : Type) (m : gmap string A), Demo.range A m ≡ₚ map_to_list m) /\
  (forall t, t ∈ ["a"; "a"]
             <-> t ∈ tags_of 1 (db (Demo.tags_world [mkTag 1 "a"]))) /\
  Join (sort_Strings ["a"; "a"]) ","
  ≠ Join (sort_Strings (tags_of 1 (db (Demo.tags_world [mkTag 1 "a"])))) "," /\
  (let r := demo_updateTags 1 ["a"; "a"] "info"
              (Demo.tags_world [mkTag 1 "a"]) in
   result r = Done true /\ statements (events r) = [] /\
   db (world r) = db (Demo.tags_world [mkTag 1 "a"])).
Proof.
  assert (Hsame : forall t, t ∈ ["a"; "a"]
            <-> t ∈ tags_of 1 (db (Demo.tags_world [mkTag 1 "a"]))).
  { intros t. change (tags_of _ _) with ["a"].
    rewrite !elem_of_cons, elem_of_nil. tauto. }
  assert (Hdiff : Join (sort_Strings ["a"; "a"]) ","
            ≠ Join (sort_Strings
                      (tags_of 1 (db (Demo.tags_world [mkTag 1 "a"])))) ",")
    by (by vm_compute).
  split; [intros; reflexivity|].
  split; [exact Hsame|]. split; [exact Hdiff|].
  exact (proj1 (proj2 (updateTags_change_without_statement Demo.range
                         demo_range_perm 0))
           1 ["a"; "a"] "info" (Demo.tags_world [mkTag 1 "a"]) Hsame Hdiff).
Defined.

(** The caller at work: the document Twice, with the tags a, a, imported
    by uid into a database that holds the same document and the tag a.  The
    backup file is written, and no statement is executed. *)
Lemma duplicate_tag_backup :
  let run := importJsonsByUID Demo.range 0 Demo.ReadFile
               (Demo.Unmarshal [Demo.twice])
               (Demo.PrettyPrintJSON [Demo.twice]) Demo.Slugify
               "grafana.db" ["twice.json"] Demo.w_twice in
  result run = Done tt /\ statements (events run) = [] /\
  backups (events run) = [("grafana.db.1000", "SQLite format 3")] /\
  sidecars (events run) = [] /\ db (world run) = db Demo.w_twice.
Proof. by vm_compute. Qed.



Lemma backup_at_most_once_witness :
  (forall (A : Type) (m : gmap string A), Demo.range A m ≡ₚ map_to_list m) /\
  backed_up_at_most_once (Demo.ReadFile Demo.w_old "grafana.db")
    (events (demo_importJsonsByUID "grafana.db" ["cpu.json"; "mem.json"]
               Demo.w_old)) /\
  backed_up_at_most_once (Demo.ReadFile Demo.w_old "grafana.db")
    (events (demo_importJsonsByTitle "grafana.db" ["cpu.json"; "cpu2.json"]
               Demo.w_old)).
Proof.
  split; [intros; reflexivity|]. split.
  - apply (backup_at_most_once Demo.range demo_range_perm 0 Demo.ReadFile
             (Demo.Unmarshal Demo.docs) (Demo.PrettyPrintJSON Demo.docs)
             Demo.Slugify "grafana.db" ["cpu.json"; "mem.json"] Demo.w_old).
  - apply (backup_at_most_once Demo.range demo_range_perm 0 Demo.ReadFile
             (Demo.Unmarshal Demo.docs) (Demo.PrettyPrintJSON Demo.docs)
             Demo.Slugify "grafana.db" ["cpu.json"; "cpu2.json"] Demo.w_old).
Defined.

(** Two changes, one backup: cpu.json and then cpu2.json, by title. *)
Lemma two_changes_one_backup :
  let evs := events (demo_importJsonsByTitle "grafana.db"
                       ["cpu.json"; "cpu2.json"] Demo.w_old) in
  updates evs = [7; 7] /\
  backups evs = [("grafana.db.1000", "SQLite format 3")].
Proof. by vm_compute. Qed.

Lemma unchanged_document_not_written_witness :
  (forall (A : Type) (m : gmap string A), Demo.range A m ≡ₚ map_to_list m) /\
  NoDup (row_id <$> dashboard_tbl (db Demo.w_same)) /\
  "cpu.json" ∈ ["cpu.json"] /\
  Demo.ReadFile Demo.w_same "cpu.json" = Some (Demo.compact Demo.cpu) /\
  Demo.Unmarshal Demo.docs (Demo.compact Demo.cpu) zero_dashboard
  = Some Demo.cpu /\
  matched_record (Demo.Unmarshal Demo.docs) (db Demo.w_same) (UID Demo.cpu)
    (Demo.record Demo.cpu) /\
  Demo.PrettyPrintJSON Demo.docs (Demo.compact Demo.cpu)
  = Demo.PrettyPrintJSON Demo.docs (row_data (Demo.record Demo.cpu)) /\
  Title Demo.cpu = row_title (Demo.record Demo.cpu) /\
  Demo.Slugify (Title Demo.cpu) = row_slug (Demo.record Demo.cpu) /\
  (let run := demo_importJsonsByUID "grafana.db" ["cpu.json"] Demo.w_same in
   (row_id (Demo.record Demo.cpu) ∉ updates (events run)) /\
   rows_with (row_id (Demo.record Demo.cpu)) (db (world run))
   = [Demo.record Demo.cpu]).
Proof.
  split; [intros; reflexivity|].
  split; [apply NoDup_singleton|].
  split; [left|].
  do 6 (split; [by vm_compute|]).
  apply (unchanged_document_not_written Demo.range demo_range_perm 0
           Demo.ReadFile (Demo.Unmarshal Demo.docs)
           (Demo.PrettyPrintJSON Demo.docs) Demo.Slugify
           "grafana.db" ["cpu.json"] Demo.w_same "cpu.json"
           (Demo.compact Demo.cpu) Demo.cpu (Demo.record Demo.cpu));
    [apply NoDup_singleton|left|by vm_compute..].
Defined.

(** In that run the tags did change, and the backup was taken for them. *)
Lemma unchanged_document_tags_changed :
  let evs := events (demo_importJsonsByUID "grafana.db" ["cpu.json"]
                       Demo.w_same) in
  inserts evs = [(7, "infra")] /\ updates evs = [] /\ sidecars evs = [] /\
  backups evs = [("grafana.db.1000", "SQLite format 3")].
Proof. by vm_compute. Qed.

Lemma duplicate_uid_is_fatal_witness :
  0%nat ≠ 1%nat /\
  ["cpu.json"; "cpu2.json"] !! 0%nat = Some "cpu.json" /\
  ["cpu.json"; "cpu2.json"] !! 1%nat = Some "cpu2.json" /\
  document Demo.ReadFile (Demo.Unmarshal Demo.docs) Demo.w_old "cpu.json"
  = Some Demo.cpu /\
  document Demo.ReadFile (Demo.Unmarshal Demo.docs) Demo.w_old "cpu2.json"
  = Some Demo.cpu /\
  UID Demo.cpu = UID Demo.cpu /\
  fails_untouched Demo.w_old
    (demo_importJsonsByUID "grafana.db" ["cpu.json"; "cpu2.json"] Demo.w_old).
Proof.
  split; [lia|].
  do 5 (split; [by vm_compute|]).
  apply (duplicate_uid_is_fatal Demo.range 0 Demo.ReadFile
           (Demo.Unmarshal Demo.docs) (Demo.PrettyPrintJSON Demo.docs)
           Demo.Slugify "grafana.db" ["cpu.json"; "cpu2.json"] Demo.w_old
           0%nat 1%nat "cpu.json" "cpu2.json" Demo.cpu Demo.cpu);
    [lia|by vm_compute..].
Defined.

(** The run stops on the second file, with the message of the duplicate. *)
Lemma duplicate_uid_error :
  demo_importJsonsByUID "grafana.db" ["cpu.json"; "cpu2.json"] Demo.w_old
  = ([Printf (MsgFatal (ErrDuplicateUID "cpu2.json" Demo.cpu Demo.cpu))],
     Demo.w_old, Fatal (ErrDuplicateUID "cpu2.json" Demo.cpu Demo.cpu)).
Proof. by vm_compute. Qed.

Lemma unknown_uid_is_fatal_witness :
  "mem.json" ∈ ["cpu.json"; "mem.json"] /\
  document Demo.ReadFile (Demo.Unmarshal Demo.docs) Demo.w_old "mem.json"
  = Some Demo.mem /\
  (forall r, r ∈ dashboard_tbl (db Demo.w_old) ->
     uid_of_row (Demo.Unmarshal Demo.docs) r ≠ Some (UID Demo.mem)) /\
  fails_untouched Demo.w_old
    (demo_importJsonsByUID "grafana.db" ["cpu.json"; "mem.json"] Demo.w_old).
Proof.
  assert (Hnone : forall r, r ∈ dashboard_tbl (db Demo.w_old) ->
            uid_of_row (Demo.Unmarshal Demo.docs) r ≠ Some (UID Demo.mem)).
  { intros r Hr. apply list_elem_of_singleton in Hr as ->. by vm_compute. }
  split; [right; left|]. split; [by vm_compute|]. split; [exact Hnone|].
  apply (unknown_uid_is_fatal Demo.range 0 Demo.ReadFile
           (Demo.Unmarshal Demo.docs) (Demo.PrettyPrintJSON Demo.docs)
           Demo.Slugify "grafana.db" ["cpu.json"; "mem.json"] Demo.w_old
           "mem.json" Demo.mem);
    [right; left|by vm_compute|exact Hnone].
Defined.

(** The run stops on mem.json, with the message of the missing uid. *)
Lemma unknown_uid_error :
  demo_importJsonsByUID "grafana.db" ["cpu.json"; "mem.json"] Demo.w_old
  = ([Printf (MsgFatal (ErrUIDNotFound "mem.json" "def456" "Memory"))],
     Demo.w_old, Fatal (ErrUIDNotFound "mem.json" "def456" "Memory")).
Proof. by vm_compute. Qed.

Lemma uid_mismatch_is_soft_skip_witness :
  resolves Demo.ReadFile (Demo.Unmarshal Demo.docs) Demo.w_other Demo.st0
    "cpu.json" (Demo.compact Demo.cpu) Demo.cpu (Demo.record Demo.cpu_other)
    Demo.cpu_other /\
  UID Demo.cpu ≠ UID Demo.cpu_other /\
  skipped_softly Demo.range 0 Demo.ReadFile (Demo.Unmarshal Demo.docs)
    (Demo.PrettyPrintJSON Demo.docs) "grafana.db" "SQLite format 3" Demo.st0
    "cpu.json" ["cpu2.json;CPU;cpu-usage"] Demo.w_other
    Demo.cpu Demo.cpu_other.
Proof.
  assert (Hres : resolves Demo.ReadFile (Demo.Unmarshal Demo.docs)
            Demo.w_other Demo.st0 "cpu.json" (Demo.compact Demo.cpu)
            Demo.cpu (Demo.record Demo.cpu_other) Demo.cpu_other).
  { unfold resolves. split; [left; by vm_compute|].
    split_and!; by vm_compute. }
  split; [exact Hres|]. split; [by vm_compute|].
  apply (uid_mismatch_is_soft_skip Demo.range 0 Demo.ReadFile
           (Demo.Unmarshal Demo.docs) (Demo.PrettyPrintJSON Demo.docs)
           "grafana.db" "SQLite format 3" Demo.st0 "cpu.json"
           ["cpu2.json;CPU;cpu-usage"] Demo.w_other (Demo.compact Demo.cpu)
           Demo.cpu (Demo.record Demo.cpu_other) Demo.cpu_other);
    [exact Hres|by vm_compute].
Defined.

(** C9, the claim as stated, fails: importing the one-line cpu.json by
    title stores its bytes as they are, which are not their canonical form. *)
Lemma title_import_stores_noncanonical :
  resolves Demo.ReadFile (Demo.Unmarshal Demo.docs) Demo.w_old Demo.st0
    "cpu.json" (Demo.compact Demo.cpu) Demo.cpu (Demo.record Demo.cpu_old)
    Demo.cpu_old /\
  UID Demo.cpu = UID Demo.cpu_old /\
  rows_with 7 (db (world (demo_import_one "grafana.db" "SQLite format 3"
                            Demo.st0 "cpu.json" Demo.w_old)))
  = [mkRow 7 "CPU" "cpu" (Demo.compact Demo.cpu)] /\
  ~ stored_after Demo.range 0 Demo.ReadFile (Demo.Unmarshal Demo.docs)
      (Demo.PrettyPrintJSON Demo.docs) "grafana.db" "SQLite format 3"
      Demo.st0 "cpu.json" Demo.w_old (Demo.record Demo.cpu_old)
      (Demo.PrettyPrintJSON Demo.docs (Demo.compact Demo.cpu)).
Proof.
  assert (Hrows :
    rows_with 7 (db (world (demo_import_one "grafana.db" "SQLite format 3"
                              Demo.st0 "cpu.json" Demo.w_old)))
    = [mkRow 7 "CPU" "cpu" (Demo.compact Demo.cpu)]) by (by vm_compute).
  split_and!.
  - unfold resolves. split; [left; by vm_compute|].
    split_and!; by vm_compute.
  - by vm_compute.
  - exact Hrows.
  - intros [_ Hall].
    specialize (Hall (mkRow 7 "CPU" "cpu" (Demo.compact Demo.cpu))).
    change (row_id (Demo.record Demo.cpu_old)) with 7 in Hall.
    rewrite Hrows in Hall. specialize (Hall (list_elem_of_here _ _)).
    vm_compute in Hall. discriminate.
Qed.

Lemma title_import_stores_raw_bytes_witness :
  (forall (A : Type) (m : gmap string A), Demo.range A m ≡ₚ map_to_list m) /\
  resolves Demo.ReadFile (Demo.Unmarshal Demo.docs) Demo.w_old Demo.st0
    "cpu.json" (Demo.compact Demo.cpu) Demo.cpu (Demo.record Demo.cpu_old)
    Demo.cpu_old /\
  UID Demo.cpu = UID Demo.cpu_old /\
  stored_after Demo.range 0 Demo.ReadFile (Demo.Unmarshal Demo.docs)
    (Demo.PrettyPrintJSON Demo.docs) "grafana.db" "SQLite format 3"
    Demo.st0 "cpu.json" Demo.w_old (Demo.record Demo.cpu_old)
    (Demo.compact Demo.cpu).
Proof.
  assert (Hres : resolves Demo.ReadFile (Demo.Unmarshal Demo.docs)
            Demo.w_old Demo.st0 "cpu.json" (Demo.compact Demo.cpu)
            Demo.cpu (Demo.record Demo.cpu_old) Demo.cpu_old).
  { unfold resolves. split; [left; by vm_compute|].
    split_and!; by vm_compute. }
  split; [intros; reflexivity|]. split; [exact Hres|].
  split; [by vm_compute|].
  exact (proj1 (title_import_stores_raw_bytes Demo.range demo_range_perm 0
                  Demo.ReadFile (Demo.Unmarshal Demo.docs)
                  (Demo.PrettyPrintJSON Demo.docs) "grafana.db"
                  "SQLite format 3" Demo.st0 "cpu.json" Demo.w_old
                  (Demo.compact Demo.cpu) Demo.cpu
                  (Demo.record Demo.cpu_old) Demo.cpu_old Hres eq_refl)).
Defined.

(** ** Further properties, on examples *)

Lemma updateTags_makes_tags_match_witness :
  (forall (A : Type) (m : gmap string A), Demo.range A m ≡ₚ map_to_list m) /\
  let r := demo_updateTags 7 ["infra"; "perf"] "abc123 CPU" Demo.w_old in
  result r = Done true /\
  forall t, t ∈ tags_of 7 (db (world r)) <-> t ∈ ["infra"; "perf"].
Proof.
  split; [intros; reflexivity|].
  split; [by vm_compute|].
  apply (updateTags_makes_tags_match Demo.range demo_range_perm 0 7
           ["infra"; "perf"] "abc123 CPU" Demo.w_old).
  by vm_compute.
Defined.

Lemma updateTags_touches_one_dashboard_witness :
  (forall (A : Type) (m : gmap string A), Demo.range A m ≡ₚ map_to_list m) /\
  let w := Demo.tags_world [mkTag 1 "a"; mkTag 2 "b"; mkTag 1 "c"] in
  let r := demo_updateTags 1 ["d"] "info" w in
  2 ≠ 1 /\ tags_of 2 (db (world r)) = tags_of 2 (db w).
Proof.
  split; [intros; reflexivity|].
  split; [done|].
  apply (updateTags_touches_one_dashboard Demo.range demo_range_perm 0 1
           ["d"] "info"
           (Demo.tags_world [mkTag 1 "a"; mkTag 2 "b"; mkTag 1 "c"])).
  done.
Defined.

Lemma updateTags_reports_its_statements_witness :
  let r := demo_updateTags 7 ["infra"; "perf"] "abc123 CPU" Demo.w_old in
  result r = Done true /\
  exists e0,
    events r = e0 ++ [Printf (MsgTagsUpdated "abc123 CPU" 7 "net,perf"
                                "infra,perf" 1 1)].
Proof.
  split; [by vm_compute|].
  apply (updateTags_reports_its_statements Demo.range 0 7
           ["infra"; "perf"] "abc123 CPU" Demo.w_old).
  by vm_compute.
Defined.


Lemma importJsonsByUID_completes_iff_witness :
  (forall (A : Type) (m : gmap string A), Demo.range A m ≡ₚ map_to_list m) /\
  (result (demo_importJsonsByUID "grafana.db" ["cpu.json"; "mem.json"]
             Demo.w_synced) = Done tt <->
   is_Some (Demo.ReadFile Demo.w_synced "grafana.db") /\
   rows_consistent (Demo.Unmarshal Demo.docs) (db Demo.w_synced) /\
   jsons_importable Demo.ReadFile (Demo.Unmarshal Demo.docs) Demo.w_synced
     ["cpu.json"; "mem.json"]).
Proof.
  split; [intros; reflexivity|].
  apply (importJsonsByUID_completes_iff Demo.range demo_range_perm 0
           Demo.ReadFile (Demo.Unmarshal Demo.docs)
           (Demo.PrettyPrintJSON Demo.docs) Demo.Slugify
           "grafana.db" ["cpu.json"; "mem.json"] Demo.w_synced).
Defined.

Lemma importJsonsByUID_summary_witness :
  (forall (A : Type) (m : gmap string A), Demo.range A m ≡ₚ map_to_list m) /\
  let run := demo_importJsonsByUID "grafana.db" ["cpu.json"] Demo.w_old in
  result run = Done tt /\
  exists e nImp,
    events run = e ++ [Printf (MsgSummary 1 1 nImp)] /\
    Z.of_nat (length (updates e)) <= nImp <= 1 /\
    (nImp = 0 <-> changed e = false).
Proof.
  split; [intros; reflexivity|].
  split; [by vm_compute|].
  apply (importJsonsByUID_summary Demo.range demo_range_perm 0
           Demo.ReadFile (Demo.Unmarshal Demo.docs)
           (Demo.PrettyPrintJSON Demo.docs) Demo.Slugify
           "grafana.db" ["cpu.json"] Demo.w_old).
  by vm_compute.
Defined.

Lemma changed_document_is_written_witness :
  (forall (A : Type) (m : gmap string A), Demo.range A m ≡ₚ map_to_list m) /\
  NoDup (row_id <$> dashboard_tbl (db Demo.w_old)) /\
  "cpu.json" ∈ ["cpu.json"] /\
  Demo.ReadFile Demo.w_old "cpu.json" = Some (Demo.compact Demo.cpu) /\
  Demo.Unmarshal Demo.docs (Demo.compact Demo.cpu) zero_dashboard
  = Some Demo.cpu /\
  matched_record (Demo.Unmarshal Demo.docs) (db Demo.w_old) (UID Demo.cpu)
    (Demo.record Demo.cpu_old) /\
  ~ (Title Demo.cpu = row_title (Demo.record Demo.cpu_old) /\
     Demo.Slugify (Title Demo.cpu) = row_slug (Demo.record Demo.cpu_old) /\
     Demo.PrettyPrintJSON Demo.docs (Demo.compact Demo.cpu)
     = Demo.PrettyPrintJSON Demo.docs (row_data (Demo.record Demo.cpu_old))) /\
  (let run := demo_importJsonsByUID "grafana.db" ["cpu.json"] Demo.w_old in
   result run = Done tt /\
   rows_with 7 (db (world run))
   = [mkRow 7 "CPU" "cpu" (Demo.indented Demo.cpu)] /\
   7 ∈ updates (events run) /\
   ("cpu.json.was", Demo.indented Demo.cpu_old) ∈ sidecars (events run)).
Proof.
  assert (Hdiff :
    ~ (Title Demo.cpu = row_title (Demo.record Demo.cpu_old) /\
       Demo.Slugify (Title Demo.cpu) = row_slug (Demo.record Demo.cpu_old) /\
       Demo.PrettyPrintJSON Demo.docs (Demo.compact Demo.cpu)
       = Demo.PrettyPrintJSON Demo.docs
           (row_data (Demo.record Demo.cpu_old)))).
  { intros (_ & _ & H). vm_compute in H. discriminate. }
  split; [intros; reflexivity|].
  split; [apply NoDup_singleton|].
  split; [left|].
  do 3 (split; [by vm_compute|]).
  split; [exact Hdiff|].
  split; [by vm_compute|].
  apply (changed_document_is_written Demo.range demo_range_perm 0
           Demo.ReadFile (Demo.Unmarshal Demo.docs)
           (Demo.PrettyPrintJSON Demo.docs) Demo.Slugify
           "grafana.db" ["cpu.json"] Demo.w_old "cpu.json"
           (Demo.compact Demo.cpu) Demo.cpu (Demo.record Demo.cpu_old));
    [apply NoDup_singleton|left|by vm_compute|by vm_compute|by vm_compute
    |exact Hdiff|by vm_compute].
Defined.

Lemma plain_demo_tags :
  Forall plain_tag ["infra"; "perf"] /\ Forall plain_tag ["perf"; "net"].
Proof. split; repeat constructor; by vm_compute. Qed.

Lemma imported_tags_match_witness :
  (forall (A : Type) (m : gmap string A), Demo.range A m ≡ₚ map_to_list m) /\
  NoDup (row_id <$> dashboard_tbl (db Demo.w_old)) /\
  "cpu.json" ∈ ["cpu.json"] /\
  Demo.ReadFile Demo.w_old "cpu.json" = Some (Demo.compact Demo.cpu) /\
  Demo.Unmarshal Demo.docs (Demo.compact Demo.cpu) zero_dashboard
  = Some Demo.cpu /\
  matched_record (Demo.Unmarshal Demo.docs) (db Demo.w_old) (UID Demo.cpu)
    (Demo.record Demo.cpu_old) /\
  Forall plain_tag (Tags Demo.cpu) /\
  Forall plain_tag (tags_of 7 (db Demo.w_old)) /\
  (let run := demo_importJsonsByUID "grafana.db" ["cpu.json"] Demo.w_old in
   result run = Done tt /\
   forall t, t ∈ tags_of 7 (db (world run)) <-> t ∈ ["infra"; "perf"]).
Proof.
  split; [intros; reflexivity|].
  split; [apply NoDup_singleton|].
  split; [left|].
  do 3 (split; [by vm_compute|]).
  split; [exact (proj1 plain_demo_tags)|].
  split; [exact (proj2 plain_demo_tags)|].
  split; [by vm_compute|].
  apply (imported_tags_match Demo.range demo_range_perm 0
           Demo.ReadFile (Demo.Unmarshal Demo.docs)
           (Demo.PrettyPrintJSON Demo.docs) Demo.Slugify
           "grafana.db" ["cpu.json"] Demo.w_old "cpu.json"
           (Demo.compact Demo.cpu) Demo.cpu (Demo.record Demo.cpu_old));
    [apply NoDup_singleton|left|by vm_compute|by vm_compute|by vm_compute
    |exact (proj1 plain_demo_tags)|exact (proj2 plain_demo_tags)
    |by vm_compute].
Defined.

Lemma demo_others (j : string) (d : dashboard) (r : dashboard_row) :
  j ∈ ["cpu.json"] ->
  document Demo.ReadFile (Demo.Unmarshal Demo.docs) Demo.w_two j = Some d ->
  matched_record (Demo.Unmarshal Demo.docs) (db Demo.w_two) (UID d) r ->
  row_id r ≠ 8.
Proof.
  intros Hj Hd Hm. apply list_elem_of_singleton in Hj as ->.
  vm_compute in Hd. injection Hd as <-.
  vm_compute in Hm. by injection Hm as <-.
Qed.

Lemma importJsonsByUID_frame_witness :
  (forall (A : Type) (m : gmap string A), Demo.range A m ≡ₚ map_to_list m) /\
  (forall j d r, j ∈ ["cpu.json"] ->
     document Demo.ReadFile (Demo.Unmarshal Demo.docs) Demo.w_two j = Some d ->
     matched_record (Demo.Unmarshal Demo.docs) (db Demo.w_two) (UID d) r ->
     row_id r ≠ 8) /\
  (let run := demo_importJsonsByUID "grafana.db" ["cpu.json"] Demo.w_two in
   rows_with 8 (db (world run)) = [Demo.mem_record] /\
   tags_of 8 (db (world run)) = ["infra"] /\
   8 ∉ updates (events run)).
Proof.
  split; [intros; reflexivity|].
  split; [exact demo_others|].
  apply (importJsonsByUID_frame Demo.range demo_range_perm 0
           Demo.ReadFile (Demo.Unmarshal Demo.docs)
           (Demo.PrettyPrintJSON Demo.docs) Demo.Slugify
           "grafana.db" ["cpu.json"] Demo.w_two 8 demo_others).
Defined.

(** In that run dashboard 7 was written. *)
Lemma importJsonsByUID_frame_other :
  updates (events (demo_importJsonsByUID "grafana.db" ["cpu.json"]
                     Demo.w_two)) = [7].
Proof. by vm_compute. Qed.

Lemma demo_up_to_date (j : string) :
  j ∈ ["cpu.json"; "mem.json"] ->
  up_to_date Demo.ReadFile (Demo.Unmarshal Demo.docs)
    (Demo.PrettyPrintJSON Demo.docs) Demo.Slugify Demo.w_synced j.
Proof.
  intros Hj. apply elem_of_cons in Hj as [->|Hj];
    [|apply list_elem_of_singleton in Hj as ->].
  - exists (Demo.compact Demo.cpu), Demo.cpu, (Demo.record Demo.cpu).
    split_and!; by vm_compute.
  - exists (Demo.compact Demo.mem), Demo.mem, Demo.mem_record.
    split_and!; by vm_compute.
Qed.

Lemma importJsonsByUID_up_to_date_witness :
  (forall (A : Type) (m : gmap string A), Demo.range A m ≡ₚ map_to_list m) /\
  (forall j, j ∈ ["cpu.json"; "mem.json"] ->
     up_to_date Demo.ReadFile (Demo.Unmarshal Demo.docs)
       (Demo.PrettyPrintJSON Demo.docs) Demo.Slugify Demo.w_synced j) /\
  (let run := demo_importJsonsByUID "grafana.db" ["cpu.json"; "mem.json"]
                Demo.w_synced in
   world run = Demo.w_synced /\ statements (events run) = [] /\
   backups (events run) = [] /\ sidecars (events run) = [] /\
   (result run = Done tt ->
    exists e nDb nJSON, events run = e ++ [Printf (MsgSummary nDb nJSON 0)])).
Proof.
  split; [intros; reflexivity|].
  split; [exact demo_up_to_date|].
  apply (importJsonsByUID_up_to_date Demo.range demo_range_perm 0
           Demo.ReadFile (Demo.Unmarshal Demo.docs)
           (Demo.PrettyPrintJSON Demo.docs) Demo.Slugify
           "grafana.db" ["cpu.json"; "mem.json"] Demo.w_synced
           demo_up_to_date).
Defined.


(** The item cpu.json;CPU;cpu-usage on the database that holds the older
    version of the CPU dashboard. *)
Lemma demo_resolves :
  resolves Demo.ReadFile (Demo.Unmarshal Demo.docs) Demo.w_old Demo.st0
    "cpu.json;CPU;cpu-usage" (Demo.compact Demo.cpu) Demo.cpu
    (Demo.record Demo.cpu_old) Demo.cpu_old.
Proof.
  unfold resolves. split; [right; by vm_compute|].
  split_and!; by vm_compute.
Qed.

(** The same item as a later item of a run, with a decoder that keeps the
    fields that a document does not set: cpu.json sets them all. *)
Lemma demo_resolves_later :
  resolves Demo.ReadFile (Demo.Unmarshal_into Demo.docs) Demo.w_old Demo.st1
    "cpu.json;CPU;cpu-usage" (Demo.compact Demo.cpu) Demo.cpu
    (Demo.record Demo.cpu_old) Demo.cpu_old /\
  decoded_alone (Demo.Unmarshal_into Demo.docs) (Demo.compact Demo.cpu)
    Demo.cpu (Demo.record Demo.cpu_old) Demo.cpu_old.
Proof.
  split.
  - unfold resolves. split; [right; by vm_compute|].
    split_and!; by vm_compute.
  - split; by vm_compute.
Qed.

Lemma title_import_overrides_witness :
  (forall (A : Type) (m : gmap string A), Demo.range A m ≡ₚ map_to_list m) /\
  resolves Demo.ReadFile (Demo.Unmarshal_into Demo.docs) Demo.w_old Demo.st1
    "cpu.json;CPU;cpu-usage" (Demo.compact Demo.cpu) Demo.cpu
    (Demo.record Demo.cpu_old) Demo.cpu_old /\
  decoded_alone (Demo.Unmarshal_into Demo.docs) (Demo.compact Demo.cpu)
    Demo.cpu (Demo.record Demo.cpu_old) Demo.cpu_old /\
  UID Demo.cpu = UID Demo.cpu_old /\
  dashboard_tbl
    (db (world (import_one Demo.range 0 Demo.ReadFile
                  (Demo.Unmarshal_into Demo.docs)
                  (Demo.PrettyPrintJSON Demo.docs)
                  "grafana.db" "SQLite format 3"
                  Demo.st1 "cpu.json;CPU;cpu-usage" Demo.w_old)))
  = [mkRow 7 "CPU" "cpu-usage" (Demo.compact Demo.cpu)].
Proof.
  split; [intros; reflexivity|].
  split; [exact (proj1 demo_resolves_later)|].
  split; [exact (proj2 demo_resolves_later)|].
  split; [by vm_compute|].
  exact (proj1 (title_import_overrides Demo.range demo_range_perm 0
                  Demo.ReadFile (Demo.Unmarshal_into Demo.docs)
                  (Demo.PrettyPrintJSON Demo.docs) "grafana.db"
                  "SQLite format 3" Demo.st1 "cpu.json;CPU;cpu-usage"
                  Demo.w_old (Demo.compact Demo.cpu) Demo.cpu
                  (Demo.record Demo.cpu_old) Demo.cpu_old
                  (proj1 demo_resolves_later) (proj2 demo_resolves_later)
                  eq_refl)).
Defined.

Lemma title_import_order_witness :
  (forall (A : Type) (m : gmap string A), Demo.range A m ≡ₚ map_to_list m) /\
  resolves Demo.ReadFile (Demo.Unmarshal Demo.docs) Demo.w_old Demo.st0
    "cpu.json;CPU;cpu-usage" (Demo.compact Demo.cpu) Demo.cpu
    (Demo.record Demo.cpu_old) Demo.cpu_old /\
  UID Demo.cpu = UID Demo.cpu_old /\
  exists tag_events msg bk,
    events (demo_import_one "grafana.db" "SQLite format 3" Demo.st0
              "cpu.json;CPU;cpu-usage" Demo.w_old) =
      [Printf (MsgImporting 1 "cpu.json" ["cpu.json"; "CPU"; "cpu-usage"]);
       Exec (UpdateDashboard "CPU" "cpu-usage" (Demo.compact Demo.cpu) 7)]
      ++ tag_events
      ++ [Printf msg;
          WriteFile Sidecar "cpu.json.was" (Demo.indented Demo.cpu_old)]
      ++ bk /\
    Forall (touches_only 7) tag_events /\
    statements bk = [] /\ sidecars bk = [].
Proof.
  split; [intros; reflexivity|]. split; [exact demo_resolves|].
  split; [by vm_compute|].
  exact (title_import_order Demo.range demo_range_perm 0
           Demo.ReadFile (Demo.Unmarshal Demo.docs)
           (Demo.PrettyPrintJSON Demo.docs) "grafana.db"
           "SQLite format 3" Demo.st0 "cpu.json;CPU;cpu-usage"
           Demo.w_old (Demo.compact Demo.cpu) Demo.cpu
           (Demo.record Demo.cpu_old) Demo.cpu_old
           demo_resolves eq_refl).
Defined.

Lemma title_import_tags_witness :
  (forall (A : Type) (m : gmap string A), Demo.range A m ≡ₚ map_to_list m) /\
  resolves Demo.ReadFile (Demo.Unmarshal_into Demo.docs) Demo.w_old Demo.st1
    "cpu.json;CPU;cpu-usage" (Demo.compact Demo.cpu) Demo.cpu
    (Demo.record Demo.cpu_old) Demo.cpu_old /\
  decoded_alone (Demo.Unmarshal_into Demo.docs) (Demo.compact Demo.cpu)
    Demo.cpu (Demo.record Demo.cpu_old) Demo.cpu_old /\
  UID Demo.cpu = UID Demo.cpu_old /\
  Forall plain_tag (Tags Demo.cpu) /\
  Forall plain_tag (tags_of 7 (db Demo.w_old)) /\
  forall t,
    t ∈ tags_of 7
          (db (world (import_one Demo.range 0 Demo.ReadFile
                        (Demo.Unmarshal_into Demo.docs)
                        (Demo.PrettyPrintJSON Demo.docs)
                        "grafana.db" "SQLite format 3"
                        Demo.st1 "cpu.json;CPU;cpu-usage" Demo.w_old)))
    <-> t ∈ ["infra"; "perf"].
Proof.
  split; [intros; reflexivity|].
  split; [exact (proj1 demo_resolves_later)|].
  split; [exact (proj2 demo_resolves_later)|].
  split; [by vm_compute|].
  split; [exact (proj1 plain_demo_tags)|].
  split; [exact (proj2 plain_demo_tags)|].
  exact (proj1 (title_import_tags Demo.range demo_range_perm 0
                  Demo.ReadFile (Demo.Unmarshal_into Demo.docs)
                  (Demo.PrettyPrintJSON Demo.docs) "grafana.db"
                  "SQLite format 3" Demo.st1 "cpu.json;CPU;cpu-usage"
                  Demo.w_old (Demo.compact Demo.cpu) Demo.cpu
                  (Demo.record Demo.cpu_old) Demo.cpu_old
                  (proj1 demo_resolves_later) (proj2 demo_resolves_later)
                  eq_refl
                  (proj1 plain_demo_tags) (proj2 plain_demo_tags))).
Defined.

(** Without that condition the tags are not the document's: title.json
    sets no tags, and as the second item of a run it leaves the record with
    the tags of the first. *)
Lemma title_import_stale_tags :
  let run := importJsonsByTitle Demo.range 0 Demo.ReadFile
               (Demo.Unmarshal_into Demo.docs)
               (Demo.PrettyPrintJSON Demo.docs) "grafana.db"
               ["cpu.json"; "title.json"] Demo.w_stale in
  Tags <$> Demo.Unmarshal_into Demo.docs (Demo.title_only "CPU") zero_dashboard
  = Some [] /\
  tags_of 7 (db (world run)) = ["perf"; "infra"].
Proof. by vm_compute. Qed.

Lemma malformed_specifier_stops_run_witness :
  length (Split "cpu.json;CPU" ";") ≠ 1%nat /\
  length (Split "cpu.json;CPU" ";") ≠ 3%nat /\
  result (demo_importJsonsByTitle "grafana.db" ["cpu.json"] Demo.w_old)
  = Done tt /\
  let run := demo_importJsonsByTitle "grafana.db"
               (["cpu.json"] ++ "cpu.json;CPU" :: ["mem.json"]) Demo.w_old in
  result run = Fatal ErrArity /\
  events run
  = events (demo_importJsonsByTitle "grafana.db" ["cpu.json"] Demo.w_old)
    ++ [Printf (MsgFatal ErrArity)] /\
  world run
  = world (demo_importJsonsByTitle "grafana.db" ["cpu.json"] Demo.w_old).
Proof.
  split; [by vm_compute|]. split; [by vm_compute|].
  split; [by vm_compute|].
  apply (malformed_specifier_stops_run Demo.range 0
           Demo.ReadFile (Demo.Unmarshal Demo.docs)
           (Demo.PrettyPrintJSON Demo.docs) "grafana.db"
           ["cpu.json"] "cpu.json;CPU" ["mem.json"] Demo.w_old);
    by vm_compute.
Defined.

(** The items before the malformed one have been written. *)
Lemma malformed_specifier_after_write :
  let run := demo_importJsonsByTitle "grafana.db"
               ["cpu.json"; "cpu.json;CPU"; "mem.json"] Demo.w_old in
  result run = Fatal ErrArity /\
  updates (events run) = [7] /\
  dashboard_tbl (db (world run))
  = [mkRow 7 "CPU" "cpu" (Demo.compact Demo.cpu)].
Proof. by vm_compute. Qed.


Lemma demo_slugs_differ :
  NoDup (row_slug <$> dashboard_tbl (db Demo.w_synced)).
Proof.
  change (NoDup ["cpu"; "memory"]).
  apply NoDup_cons. split; [|apply NoDup_singleton].
  intros H. by apply list_elem_of_singleton in H.
Qed.

Lemma exportJsons_files_witness :
  NoDup (row_slug <$> dashboard_tbl (db Demo.w_synced)) /\
  Demo.mem_record ∈ dashboard_tbl (db Demo.w_synced) /\
  files (exportJsons (Demo.PrettyPrintJSON Demo.docs) "grafana.db"
           Demo.w_synced).2 !! "sqlite/memory.json"
  = Some (Demo.indented Demo.mem).
Proof.
  split; [exact demo_slugs_differ|].
  split; [right; left|].
  apply (proj2 (exportJsons_files (Demo.PrettyPrintJSON Demo.docs)
                  "grafana.db" Demo.w_synced)
           demo_slugs_differ Demo.mem_record).
  right; left.
Defined.

(** Two rows with one slug: the export of the first is overwritten. *)
Lemma export_slug_collision :
  let w := mkWorld (mkDb [mkRow 1 "CPU" "cpu" (Demo.indented Demo.cpu_old);
                          mkRow 2 "CPU" "cpu" (Demo.indented Demo.cpu)] [])
                   ∅ 0 in
  let out := exportJsons (Demo.PrettyPrintJSON Demo.docs) "grafana.db" w in
  length out.1 = 4%nat /\
  files out.2 = {[ "sqlite/cpu.json" := Demo.indented Demo.cpu ]}.
Proof. by vm_compute. Qed.

Lemma demo_exportable :
  exportable (Demo.Unmarshal Demo.docs) (Demo.PrettyPrintJSON Demo.docs)
    Demo.Slugify (db Demo.w_synced).
Proof.
  split_and!.
  - repeat constructor.
    + exists Demo.cpu. split_and!; by vm_compute.
    + exists Demo.mem. split_and!; by vm_compute.
  - exact demo_slugs_differ.
  - change (NoDup ["abc123"; "def456"]).
    apply NoDup_cons. split; [|apply NoDup_singleton].
    intros H. by apply list_elem_of_singleton in H.
Qed.

Lemma export_then_import_witness :
  (forall (A : Type) (m : gmap string A), Demo.range A m ≡ₚ map_to_list m) /\
  (forall w' p, Demo.ReadFile w' p = files w' !! p) /\
  is_Some (files Demo.w_synced !! "grafana.db") /\
  exportable (Demo.Unmarshal Demo.docs) (Demo.PrettyPrintJSON Demo.docs)
    Demo.Slugify (db Demo.w_synced) /\
  (let w1 := (exportJsons (Demo.PrettyPrintJSON Demo.docs) "grafana.db"
                Demo.w_synced).2 in
   let run := demo_importJsonsByUID "grafana.db"
                ["sqlite/cpu.json"; "sqlite/memory.json"] w1 in
   result run = Done tt /\ world run = w1 /\
   statements (events run) = [] /\
   backups (events run) = [] /\ sidecars (events run) = []).
Proof.
  split; [intros; reflexivity|].
  split; [intros; reflexivity|].
  split; [by eexists|].
  split; [exact demo_exportable|].
  apply (export_then_import Demo.range demo_range_perm 0
           Demo.ReadFile (Demo.Unmarshal Demo.docs)
           (Demo.PrettyPrintJSON Demo.docs) Demo.Slugify
           "grafana.db" Demo.w_synced);
    [intros; reflexivity|by eexists|exact demo_exportable].
Defined.

(** C8: the claim holds of the uids that the program compares, and these
    are not always the uids that the document and the record embed:
    [importJsonsByTitle] decodes every document into the one [dash] that it
    declares before its loop, so that a document without a uid keeps the uid
    of the item before it.  Here cpu.json is imported, and then title.json,
    whose document sets only the title CPU: it embeds no uid, its record
    embeds abc123, and yet no mismatch is reported, the item is not skipped,
    and the data of the record is overwritten with the bytes of
    title.json. *)
Theorem stale_uid_is_not_skipped :
  let decode := Demo.Unmarshal_into Demo.docs in
  let import := importJsonsByTitle Demo.range 0 Demo.ReadFile decode
                  (Demo.PrettyPrintJSON Demo.docs) "grafana.db" in
  let before := world (import ["cpu.json"] Demo.w_stale) in
  let run := import ["cpu.json"; "title.json"] Demo.w_stale in
  UID <$> document Demo.ReadFile decode before "title.json" = Some EmptyString /\
  uid_of_row decode <$> select_by_title "CPU" (db before) = [Some "abc123"] /\
  result run = Done tt /\
  mismatches (events run) = [] /\
  updates (events run) = [7; 7] /\
  sidecars (events run)
  = [("cpu.json.was", Demo.indented Demo.cpu_old);
     ("title.json.was", Demo.indented Demo.cpu)] /\
  dashboard_tbl (db (world run))
  = [mkRow 7 "CPU" "cpu" (Demo.title_only "CPU")].
Proof. by vm_compute. Qed.
